(** * Spotify to YouTube Music converter: matching, caching and playlist sync

    A shallow embedding of the Python services
      - [services/youtube.py]          (search and confidence scoring),
      - [utils/image_cache.py]         (thumbnail cache),
      - [services/youtube_playlist.py] (OAuth session and playlist creation),
    followed by the properties of the design document that concern them.

    Conventions of the embedding.
      - Python [str] is [string]; characters are the code points below
        256.
      - Python [float] is the kernel's binary64 [float]; every score below is
        computed with the same IEEE additions as the program.
      - A method that may raise returns a [pyresult]; side effects are
        threaded through an explicit state, and the effects made before an
        exception is raised persist, as in Python.
      - External collaborators (the YouTube Music search API, the HTTP
        session, the YouTube Data API, the OAuth provider, the MD5 digest)
        are oracles: records of functions, indexed by the number of calls
        already issued so that two calls may answer differently. *)

From Stdlib Require Import Bool List Arith Lia String Ascii.
From Stdlib Require Import DecimalString.
From Stdlib Require Import Sorting.Permutation Sorting.Sorted.
From Stdlib Require Import Floats.PrimFloat.
Import ListNotations.

Set Warnings "-inexact-float".

Local Open Scope string_scope.
Local Open Scope list_scope.
Local Open Scope nat_scope.

(* ================================================================= *)
(** ** Python primitives *)

Module Py.

(** [c.isspace()] on the code points below 256. *)
Definition isspace (c : ascii) : bool :=
  let n := nat_of_ascii c in
  ((9 <=? n) && (n <=? 13)) || ((28 <=? n) && (n <=? 32))
  || (n =? 133) || (n =? 160).

(** [c.lower()]: the letters A-Z, and the Latin-1 capitals (192-222,
    the multiplication sign 215 apart), move 32 places up. *)
Definition lower_char (c : ascii) : ascii :=
  let n := nat_of_ascii c in
  if ((65 <=? n) && (n <=? 90))
     || ((192 <=? n) && (n <=? 222) && negb (n =? 215))
  then ascii_of_nat (n + 32)
  else c.

(** [s.lower()] *)
Fixpoint lower (s : string) : string :=
  match s with
  | EmptyString => EmptyString
  | String c s' => String (lower_char c) (lower s')
  end.

(** [needle in hay] for two strings *)
Fixpoint contains (hay needle : string) : bool :=
  String.prefix needle hay
  || match hay with
     | EmptyString => false
     | String _ hay' => contains hay' needle
     end.

Definition str_in (needle hay : string) : bool := contains hay needle.

(** [s.split()]: maximal runs of non-whitespace characters. [cur] is the
    run being read. *)
Fixpoint split_from (cur s : string) : list string :=
  match s with
  | EmptyString => if (String.length cur =? 0)%nat then [] else [cur]
  | String c s' =>
      if isspace c
      then (if (String.length cur =? 0)%nat then split_from EmptyString s'
            else cur :: split_from EmptyString s')
      else split_from (cur ++ String c EmptyString) s'
  end.

Definition split (s : string) : list string := split_from EmptyString s.

(** [sep.join(parts)] *)
Definition join (sep : string) (parts : list string) : string :=
  String.concat sep parts.

(** [str(n)] for a non-negative integer *)
Definition str_of_nat (n : nat) : string :=
  NilEmpty.string_of_uint (Nat.to_uint n).

(** [bool(s)] for an optional string: [None] and [''] are falsy. *)
Definition truthy (s : option string) : bool :=
  match s with
  | None => false
  | Some s => negb (String.length s =? 0)%nat
  end.

(** [any(f(x) for x in l)] and the built-in [min] on floats
    ([min(a, b)] is [b] when [b < a], else [a]). *)
Definition any {A} (f : A -> bool) (l : list A) : bool := existsb f l.

Definition min (a b : float) : float := if PrimFloat.ltb b a then b else a.

(** Exceptions the services raise or catch. Every one of them is an
    instance of [Exception]. *)
Inductive exn : Type :=
| ValueError (msg : string)
| AttributeError
| HttpError
| OtherException.

Inductive pyresult (A : Type) : Type :=
| Returns (a : A)
| Raises (e : exn).
Arguments Returns {A} a.
Arguments Raises {A} e.

(** Computations over a state [S] that return or raise. *)
Definition M (S A : Type) : Type := S -> pyresult A * S.

Definition ret {S A} (a : A) : M S A := fun s => (Returns a, s).
Definition raise {S A} (e : exn) : M S A := fun s => (Raises e, s).
Definition bind {S A B} (m : M S A) (k : A -> M S B) : M S B :=
  fun s => match m s with
           | (Returns a, s') => k a s'
           | (Raises e, s') => (Raises e, s')
           end.
Definition get {S} : M S S := fun s => (Returns s, s).
Definition gets {S A} (f : S -> A) : M S A := fun s => (Returns (f s), s).
Definition modify {S} (f : S -> S) : M S unit := fun s => (Returns tt, f s).

(** [try: body  except C as e: handler(e)] where [catches e] tells whether
    [e] is an instance of [C]. *)
Definition try_except {S A} (body : M S A) (catches : exn -> bool)
           (handler : exn -> M S A) : M S A :=
  fun s => match body s with
           | (Returns a, s') => (Returns a, s')
           | (Raises e, s') =>
               if catches e then handler e s' else (Raises e, s')
           end.

(** Two calls in a row, the second on the state the first leaves. *)
Definition twice {S A} (m : M S A) : M S (A * A) :=
  fun s => match m s with
           | (Returns a, s') =>
               match m s' with
               | (Returns b, s'') => (Returns (a, b), s'')
               | (Raises e, s'') => (Raises e, s'')
               end
           | (Raises e, s') => (Raises e, s')
           end.

Definition is_Exception (e : exn) : bool := true.
Definition is_HttpError (e : exn) : bool :=
  match e with HttpError => true | _ => false end.

End Py.

Import Py.

Declare Scope py_scope.
Notation "x <- m ;; k" := (bind m (fun x => k))
  (at level 61, m at next level, right associativity) : py_scope.
Notation "m ;;; k" := (bind m (fun _ => k))
  (at level 61, right associativity) : py_scope.
Local Open Scope py_scope.

(* ================================================================= *)
(** ** utils/image_cache.py *)

Module ImageCache.

(** What the HTTP session answers to one GET. *)
Record Response : Type := {
  status_ok : bool;                (* [raise_for_status] does not raise *)
  content_type : option string;    (* the content-type header, if any *)
  body_complete : bool             (* [iter_content] streams to the end *)
}.

Inductive get_outcome : Type :=
| ConnectionFailed                 (* transport error or timeout *)
| Responded (r : Response).

(** The collaborators of the cache. [session_get n url] is the answer to
    the GET of [url] issued after [n] earlier requests. *)
Record Env : Type := {
  md5_hexdigest : string -> string;
  session_get : nat -> string -> get_outcome;
  open_wb : string -> bool;        (* [open(path, 'wb')] succeeds *)
  mkdir : string -> bool           (* [mkdir(parents=True, exist_ok=True)]
                                      succeeds *)
}.

(** The observable state: the files of the disk and the requests sent. *)
Record Store : Type := {
  files : list string;
  requests : list string
}.

Record ImageCache : Type := { cache_dir : string }.

Definition path_join (dir filename : string) : string :=
  dir ++ "/" ++ filename.

Definition path_exists (st : Store) (path : string) : bool :=
  existsb (String.eqb path) (files st).

Definition _get_cache_filename (env : Env) (url extension : string)
  : string :=
  let url_hash := md5_hexdigest env url in
  url_hash ++ "." ++ extension.

Definition _detect_image_format (url : string)
           (content_type : option string) : string :=
  let from_url :=
    if str_in ".png" (lower url) then "png"
    else if str_in ".webp" (lower url) then "webp"
    else "jpg" in
  match content_type with
  | Some ct =>
      if truthy (Some ct) then
        if str_in "jpeg" ct || str_in "jpg" ct then "jpg"
        else if str_in "png" ct then "png"
        else if str_in "webp" ct then "webp"
        else from_url
      else from_url
  | None => from_url
  end.

(** [self.session.get(url, timeout=10, stream=True)] *)
Definition http_get (env : Env) (url : string) : M Store Response :=
  fun st =>
    let st' := {| files := files st; requests := requests st ++ [url] |} in
    match session_get env (List.length (requests st)) url with
    | ConnectionFailed => (Raises OtherException, st')
    | Responded r => (Returns r, st')
    end.

Definition raise_for_status (r : Response) : M Store unit :=
  if status_ok r then ret tt else raise HttpError.

(** [with open(cache_path, 'wb') as f: for chunk in ...: f.write(chunk)].
    The file exists as soon as it has been opened. *)
Definition write_body (env : Env) (cache_path : string) (r : Response)
  : M Store unit :=
  if open_wb env cache_path then
    modify (fun st => {| files := cache_path :: files st;
                         requests := requests st |}) ;;;
    (if body_complete r then ret tt else raise OtherException)
  else raise OtherException.

Definition extensions : list string := ["jpg"; "png"; "webp"].

Definition get_cached_image (self : ImageCache) (env : Env)
           (url : option string) : M Store (option string) :=
  match url with
  | None => ret None
  | Some url =>
      if negb (truthy (Some url)) then ret None
      else
        try_except
          (st <- Py.get ;;
           let cache_path_of ext :=
             path_join (cache_dir self) (_get_cache_filename env url ext) in
           match find (fun ext => path_exists st (cache_path_of ext))
                      extensions with
           | Some ext => ret (Some (cache_path_of ext))
           | None =>
               response <- http_get env url ;;
               raise_for_status response ;;;
               let content_type :=
                 match content_type response with
                 | Some ct => ct
                 | None => ""
                 end in
               let extension :=
                 _detect_image_format url (Some content_type) in
               let filename := _get_cache_filename env url extension in
               let cache_path := path_join (cache_dir self) filename in
               write_body env cache_path response ;;;
               ret (Some cache_path)
           end)
          is_Exception
          (fun _ => ret None)
  end.

(** The state of the module: the global [_image_cache], [None] until
    [get_image_cache] has made the instance, and the store. *)
Record Globals : Type := {
  _image_cache : option ImageCache;
  store : Store
}.

(** [ImageCache(cache_dir)]: the directory is made when it is missing,
    outside any [try], so the constructor raises when it cannot be
    made. *)
Definition init (env : Env) (cache_dir : string) : M Globals ImageCache :=
  if mkdir env cache_dir then ret {| cache_dir := cache_dir |}
  else raise OtherException.

Definition default_cache_dir : string := "data/thumbnails".

(** [get_image_cache()]: the instance is made at the first call that
    gets that far, and kept. *)
Definition get_image_cache (env : Env) : M Globals ImageCache :=
  g <- Py.get ;;
  match _image_cache g with
  | None =>
      cache <- init env default_cache_dir ;;
      modify (fun g => {| _image_cache := Some cache; store := store g |}) ;;;
      ret cache
  | Some cache => ret cache
  end.

(** A method of the instance, run on the store of the module. *)
Definition on_store {A} (m : M Store A) : M Globals A :=
  fun g =>
    let '(r, st) := m (store g) in
    (r, {| _image_cache := _image_cache g; store := st |}).

Definition cache_image (env : Env) (url : option string)
  : M Globals (option string) :=
  cache <- get_image_cache env ;;
  on_store (get_cached_image cache env url).

(** A dictionary from URLs to local paths, in insertion order; [None]
    and [''] are two different keys. *)
Definition url_dict : Type := list (option string * option string).

Definition key_eqb (k k' : option string) : bool :=
  match k, k' with
  | None, None => true
  | Some a, Some b => String.eqb a b
  | _, _ => false
  end.

(** [d[k] = v]: the entry of an existing key is replaced where it is. *)
Fixpoint dict_set (k : option string) (v : option string) (d : url_dict)
  : url_dict :=
  match d with
  | [] => [(k, v)]
  | (k', v') :: d' =>
      if key_eqb k k' then (k, v) :: d' else (k', v') :: dict_set k v d'
  end.

(** [d.get(k)]: the entry of [k], if it has one. *)
Fixpoint dict_lookup (k : option string) (d : url_dict)
  : option (option string) :=
  match d with
  | [] => None
  | (k', v') :: d' => if key_eqb k k' then Some v' else dict_lookup k d'
  end.

(** [for i, url in enumerate(urls): ...] of [get_cached_image_batch];
    the pause between two downloads is left out. *)
Fixpoint batch_loop (self : ImageCache) (env : Env)
         (urls : list (option string)) (results : url_dict)
  : M Store url_dict :=
  match urls with
  | [] => ret results
  | url :: rest =>
      if truthy url
      then path <- get_cached_image self env url ;;
           batch_loop self env rest (dict_set url path results)
      else batch_loop self env rest (dict_set url None results)
  end.

Definition get_cached_image_batch (self : ImageCache) (env : Env)
           (urls : list (option string)) : M Store url_dict :=
  batch_loop self env urls [].

Definition cache_images_batch (env : Env) (urls : list (option string))
  : M Globals url_dict :=
  cache <- get_image_cache env ;;
  on_store (get_cached_image_batch cache env urls).

End ImageCache.

(* ================================================================= *)
(** ** services/youtube.py *)

Module YouTubeMusic.

(** One song of the search API's answer: the keys the service reads.
    [None] is an absent key (or, for [album], a null value). *)
Record yt_result : Type := {
  title : option string;
  artists : list string;           (* the ['name'] of each artist *)
  album : option string;           (* the album's ['name'] *)
  duration : option string;
  videoId : option string;
  thumbnails : list (option string) (* the ['url'] of each thumbnail *)
}.

(** [self.ytmusic.search(query, filter="songs", limit=limit)], asked
    after [n] earlier queries: [None] when the call raises. *)
Record YTMusic : Type := {
  search : nat -> string -> nat -> option (list yt_result)
}.

(** A row of the Spotify DataFrame. *)
Module Spotify.
Record Row : Type := {
  track_name : string;
  artist_name : string;
  album_name : string;
  spotify_url : string
}.
End Spotify.

(** The [processed_result] dictionaries of [search_track]. *)
Module Processed.
Record t : Type := {
  youtube_title : string;
  youtube_artist : string;
  youtube_album : string;
  youtube_duration : string;
  youtube_url : string;
  youtube_video_id : string;
  youtube_thumbnail : string;
  match_confidence : float
}.
End Processed.

(** The [combined_result] dictionaries of [search_playlist_tracks]. *)
Module Combined.
Record t : Type := {
  track_name : string;
  artist_name : string;
  album_name : string;
  spotify_url : string;
  youtube_title : string;
  youtube_artist : string;
  youtube_album : string;
  youtube_duration : string;
  youtube_url : string;
  youtube_video_id : string;
  youtube_thumbnail : string;
  youtube_thumbnail_local : option string;
  match_confidence : float
}.
End Combined.

(** The state the service acts on: the queries sent to the search API
    and the state of the image cache module. *)
Record World : Type := {
  queries : list string;
  image_cache : ImageCache.Globals
}.

Definition dict_get (v : option string) (default : string) : string :=
  match v with Some s => s | None => default end.

Local Open Scope float_scope.

(** First artist loop: [score += 0.4; artist_match = True; break] at the
    first artist that contains, or is contained in, the source artist. *)
Fixpoint artist_loop (original_artist_lower : string)
         (yt_artists : list string) (score : float) : float * bool :=
  match yt_artists with
  | [] => (score, false)
  | yt_artist :: rest =>
      if str_in original_artist_lower yt_artist
         || str_in yt_artist original_artist_lower
      then (score + 0.4, true)
      else artist_loop original_artist_lower rest score
  end.

(** Second artist loop: [score += 0.2; break] at the first artist that
    contains a word of the source artist longer than two characters. *)
Fixpoint partial_artist_loop (original_artist_lower : string)
         (yt_artists : list string) (score : float) : float :=
  match yt_artists with
  | [] => score
  | yt_artist :: rest =>
      let artist_words := split original_artist_lower in
      if any (fun word => str_in word yt_artist)
             (List.filter (fun word => (2 <? String.length word)%nat)
                          artist_words)
      then score + 0.2
      else partial_artist_loop original_artist_lower rest score
  end.

Definition _calculate_match_confidence
           (original_artist original_track : string) (yt_result : yt_result)
  : float :=
  let score := 0.0 in
  let yt_title := lower (dict_get (title yt_result) "") in
  let yt_artists := List.map lower (artists yt_result) in
  let original_artist_lower := lower original_artist in
  let original_track_lower := lower original_track in
  let score :=
    if str_in original_track_lower yt_title then score + 0.5
    else if any (fun word => str_in word yt_title)
                (List.filter (fun word => (2 <? String.length word)%nat)
                             (split original_track_lower))
    then score + 0.3
    else score in
  let '(score, artist_match) :=
    artist_loop original_artist_lower yt_artists score in
  let score :=
    if negb artist_match
    then partial_artist_loop original_artist_lower yt_artists score
    else score in
  let score :=
    if String.eqb original_track_lower yt_title
       && any (fun yt_artist => String.eqb original_artist_lower yt_artist)
              yt_artists
    then score + 0.1
    else score in
  Py.min score 1.0.

(** [processed_results.sort(key=lambda x: x['match_confidence'],
    reverse=True)]: a stable sort, greatest key first, equal keys in
    their original order. *)
Fixpoint insert_desc (x : Processed.t) (l : list Processed.t)
  : list Processed.t :=
  match l with
  | [] => [x]
  | y :: l' =>
      if Processed.match_confidence x <? Processed.match_confidence y
      then y :: insert_desc x l'
      else x :: l
  end.

Definition sort_by_confidence_desc (l : list Processed.t)
  : list Processed.t :=
  List.fold_right insert_desc [] l.

Definition process_result (artist track_name : string) (result : yt_result)
  : Processed.t :=
  {| Processed.youtube_title := dict_get (title result) "";
     Processed.youtube_artist := join ", " (artists result);
     Processed.youtube_album := dict_get (album result) "";
     Processed.youtube_duration := dict_get (duration result) "";
     Processed.youtube_url :=
       ("https://music.youtube.com/watch?v="
          ++ dict_get (videoId result) "")%string;
     Processed.youtube_video_id := dict_get (videoId result) "";
     Processed.youtube_thumbnail :=
       match thumbnails result with
       | [] => ""%string
       | t :: ts => dict_get (List.last (t :: ts) None) ""
       end;
     Processed.match_confidence :=
       _calculate_match_confidence artist track_name result |}.

(** [self.ytmusic.search(...)]: records the query, raises when the API
    does. *)
Definition ytmusic_search (ytmusic : YTMusic) (query : string) (limit : nat)
  : M World (list yt_result) :=
  fun w =>
    let w' := {| queries := queries w ++ [query];
                 image_cache := image_cache w |} in
    match search ytmusic (List.length (queries w)) query limit with
    | Some results => (Returns results, w')
    | None => (Raises OtherException, w')
    end.

Definition search_track (ytmusic : YTMusic) (artist track_name : string)
           (limit : nat) : M World (list Processed.t) :=
  let query := (artist ++ " " ++ track_name)%string in
  try_except
    (results <- ytmusic_search ytmusic query limit ;;
     let processed_results :=
       List.map (process_result artist track_name) results in
     ret (sort_by_confidence_desc processed_results))
    is_Exception
    (fun _ => ret []).

(** [cache_image(url)] of [utils.image_cache], acting on the state of
    that module. *)
Definition cache_image (env : ImageCache.Env) (url : string)
  : M World (option string) :=
  fun w =>
    let '(r, g) := ImageCache.cache_image env (Some url) (image_cache w) in
    (r, {| queries := queries w; image_cache := g |}).

Definition empty_match (row : Spotify.Row) : Combined.t :=
  {| Combined.track_name := Spotify.track_name row;
     Combined.artist_name := Spotify.artist_name row;
     Combined.album_name := Spotify.album_name row;
     Combined.spotify_url := Spotify.spotify_url row;
     Combined.youtube_title := "";
     Combined.youtube_artist := "";
     Combined.youtube_album := "";
     Combined.youtube_duration := "";
     Combined.youtube_url := "";
     Combined.youtube_video_id := "";
     Combined.youtube_thumbnail := "";
     Combined.youtube_thumbnail_local := None;
     Combined.match_confidence := 0.0 |}.

Definition combine (row : Spotify.Row) (best_match : Processed.t)
           (cached_thumbnail_path : option string) : Combined.t :=
  {| Combined.track_name := Spotify.track_name row;
     Combined.artist_name := Spotify.artist_name row;
     Combined.album_name := Spotify.album_name row;
     Combined.spotify_url := Spotify.spotify_url row;
     Combined.youtube_title := Processed.youtube_title best_match;
     Combined.youtube_artist := Processed.youtube_artist best_match;
     Combined.youtube_album := Processed.youtube_album best_match;
     Combined.youtube_duration := Processed.youtube_duration best_match;
     Combined.youtube_url := Processed.youtube_url best_match;
     Combined.youtube_video_id := Processed.youtube_video_id best_match;
     Combined.youtube_thumbnail := Processed.youtube_thumbnail best_match;
     Combined.youtube_thumbnail_local := cached_thumbnail_path;
     Combined.match_confidence := Processed.match_confidence best_match |}.

(** The body of the loop of [search_playlist_tracks] for one row. *)
Definition search_playlist_row (ytmusic : YTMusic) (env : ImageCache.Env)
           (top_results : nat) (row : Spotify.Row) : M World Combined.t :=
  yt_results <- search_track ytmusic (Spotify.artist_name row)
                             (Spotify.track_name row) top_results ;;
  match yt_results with
  | best_match :: _ =>
      let thumbnail_url := Processed.youtube_thumbnail best_match in
      cached_thumbnail_path <-
        (if truthy (Some thumbnail_url)
         then cache_image env thumbnail_url
         else ret None) ;;
      ret (combine row best_match cached_thumbnail_path)
  | [] => ret (empty_match row)
  end.

(** [for idx, row in spotify_df.iterrows(): ... all_results.append(...)] *)
Fixpoint search_playlist_loop (ytmusic : YTMusic) (env : ImageCache.Env)
         (top_results : nat) (rows : list Spotify.Row)
         (all_results : list Combined.t) : M World (list Combined.t) :=
  match rows with
  | [] => ret all_results
  | row :: rest =>
      combined_result <- search_playlist_row ytmusic env top_results row ;;
      search_playlist_loop ytmusic env top_results rest
                           (all_results ++ [combined_result])
  end.

Definition search_playlist_tracks (ytmusic : YTMusic)
           (env : ImageCache.Env) (spotify_df : list Spotify.Row)
           (top_results : nat) : M World (list Combined.t) :=
  search_playlist_loop ytmusic env top_results spotify_df [].

(** [full_results[full_results['match_confidence'] >= threshold]] after
    a search with the default [top_results] of 3. The DataFrame made of
    no row at all has no column either, and asking it for
    ['match_confidence'] raises [KeyError]. *)
Definition get_best_matches (ytmusic : YTMusic) (env : ImageCache.Env)
           (spotify_df : list Spotify.Row) (confidence_threshold : float)
  : M World (list Combined.t) :=
  full_results <- search_playlist_tracks ytmusic env spotify_df 3 ;;
  match full_results with
  | [] => raise OtherException
  | _ :: _ =>
      ret (List.filter
             (fun m => confidence_threshold <=? Combined.match_confidence m)
             full_results)
  end.

End YouTubeMusic.

(* ================================================================= *)
(** ** services/youtube_playlist.py *)

Module YouTubePlaylist.

(** [google.oauth2.credentials.Credentials]: [valid] holds when there is
    a token and the expiry, if any, is still ahead of the clock. *)
Record Credentials : Type := {
  token : option string;
  refresh_token : option string;
  expiry : option nat
}.

Definition expired (c : Credentials) (now : nat) : bool :=
  match expiry c with
  | Some e => e <=? now
  | None => false
  end.

Definition valid (c : Credentials) (now : nat) : bool :=
  match token c with
  | Some _ => negb (expired c now)
  | None => false
  end.

Record Flow : Type := {
  flow_scopes : list string;
  flow_redirect_uri : string
}.

(** The attributes of the service object; [_flow] is [None] until
    [get_auth_url] has set the attribute. *)
Record Service : Type := {
  credentials : option Credentials;
  youtube : bool;                  (* the API client has been built *)
  _flow : option Flow
}.

Inductive api_call : Type :=
| PlaylistsInsert (title description privacy_status : string)
| PlaylistItemsInsert (playlist_id video_id : string).

Inductive api_outcome (A : Type) : Type :=
| ApiOk (a : A)
| ApiHttpError                     (* [execute()] raises [HttpError] *)
| ApiOtherError.                   (* [execute()] raises something else *)
Arguments ApiOk {A} a.
Arguments ApiHttpError {A}.
Arguments ApiOtherError {A}.

Record PlaylistResource : Type := { id : string }.

(** The YouTube Data API and the OAuth provider. The first argument of
    the two insertions is the number of API calls made before; [elapsed n]
    is the time the [n]-th call takes. *)
Record Env : Type := {
  playlists_insert :
    nat -> string -> string -> string -> api_outcome PlaylistResource;
  playlist_items_insert : nat -> string -> string -> api_outcome unit;
  elapsed : nat -> nat;
  authorization_url : string;
  fetch_token : string -> option Credentials;  (* [None]: raises *)
  token_file_writable : bool;
  build_ok : bool
}.

Record World : Type := {
  self : Service;
  now : nat;
  api_calls : list api_call;
  token_file : option Credentials
}.

Definition set_self (f : Service -> Service) : M World unit :=
  modify (fun w => {| self := f (self w); now := now w;
                      api_calls := api_calls w;
                      token_file := token_file w |}).

(** One request to the Data API: logged, timed, and answered. *)
Definition execute {A} (env : Env) (call : api_call)
           (answer : nat -> api_outcome A) : M World A :=
  fun w =>
    let n := List.length (api_calls w) in
    let w' := {| self := self w; now := now w + elapsed env n;
                 api_calls := api_calls w ++ [call];
                 token_file := token_file w |} in
    match answer n with
    | ApiOk a => (Returns a, w')
    | ApiHttpError => (Raises HttpError, w')
    | ApiOtherError => (Raises OtherException, w')
    end.

Definition _save_credentials (env : Env) : M World unit :=
  if token_file_writable env then
    modify (fun w => {| self := self w; now := now w;
                        api_calls := api_calls w;
                        token_file := credentials (self w) |})
  else raise OtherException.

Definition scopes : list string :=
  ["https://www.googleapis.com/auth/youtube"].
Definition redirect_uri : string := "http://localhost:8501".

Definition get_auth_url (env : Env) : M World string :=
  let flow := {| flow_scopes := scopes;
                 flow_redirect_uri := redirect_uri |} in
  let auth_url := authorization_url env in
  set_self (fun s => {| credentials := credentials s;
                        youtube := youtube s;
                        _flow := Some flow |}) ;;;
  ret auth_url.

Definition authenticate_with_code (env : Env) (auth_code : string)
  : M World bool :=
  try_except
    (w <- Py.get ;;
     match _flow (self w) with
     | None =>
         raise (ValueError
                  "No authentication flow found. Call get_auth_url() first.")
     | Some flow =>
         match fetch_token env auth_code with
         | None => raise OtherException
         | Some creds =>
             set_self (fun s => {| credentials := Some creds;
                                   youtube := youtube s;
                                   _flow := _flow s |}) ;;;
             _save_credentials env ;;;
             (if build_ok env
              then set_self (fun s => {| credentials := credentials s;
                                         youtube := true;
                                         _flow := _flow s |})
              else raise OtherException) ;;;
             ret true
         end
     end)
    is_Exception
    (fun _ => ret false).

Definition is_authenticated : M World bool :=
  gets (fun w => match credentials (self w) with
                 | Some c => valid c (now w)
                 | None => false
                 end).

Definition not_authenticated : exn :=
  ValueError "Not authenticated. Please authenticate first.".

(** [self.youtube.playlists()] and [self.youtube.playlistItems()]: the
    attribute is [None] until the client has been built, and asking
    [None] for a resource raises [AttributeError], which is not an
    [HttpError]. *)
Definition youtube_resource : M World unit :=
  w <- Py.get ;;
  if youtube (self w) then ret tt else raise AttributeError.

Definition create_playlist (env : Env)
           (title description privacy_status : string)
  : M World (option PlaylistResource) :=
  authenticated <- is_authenticated ;;
  if negb authenticated then raise not_authenticated
  else
    try_except
      (youtube_resource ;;;
       playlist_response <-
         execute env (PlaylistsInsert title description privacy_status)
                 (fun n => playlists_insert env n title description
                                            privacy_status) ;;
       ret (Some playlist_response))
      is_HttpError
      (fun _ => ret None).

Definition add_video_to_playlist (env : Env) (playlist_id video_id : string)
  : M World bool :=
  authenticated <- is_authenticated ;;
  if negb authenticated then raise not_authenticated
  else
    try_except
      (youtube_resource ;;;
       execute env (PlaylistItemsInsert playlist_id video_id)
               (fun n => playlist_items_insert env n playlist_id video_id)
       ;;; ret true)
      is_HttpError
      (fun _ => ret false).

(** A row of [tracks_df]: the columns the service reads. A cell of
    [youtube_video_id] that is NA is [None]. *)
Record TrackRow : Type := {
  track_name : string;
  artist_name : string;
  youtube_video_id : option string;
  match_confidence : float
}.

Module Failed.
Record t : Type := {
  track_name : string;
  artist_name : string;
  video_id : string
}.
End Failed.

(** The dictionary [create_playlist_from_tracks] returns; a key that a
    branch leaves out is [None]. *)
Record Result : Type := {
  success : bool;
  error : option string;
  playlist_id : option string;
  playlist_url : option string;
  playlist_name : option string;
  tracks_attempted : nat;
  tracks_added : nat;
  tracks_failed : option nat;
  tracks_skipped : nat;
  failed_tracks : option (list Failed.t);
  confidence_threshold : option float
}.

(** The boolean mask of the filter:
    [(match_confidence >= threshold) & (video_id != '') & video_id.notna()] *)
Definition is_valid_track (confidence_threshold : float) (track : TrackRow)
  : bool :=
  (confidence_threshold <=? match_confidence track)%float
  && match youtube_video_id track with
     | Some v => negb (String.eqb v "")
     | None => true
     end
  && match youtube_video_id track with
     | Some _ => true
     | None => false
     end.

Definition video_id_of (track : TrackRow) : string :=
  match youtube_video_id track with Some v => v | None => "" end.

(** [for _, track in valid_tracks.iterrows(): ...] *)
Fixpoint add_tracks_loop (env : Env) (playlist_id : string)
         (valid_tracks : list TrackRow) (tracks_added : nat)
         (tracks_failed : list Failed.t) : M World (nat * list Failed.t) :=
  match valid_tracks with
  | [] => ret (tracks_added, tracks_failed)
  | track :: rest =>
      let video_id := video_id_of track in
      added <- add_video_to_playlist env playlist_id video_id ;;
      if added
      then add_tracks_loop env playlist_id rest (tracks_added + 1)
                           tracks_failed
      else add_tracks_loop env playlist_id rest tracks_added
             (tracks_failed
                ++ [{| Failed.track_name := track_name track;
                       Failed.artist_name := artist_name track;
                       Failed.video_id := video_id |}])
  end.

Definition failure (message : string) (tracks_df : list TrackRow) : Result :=
  {| success := false;
     error := Some message;
     playlist_id := None;
     playlist_url := None;
     playlist_name := None;
     tracks_attempted := 0;
     tracks_added := 0;
     tracks_failed := None;
     tracks_skipped := List.length tracks_df;
     failed_tracks := None;
     confidence_threshold := None |}.

Definition create_playlist_from_tracks (env : Env) (playlist_name : string)
           (tracks_df : list TrackRow) (confidence_threshold : float)
           (description : string) : M World Result :=
  authenticated <- is_authenticated ;;
  if negb authenticated then raise not_authenticated
  else
    let valid_tracks :=
      List.filter (is_valid_track confidence_threshold) tracks_df in
    if List.length valid_tracks =? 0
    then ret (failure "No valid tracks found to add to playlist" tracks_df)
    else
      let playlist_desc :=
        if truthy (Some description) then description
        else ("Created from Spotify playlist with "
                ++ str_of_nat (List.length valid_tracks) ++ " tracks")%string
      in
      playlist <- create_playlist env playlist_name playlist_desc "private" ;;
      match playlist with
      | None => ret (failure "Failed to create playlist" tracks_df)
      | Some playlist =>
          let playlist_id := id playlist in
          let playlist_url :=
            ("https://www.youtube.com/playlist?list=" ++ playlist_id)%string
          in
          r <- add_tracks_loop env playlist_id valid_tracks 0 [] ;;
          let '(tracks_added, tracks_failed) := r in
          ret {| success := true;
                 error := None;
                 YouTubePlaylist.playlist_id := Some playlist_id;
                 YouTubePlaylist.playlist_url := Some playlist_url;
                 YouTubePlaylist.playlist_name := Some playlist_name;
                 tracks_attempted := List.length valid_tracks;
                 YouTubePlaylist.tracks_added := tracks_added;
                 YouTubePlaylist.tracks_failed :=
                   Some (List.length tracks_failed);
                 tracks_skipped :=
                   List.length tracks_df - List.length valid_tracks;
                 failed_tracks := Some tracks_failed;
                 YouTubePlaylist.confidence_threshold :=
                   Some confidence_threshold |}
      end.

(** [self.credentials.refresh(Request())] at a given time: the refreshed
    credentials, or [None] when the refresh raises. *)
Record Provider : Type := {
  refresh : Credentials -> nat -> option Credentials
}.

(** [_load_credentials]: the token file, when there is one, is loaded;
    expired credentials with a refresh token are refreshed and saved, and
    dropped when that raises; the client is built for valid
    credentials. *)
Definition _load_credentials (env : Env) (provider : Provider)
  : M World unit :=
  w <- Py.get ;;
  (match token_file w with
   | Some c => set_self (fun s => {| credentials := Some c;
                                     youtube := youtube s;
                                     _flow := _flow s |})
   | None => ret tt
   end) ;;;
  w <- Py.get ;;
  (match credentials (self w) with
   | Some c =>
       if expired c (now w) && truthy (refresh_token c)
       then
         try_except
           (match refresh provider c (now w) with
            | Some c' =>
                set_self (fun s => {| credentials := Some c';
                                      youtube := youtube s;
                                      _flow := _flow s |})
            | None => raise OtherException
            end ;;;
            _save_credentials env)
           is_Exception
           (fun _ => set_self (fun s => {| credentials := None;
                                           youtube := youtube s;
                                           _flow := _flow s |}))
       else ret tt
   | None => ret tt
   end) ;;;
  w <- Py.get ;;
  match credentials (self w) with
  | Some c =>
      if valid c (now w)
      then
        if build_ok env
        then set_self (fun s => {| credentials := credentials s;
                                   youtube := true;
                                   _flow := _flow s |})
        else raise OtherException
      else ret tt
  | None => ret tt
  end.

Definition credentials_not_found : exn :=
  ValueError
    ("YouTube credentials not found. Please set YOUTUBE_CLIENT_ID and "
       ++ "YOUTUBE_CLIENT_SECRET in your .env file.").

(** [YouTubePlaylistService()]: the two environment variables are
    required; the new object has no credentials, no client and no flow,
    then loads the token file. *)
Definition init (env : Env) (provider : Provider)
           (client_id client_secret : option string) : M World unit :=
  if negb (truthy client_id) || negb (truthy client_secret)
  then raise credentials_not_found
  else
    modify (fun w => {| self := {| credentials := None; youtube := false;
                                   _flow := None |};
                        now := now w; api_calls := api_calls w;
                        token_file := token_file w |}) ;;;
    _load_credentials env provider.

Definition is_ValueError (e : exn) : bool :=
  match e with ValueError _ => true | _ => false end.

(** [str(e)] *)
Definition str_of_exn (e : exn) : string :=
  match e with ValueError msg => msg | _ => "" end.

(** What the Streamlit function ends with: a result dictionary, or the
    rerun of the script that [st.rerun()] starts. *)
Inductive streamlit_outcome : Type :=
| Result_of (r : Result)
| Rerun.

(** [create_youtube_playlist_streamlit]; [auth_code] is what the text
    input holds (empty when nothing was entered). The messages shown on
    the page are left out. *)
Definition create_youtube_playlist_streamlit (env : Env)
           (provider : Provider) (client_id client_secret : option string)
           (auth_code : string) (tracks_df : list TrackRow)
           (playlist_name : string) (confidence_threshold : float)
  : M World streamlit_outcome :=
  (* try: service = YouTubePlaylistService()
     except ValueError as e: return {...}; [Some r] is that early return *)
  early <- try_except
             (init env provider client_id client_secret ;;; ret None)
             is_ValueError
             (fun e => ret (Some (failure (str_of_exn e) tracks_df))) ;;
  match early with
  | Some r => ret (Result_of r)
  | None =>
      authenticated <- is_authenticated ;;
      if negb authenticated
      then
        auth_url <- get_auth_url env ;;
        if truthy (Some auth_code)
        then
          ok <- authenticate_with_code env auth_code ;;
          if ok then ret Rerun
          else ret (Result_of (failure "Authentication failed" tracks_df))
        else ret (Result_of (failure "Authentication required" tracks_df))
      else
        result <- create_playlist_from_tracks env playlist_name tracks_df
                                              confidence_threshold "" ;;
        ret (Result_of result)
  end.

End YouTubePlaylist.

(* ================================================================= *)
(** ** services/spotify.py *)

Module SpotifyService.

(** The character class [a-zA-Z0-9]. *)
Definition isalnum (c : ascii) : bool :=
  let n := nat_of_ascii c in
  ((48 <=? n) && (n <=? 57)) || ((65 <=? n) && (n <=? 90))
  || ((97 <=? n) && (n <=? 122)).

(** The longest run of characters of the class at the head of [s]: what
    the greedy group [([a-zA-Z0-9]+)] takes. *)
Fixpoint take_alnum (s : string) : string :=
  match s with
  | EmptyString => EmptyString
  | String c s' => if isalnum c then String c (take_alnum s') else EmptyString
  end.

(** [s] without its head [p], when [s] starts with [p]. *)
Fixpoint strip_prefix (p s : string) : option string :=
  match p, s with
  | EmptyString, _ => Some s
  | String a p', String b s' =>
      if Ascii.eqb a b then strip_prefix p' s' else None
  | String _ _, EmptyString => None
  end.

(** The literal part of the pattern
    [https://open\.spotify\.com/playlist/([a-zA-Z0-9]+)]. *)
Definition playlist_prefix : string := "https://open.spotify.com/playlist/".

(** The group of a match of the pattern at the head of [s]. *)
Definition match_here (s : string) : option string :=
  match strip_prefix playlist_prefix s with
  | Some rest =>
      let group := take_alnum rest in
      if String.length group =? 0 then None else Some group
  | None => None
  end.

(** [re.search(pattern, s)]: the match at the leftmost position that has
    one; its group 1. *)
Fixpoint re_search (s : string) : option string :=
  match match_here s with
  | Some group => Some group
  | None =>
      match s with
      | EmptyString => None
      | String _ s' => re_search s'
      end
  end.

Definition extract_playlist_id (playlist_url : string)
  : pyresult string :=
  match re_search playlist_url with
  | None => Raises (ValueError ("Invalid Spotify playlist URL: "
                                  ++ playlist_url))
  | Some group => Returns group
  end.

(** A track of the API's answer, with the fields the service asks for. *)
Record Track : Type := {
  name : string;
  artists : list string;             (* the ['name'] of each artist *)
  album : string;                    (* [track['album']['name']] *)
  external_url : string              (* [external_urls['spotify']] *)
}.

(** One page: its items (a [None] track is a local or unavailable one)
    and the link to the next page, if any. *)
Record Page : Type := {
  items : list (option Track);
  next : option string
}.

(** [self.sp.playlist_tracks(playlist_id, offset=, limit=, fields=)],
    asked after [n] earlier requests: [None] when the call raises. *)
Record Spotipy : Type := {
  playlist_tracks : nat -> string -> nat -> nat -> option Page
}.

(** The requests sent so far: playlist id and offset. *)
Definition Requests : Type := list (string * nat).

Definition row_of_track (track : Track) : YouTubeMusic.Spotify.Row :=
  {| YouTubeMusic.Spotify.track_name := name track;
     YouTubeMusic.Spotify.artist_name := join ", " (artists track);
     YouTubeMusic.Spotify.album_name := album track;
     YouTubeMusic.Spotify.spotify_url := external_url track |}.

(** [for item in results['items']: ...] *)
Fixpoint append_items (items : list (option Track))
         (tracks_data : list YouTubeMusic.Spotify.Row)
  : list YouTubeMusic.Spotify.Row :=
  match items with
  | [] => tracks_data
  | None :: rest => append_items rest tracks_data
  | Some track :: rest =>
      append_items rest (tracks_data ++ [row_of_track track])
  end.

Definition request_page (sp : Spotipy) (playlist_id : string)
           (offset limit : nat) : M Requests Page :=
  fun log =>
    let log' := log ++ [(playlist_id, offset)] in
    match playlist_tracks sp (List.length log) playlist_id offset limit with
    | Some page => (Returns page, log')
    | None => (Raises OtherException, log')
    end.

(** The [while True] loop, run for at most [fuel] pages: [None] when the
    pages have not come to an end by then. *)
Fixpoint pages_loop (fuel : nat) (sp : Spotipy) (playlist_id : string)
         (offset limit : nat) (tracks_data : list YouTubeMusic.Spotify.Row)
  : M Requests (option (list YouTubeMusic.Spotify.Row)) :=
  match fuel with
  | O => ret None
  | S fuel' =>
      results <- request_page sp playlist_id offset limit ;;
      let tracks_data := append_items (items results) tracks_data in
      match next results with
      | None => ret (Some tracks_data)
      | Some _ =>
          pages_loop fuel' sp playlist_id (offset + limit) limit tracks_data
      end
  end.

Definition get_playlist_tracks (fuel : nat) (sp : Spotipy)
           (playlist_url : string)
  : M Requests (option (list YouTubeMusic.Spotify.Row)) :=
  match extract_playlist_id playlist_url with
  | Raises e => raise e
  | Returns playlist_id => pages_loop fuel sp playlist_id 0 100 []
  end.

End SpotifyService.

(* ================================================================= *)
(** ** The scoring algorithm as the design document words it *)

Module Spec.

Local Open Scope float_scope.

(** Whitespace-delimited tokens longer than two characters. *)
Definition tokens (s : string) : list string :=
  List.filter (fun w => (2 <? String.length w)%nat) (split s).

(** Step 1: the title component. *)
Definition title_component (source_title candidate_title : string)
  : float :=
  if contains (lower candidate_title) (lower source_title) then 0.5
  else if existsb (fun tok => contains (lower candidate_title) tok)
                  (tokens (lower source_title))
  then 0.3
  else 0.

(** Step 2: the artist component, with its token fallback. *)
Definition artist_matched (source_artist : string)
           (candidate_artists : list string) : bool :=
  existsb (fun a => contains (lower a) (lower source_artist)
                    || contains (lower source_artist) (lower a))
          candidate_artists.

Definition artist_component (source_artist : string)
           (candidate_artists : list string) : float :=
  if artist_matched source_artist candidate_artists then 0.4
  else if existsb (fun a =>
                     existsb (fun tok => contains (lower a) tok)
                             (tokens (lower source_artist)))
                  candidate_artists
  then 0.2
  else 0.

(** Step 3: the exact-match bonus. *)
Definition exact_match_bonus (source_artist source_title : string)
           (candidate_title : string) (candidate_artists : list string)
  : float :=
  if String.eqb (lower candidate_title) (lower source_title)
     && existsb (fun a => String.eqb (lower a) (lower source_artist))
                candidate_artists
  then 0.1
  else 0.

(** Step 4: the sum, clamped at 1.0. *)
Definition clamp (x : float) : float := if 1.0 <? x then 1.0 else x.

Definition confidence (source_artist source_title : string)
           (candidate_title : string) (candidate_artists : list string)
  : float :=
  clamp (title_component source_title candidate_title
         + artist_component source_artist candidate_artists
         + exact_match_bonus source_artist source_title
                             candidate_title candidate_artists).

End Spec.

(* ================================================================= *)
(** ** Sample inputs

    Concrete collaborators and inputs on which the properties below are
    exercised. *)

Module Samples.

Definition daft_punk : YouTubeMusic.yt_result :=
  {| YouTubeMusic.title := Some "One More Time";
     YouTubeMusic.artists := ["Daft Punk"];
     YouTubeMusic.album := Some "Discovery";
     YouTubeMusic.duration := Some "5:20";
     YouTubeMusic.videoId := Some "FGBhQbmPwH8";
     YouTubeMusic.thumbnails := [] |}.

Definition thumbnail_url : string :=
  "https://i.ytimg.com/vi/dQw4w9WgXcQ/default.jpg".

(** The MD5 digest of [thumbnail_url] as [hashlib] computes it, the only
    URL the samples hash; the entry of any other URL is a placeholder. *)
Definition md5_table (url : string) : string :=
  if String.eqb url thumbnail_url then "aaf1fccd11a990f27c35d627168748cb"
  else "d41d8cd98f00b204e9800998ecf8427e".

Definition jpeg_response : ImageCache.Response :=
  {| ImageCache.status_ok := true;
     ImageCache.content_type := Some "image/jpeg";
     ImageCache.body_complete := true |}.

(** A host that cannot be reached. *)
Definition offline : ImageCache.Env :=
  {| ImageCache.md5_hexdigest := md5_table;
     ImageCache.session_get := fun _ _ => ImageCache.ConnectionFailed;
     ImageCache.open_wb := fun _ => true;
     ImageCache.mkdir := fun _ => true |}.

(** A host whose first answer is lost and that serves the image after. *)
Definition flaky : ImageCache.Env :=
  {| ImageCache.md5_hexdigest := md5_table;
     ImageCache.session_get :=
       fun n _ => match n with
                  | 0 => ImageCache.ConnectionFailed
                  | _ => ImageCache.Responded jpeg_response
                  end;
     ImageCache.open_wb := fun _ => true;
     ImageCache.mkdir := fun _ => true |}.

(** A host that serves every image. *)
Definition online : ImageCache.Env :=
  {| ImageCache.md5_hexdigest := md5_table;
     ImageCache.session_get := fun _ _ => ImageCache.Responded jpeg_response;
     ImageCache.open_wb := fun _ => true;
     ImageCache.mkdir := fun _ => true |}.

Definition empty_store : ImageCache.Store :=
  {| ImageCache.files := []; ImageCache.requests := [] |}.

(** The instance [ImageCache()] makes. *)
Definition default_cache : ImageCache.ImageCache :=
  {| ImageCache.cache_dir := ImageCache.default_cache_dir |}.

(** A fresh process: no instance yet, nothing on the disk. *)
Definition fresh_module : ImageCache.Globals :=
  {| ImageCache._image_cache := None; ImageCache.store := empty_store |}.

(** A host that serves every image, on a machine where the cache
    directory cannot be made. *)
Definition no_cache_dir : ImageCache.Env :=
  {| ImageCache.md5_hexdigest := md5_table;
     ImageCache.session_get := fun _ _ => ImageCache.Responded jpeg_response;
     ImageCache.open_wb := fun _ => false;
     ImageCache.mkdir := fun _ => false |}.

End Samples.

(* ================================================================= *)
(** ** Vocabulary of the properties *)

Module Matching.
Import YouTubeMusic.

Local Open Scope float_scope.

(** Every value the scorer can produce: the clamped sums of one title
    weight, one artist weight and one bonus. *)
Definition score_values : list float :=
  List.flat_map
    (fun t => List.flat_map
                (fun a => List.map (fun b => Spec.clamp (t + a + b))
                                   [0.1; 0])
                [0.4; 0.2; 0])
    [0.5; 0.3; 0].

Definition leq_total_on (vs : list float) : bool :=
  forallb (fun x => forallb (fun y => (x <? y) || (y <=? x)) vs) vs.

Definition lt_leq_on (vs : list float) : bool :=
  forallb (fun x => forallb (fun y => negb (x <? y) || (x <=? y)) vs) vs.

Definition leq_trans_on (vs : list float) : bool :=
  forallb (fun x =>
    forallb (fun y =>
      forallb (fun z => negb ((x <=? y) && (y <=? z)) || (x <=? z)) vs) vs)
    vs.

Definition unit_interval_on (vs : list float) : bool :=
  forallb (fun x => (0 <=? x) && (x <=? 1)) vs.

Definition query_of (row : Spotify.Row) : string :=
  (Spotify.artist_name row ++ " " ++ Spotify.track_name row)%string.

(** The Spotify columns of a combined row. *)
Definition spotify_part (m : Combined.t) : Spotify.Row :=
  {| Spotify.track_name := Combined.track_name m;
     Spotify.artist_name := Combined.artist_name m;
     Spotify.album_name := Combined.album_name m;
     Spotify.spotify_url := Combined.spotify_url m |}.

(** Every target column of the row is empty and the confidence is 0.0. *)
Definition target_fields_empty (m : Combined.t) : Prop :=
  Combined.youtube_title m = ""%string
  /\ Combined.youtube_artist m = ""%string
  /\ Combined.youtube_album m = ""%string
  /\ Combined.youtube_duration m = ""%string
  /\ Combined.youtube_url m = ""%string
  /\ Combined.youtube_video_id m = ""%string
  /\ Combined.youtube_thumbnail m = ""%string
  /\ Combined.youtube_thumbnail_local m = None
  /\ Combined.match_confidence m = 0.

(** The candidates of [row] in the answer [results] of its search. *)
Definition candidates (row : Spotify.Row) (results : list yt_result)
  : list Processed.t :=
  List.map (process_result (Spotify.artist_name row)
                           (Spotify.track_name row)) results.

(** [m] is the row made for [row] when its search is the query sent
    after [n] earlier ones. When that search answers with at least one
    song, [m] merges [row] with a candidate of the answer whose
    confidence is in the unit interval and is not below that of any
    candidate of the answer; when it raises or answers with nothing, [m]
    is the empty match of [row], whose target columns are empty. *)
Definition merges_best (ytmusic : YTMusic) (top_results n : nat)
           (row : Spotify.Row) (m : Combined.t) : Prop :=
  match search ytmusic n (query_of row) top_results with
  | Some (result :: results) =>
      exists best path,
        In best (candidates row (result :: results))
        /\ m = combine row best path
        /\ (0 <=? Processed.match_confidence best) = true
        /\ (Processed.match_confidence best <=? 1) = true
        /\ (forall c, In c (candidates row (result :: results)) ->
                      (Processed.match_confidence c
                       <=? Processed.match_confidence best) = true)
  | Some [] | None => m = empty_match row /\ target_fields_empty m
  end.

(** Row by row, [out] holds the rows made for [rows], the search for
    the first of them being the query sent after [n] earlier ones. *)
Fixpoint rows_made (ytmusic : YTMusic) (top_results n : nat)
         (rows : list Spotify.Row) (out : list Combined.t) : Prop :=
  match rows, out with
  | [], [] => True
  | row :: rows', m :: out' =>
      spotify_part m = row
      /\ merges_best ytmusic top_results n row m
      /\ rows_made ytmusic top_results (S n) rows' out'
  | _, _ => False
  end.

(** The image cache can be had: the instance exists, or its directory
    can be made. *)
Definition cache_obtainable (env : ImageCache.Env) (w : World) : Prop :=
  ImageCache._image_cache (image_cache w) <> None
  \/ ImageCache.mkdir env ImageCache.default_cache_dir = true.

(** Every search raises or finds nothing. *)
Definition finds_nothing (ytmusic : YTMusic) (top_results : nat) : Prop :=
  forall n query,
    search ytmusic n query top_results = None
    \/ search ytmusic n query top_results = Some [].

(** The world after the searches for [rows], the image cache left
    alone. *)
Definition after_queries (w : World) (rows : list Spotify.Row) : World :=
  {| queries := queries w ++ List.map query_of rows;
     image_cache := image_cache w |}.

(** The store of the image cache. *)
Definition store_of (w : World) : ImageCache.Store :=
  ImageCache.store (image_cache w).

(** A search API that is down: every query raises. *)
Definition ytmusic_down : YTMusic := {| search := fun _ _ _ => None |}.

(** A search API that answers every query with one unrelated song. *)
Definition ytmusic_unrelated : YTMusic :=
  {| search := fun _ _ _ =>
       Some [{| title := Some "Bohemian Rhapsody";
                artists := ["Queen"];
                album := Some "A Night at the Opera";
                duration := Some "5:55";
                videoId := Some "fJ9rUzIMcZQ";
                thumbnails := [] |}] |}.

Definition one_more_time : Spotify.Row :=
  {| Spotify.track_name := "One More Time";
     Spotify.artist_name := "Daft Punk";
     Spotify.album_name := "Discovery";
     Spotify.spotify_url :=
       "https://open.spotify.com/track/0DiWol3AO6WpXZgp0goxAV" |}.

Definition fresh_world : World :=
  {| queries := []; image_cache := Samples.fresh_module |}.

(** The confidences of [l] are values the scorer can produce. *)
Definition scored (l : list Processed.t) : Prop :=
  forall c, In c l -> In (Processed.match_confidence c) score_values.

(** The head of the list is not below any later element. *)
Definition head_is_best (l : list Processed.t) : Prop :=
  match l with
  | [] => True
  | best :: rest =>
      forall c, In c rest ->
                (Processed.match_confidence c
                 <=? Processed.match_confidence best) = true
  end.

(** A search API that answers every query with the song asked for in
    the samples, with its thumbnail. *)
Definition ytmusic_hit : YTMusic :=
  {| search := fun _ _ _ =>
       Some [{| title := Some "One More Time";
                artists := ["Daft Punk"];
                album := Some "Discovery";
                duration := Some "5:20";
                videoId := Some "FGBhQbmPwH8";
                thumbnails := [Some Samples.thumbnail_url] |}] |}.

End Matching.

Module Syncing.
Import YouTubePlaylist.

(** Time taken by the [k] API calls that follow [n] earlier ones. *)
Fixpoint elapsed_sum (env : Env) (n k : nat) : nat :=
  match k with
  | O => O
  | S k' => elapsed env n + elapsed_sum env (S n) k'
  end.

(** The credentials of the service are valid now and stay so while the
    next [k] API calls are made. *)
Definition session_holds (env : Env) (w : World) (k : nat) : Prop :=
  exists c,
    credentials (self w) = Some c
    /\ forall j, j <= k ->
                 valid c (now w
                          + elapsed_sum env (List.length (api_calls w)) j)
                 = true.

(** The API client of the service has been built. *)
Definition client_built (w : World) : Prop := youtube (self w) = true.

(** What the API answers to the insertion of each track, the first being
    asked after [n] earlier calls: [true] when the item is inserted. *)
Fixpoint inserted (env : Env) (playlist_id : string) (n : nat)
         (tracks : list TrackRow) : list bool :=
  match tracks with
  | [] => []
  | track :: rest =>
      match playlist_items_insert env n playlist_id (video_id_of track) with
      | ApiOk _ => true
      | _ => false
      end :: inserted env playlist_id (S n) rest
  end.

Definition to_failed (track : TrackRow) : Failed.t :=
  {| Failed.track_name := track_name track;
     Failed.artist_name := artist_name track;
     Failed.video_id := video_id_of track |}.

(** The tracks whose insertion was answered with [false], in order. *)
Fixpoint not_inserted (tracks : list TrackRow) (answers : list bool)
  : list Failed.t :=
  match tracks, answers with
  | track :: rest, false :: answers' =>
      to_failed track :: not_inserted rest answers'
  | _ :: rest, true :: answers' => not_inserted rest answers'
  | _, _ => []
  end.

Definition count_true (answers : list bool) : nat :=
  List.length (List.filter (fun b => b) answers).

Definition insert_calls (playlist_id : string) (tracks : list TrackRow)
  : list api_call :=
  List.map (fun track => PlaylistItemsInsert playlist_id (video_id_of track))
           tracks.

(** The description [create_playlist_from_tracks] gives the playlist. *)
Definition playlist_desc (description : string) (valid_tracks : list TrackRow)
  : string :=
  if truthy (Some description) then description
  else ("Created from Spotify playlist with "
          ++ str_of_nat (List.length valid_tracks) ++ " tracks")%string.

(** Sample service states, tracks and APIs. *)
Definition session : Credentials :=
  {| token := Some "ya29.a0AfH6SM";
     refresh_token := Some "1//0gLN";
     expiry := Some 3600 |}.

Definition signed_in : World :=
  {| self := {| credentials := Some session; youtube := true;
                _flow := None |};
     now := 0; api_calls := []; token_file := Some session |}.

Definition signed_out : World :=
  {| self := {| credentials := None; youtube := false; _flow := None |};
     now := 0; api_calls := []; token_file := None |}.

(** Valid credentials on a service whose client was never built, as
    [authenticate_with_code] leaves it when the token file cannot be
    written. *)
Definition without_client : World :=
  {| self := {| credentials := Some session; youtube := false;
                _flow := None |};
     now := 0; api_calls := []; token_file := None |}.

Definition good_track : TrackRow :=
  {| track_name := "One More Time"; artist_name := "Daft Punk";
     youtube_video_id := Some "FGBhQbmPwH8"; match_confidence := 1.0%float |}.

Definition weak_track : TrackRow :=
  {| track_name := "Around the World"; artist_name := "Daft Punk";
     youtube_video_id := Some "fJ9rUzIMcZQ"; match_confidence := 0.3%float |}.

Definition unmatched_track : TrackRow :=
  {| track_name := "Aerodynamic"; artist_name := "Daft Punk";
     youtube_video_id := Some ""; match_confidence := 0%float |}.

Definition sample_df : list TrackRow :=
  [good_track; weak_track; unmatched_track].

(** An API that creates playlists and refuses every item. *)
Definition items_refused : Env :=
  {| playlists_insert := fun _ _ _ _ => ApiOk {| id := "PL123" |};
     playlist_items_insert := fun _ _ _ => ApiHttpError;
     elapsed := fun _ => 1;
     authorization_url := "https://accounts.google.com/o/oauth2/auth";
     fetch_token := fun _ => None;
     token_file_writable := true;
     build_ok := true |}.

(** An API and an OAuth provider that grant everything. *)
Definition granting : Env :=
  {| playlists_insert := fun _ _ _ _ => ApiOk {| id := "PL123" |};
     playlist_items_insert := fun _ _ _ => ApiOk tt;
     elapsed := fun _ => 1;
     authorization_url := "https://accounts.google.com/o/oauth2/auth";
     fetch_token := fun _ => Some session;
     token_file_writable := true;
     build_ok := true |}.

(** An API that creates playlists and then loses the connection: every
    insertion raises an error that is not an HTTP error. *)
Definition connection_lost : Env :=
  {| playlists_insert := fun _ _ _ _ => ApiOk {| id := "PL123" |};
     playlist_items_insert := fun _ _ _ => ApiOtherError;
     elapsed := fun _ => 1;
     authorization_url := "https://accounts.google.com/o/oauth2/auth";
     fetch_token := fun _ => None;
     token_file_writable := true;
     build_ok := true |}.

(** An API that refuses to create playlists. *)
Definition creation_refused : Env :=
  {| playlists_insert := fun _ _ _ _ => ApiHttpError;
     playlist_items_insert := fun _ _ _ => ApiOk tt;
     elapsed := fun _ => 1;
     authorization_url := "https://accounts.google.com/o/oauth2/auth";
     fetch_token := fun _ => None;
     token_file_writable := true;
     build_ok := true |}.

(** The world after the API calls [calls] have been made from [w]. *)
Definition after_calls (env : Env) (w : World) (calls : list api_call)
  : World :=
  {| self := self w;
     now := now w + elapsed_sum env (List.length (api_calls w))
                                (List.length calls);
     api_calls := api_calls w ++ calls;
     token_file := token_file w |}.

End Syncing.

Module Evidence.
Import YouTubeMusic.

Local Open Scope float_scope.

(** Some evidence for the title: the source title, or one of its words
    longer than two characters, occurs in the candidate title. *)
Definition title_evidence (original_track : string) (r : yt_result) : bool :=
  let yt_title := lower (dict_get (title r) "") in
  contains yt_title (lower original_track)
  || existsb (fun tok => contains yt_title tok)
             (Spec.tokens (lower original_track)).

(** Some evidence for the artist: containment one way or the other with
    a candidate artist, or a word of the source artist in one of them. *)
Definition artist_evidence (original_artist : string) (r : yt_result)
  : bool :=
  existsb (fun a => contains (lower a) (lower original_artist)
                    || contains (lower original_artist) (lower a)
                    || existsb (fun tok => contains (lower a) tok)
                               (Spec.tokens (lower original_artist)))
          (artists r).

(** The lowercase titles are equal and some candidate artist is, in
    lowercase, the source artist. *)
Definition exact_match (original_artist original_track : string)
           (r : yt_result) : bool :=
  String.eqb (lower original_track) (lower (dict_get (title r) ""))
  && existsb (fun a => String.eqb (lower original_artist) (lower a))
             (artists r).

(** The value of [score] when [_calculate_match_confidence] reaches its
    last line, before [min(score, 1.0)] is taken. *)
Definition score_before_min
           (original_artist original_track : string) (yt_result : yt_result)
  : float :=
  let score := 0.0 in
  let yt_title := lower (dict_get (title yt_result) "") in
  let yt_artists := List.map lower (artists yt_result) in
  let original_artist_lower := lower original_artist in
  let original_track_lower := lower original_track in
  let score :=
    if str_in original_track_lower yt_title then score + 0.5
    else if any (fun word => str_in word yt_title)
                (List.filter (fun word => (2 <? String.length word)%nat)
                             (split original_track_lower))
    then score + 0.3
    else score in
  let '(score, artist_match) :=
    artist_loop original_artist_lower yt_artists score in
  let score :=
    if negb artist_match
    then partial_artist_loop original_artist_lower yt_artists score
    else score in
  let score :=
    if String.eqb original_track_lower yt_title
       && any (fun yt_artist => String.eqb original_artist_lower yt_artist)
              yt_artists
    then score + 0.1
    else score in
  score.

(** The eight scores. *)
Definition confidence_levels : list float :=
  [0; 0.2; 0.3; 0.4; 0.5; 0.7; 0.9; 1].

(** The candidate with its title and artist names in lowercase. *)
Definition lower_result (r : yt_result) : yt_result :=
  {| title := option_map lower (title r);
     artists := List.map lower (artists r);
     album := album r;
     duration := duration r;
     videoId := videoId r;
     thumbnails := thumbnails r |}.

End Evidence.

Module Caching.
Import ImageCache.

(** The path of the cached copy of [url] with extension [ext]. *)
Definition cached_path (self : ImageCache) (env : Env) (url ext : string)
  : string :=
  path_join (cache_dir self) (_get_cache_filename env url ext).

(** No copy of [url] is in the cache, under any extension. *)
Definition not_cached (self : ImageCache) (env : Env) (url : string)
           (st : Store) : Prop :=
  forall ext, In ext extensions ->
              path_exists st (cached_path self env url ext) = false.

(** The store after one request for [url] that wrote nothing. *)
Definition after_request (st : Store) (url : string) : Store :=
  {| files := files st; requests := requests st ++ [url] |}.

(** The store after one request for [url] that left the file [path]. *)
Definition after_download (st : Store) (url path : string) : Store :=
  {| files := path :: files st; requests := requests st ++ [url] |}.

(** The number of URLs of a batch that are neither [None] nor empty. *)
Definition count_urls (urls : list (option string)) : nat :=
  List.length (List.filter truthy urls).

(** The paths recorded in a dictionary are files of the store. *)
Definition paths_exist (st : Store) (d : url_dict) : Prop :=
  forall k p, dict_lookup k d = Some (Some p) -> path_exists st p = true.

(** A response with a good status whose body breaks off. *)
Definition truncated_response : Response :=
  {| status_ok := true;
     content_type := Some "image/jpeg";
     body_complete := false |}.

(** A host that answers the first request with a body that breaks off. *)
Definition breaking_off : Env :=
  {| md5_hexdigest := Samples.md5_table;
     session_get :=
       fun n _ => match n with
                  | 0 => Responded truncated_response
                  | _ => ConnectionFailed
                  end;
     open_wb := fun _ => true;
     mkdir := fun _ => true |}.

End Caching.

Module Ranking.
Import YouTubeMusic.

Local Open Scope float_scope.

(** [a] may stand before [b]: the confidence of [b] is not above that of
    [a]. *)
Definition not_below (a b : Processed.t) : Prop :=
  (Processed.match_confidence b <=? Processed.match_confidence a) = true.

(** [d] has the confidence of [c]. *)
Definition same_confidence (c d : Processed.t) : bool :=
  Processed.match_confidence d =? Processed.match_confidence c.

(** Among values [x < y], none is equal to both. *)
Definition lt_separates_on (vs : list float) : bool :=
  forallb (fun x =>
    forallb (fun y =>
      forallb (fun v => negb ((x <? y) && (x =? v) && (y =? v))) vs) vs)
    vs.

(** The local copy of the thumbnail of [m], if it has one, is a file of
    the store, and a row without a thumbnail has no local copy. *)
Definition thumbnail_localised (st : ImageCache.Store) (m : Combined.t)
  : Prop :=
  (Combined.youtube_thumbnail m = ""%string ->
   Combined.youtube_thumbnail_local m = None)
  /\ (forall p, Combined.youtube_thumbnail_local m = Some p ->
                ImageCache.path_exists st p = true).

(** The image requests of a run, row by row: for each row none, or one
    for the thumbnail of the row, which is then not empty. *)
Definition one_request_per_row (out : list Combined.t)
           (sent : list (list string)) : Prop :=
  Forall2 (fun m l =>
             l = []
             \/ (l = [Combined.youtube_thumbnail m]
                 /\ Combined.youtube_thumbnail m <> ""%string))
          out sent.

(** [l] is [l'] with some elements left out. *)
Inductive sublist {A : Type} : list A -> list A -> Prop :=
| sublist_nil : sublist [] []
| sublist_skip (x : A) (l l' : list A) :
    sublist l l' -> sublist l (x :: l')
| sublist_keep (x : A) (l l' : list A) :
    sublist l l' -> sublist (x :: l) (x :: l').

(** A search API that answers every query with four songs, two of them of
    equal confidence for Daft Punk's One More Time. *)
Definition ytmusic_versions : YTMusic :=
  {| search := fun _ _ _ =>
       Some [{| title := Some "Bohemian Rhapsody"; artists := ["Queen"];
                album := None; duration := None; videoId := Some "v0";
                thumbnails := [] |};
             {| title := Some "One More Time (Radio Edit)";
                artists := ["Daft Punk"];
                album := None; duration := None; videoId := Some "v1";
                thumbnails := [Some Samples.thumbnail_url] |};
             {| title := Some "One More Time"; artists := ["Daft Punk"];
                album := None; duration := None; videoId := Some "v2";
                thumbnails := [] |};
             {| title := Some "One More Time (Live)";
                artists := ["Daft Punk"];
                album := None; duration := None; videoId := Some "v3";
                thumbnails := [] |}] |}.

End Ranking.

Module SyncTrace.
Import YouTubePlaylist Syncing.


Definition second_track : TrackRow :=
  {| track_name := "Digital Love"; artist_name := "Daft Punk";
     youtube_video_id := Some "QOngRDVtEQI";
     match_confidence := 0.9%float |}.

Definition third_track : TrackRow :=
  {| track_name := "Harder, Better, Faster, Stronger";
     artist_name := "Daft Punk";
     youtube_video_id := Some "gAjR4_CbPpQ";
     match_confidence := 0.9%float |}.

(** An API that creates the playlist, inserts one item and then breaks
    with an error that is not an HTTP error. *)
Definition breaking_down : Env :=
  {| playlists_insert := fun _ _ _ _ => ApiOk {| id := "PL123" |};
     playlist_items_insert :=
       fun n _ _ => match n with
                    | 1 => ApiOk tt
                    | _ => ApiOtherError
                    end;
     elapsed := fun _ => 1;
     authorization_url := "https://accounts.google.com/o/oauth2/auth";
     fetch_token := fun _ => Some session;
     token_file_writable := true;
     build_ok := true |}.



(** A provider that refuses every refresh. *)
Definition no_refresh : Provider := {| refresh := fun _ _ => None |}.



End SyncTrace.

Module Paging.
Import SpotifyService.

(** The rows of the tracks of a page, the null ones left out. *)
Definition rows_of_page (page : Page) : list YouTubeMusic.Spotify.Row :=
  append_items (items page) [].

(** The API serves the playlist as the pages [pages], the first at
    [offset] and each next one 100 further, and only the last has no
    link to a next page. *)
Fixpoint serves (sp : Spotipy) (playlist_id : string) (offset : nat)
         (pages : list Page) : Prop :=
  match pages with
  | [] => False
  | page :: rest =>
      (forall n, playlist_tracks sp n playlist_id offset 100 = Some page)
      /\ match rest with
         | [] => next page = None
         | _ :: _ => next page <> None
                     /\ serves sp playlist_id (offset + 100) rest
         end
  end.

(** The offsets of [k] pages from [offset]. *)
Fixpoint offsets (playlist_id : string) (offset k : nat)
  : list (string * nat) :=
  match k with
  | O => []
  | S k' => (playlist_id, offset) :: offsets playlist_id (offset + 100) k'
  end.

(** The number of tracks of a list of items that are not null. *)
Definition count_tracks (items : list (option Track)) : nat :=
  List.length (List.filter (fun t => match t with
                                     | Some _ => true
                                     | None => false
                                     end) items).

Definition sample_url : string :=
  "https://open.spotify.com/playlist/21VEt90ZQIRa95rmeFi5Um?pi=PmIzTgsdTOCAX".

Definition one_more_time_track : Track :=
  {| name := "One More Time"; artists := ["Daft Punk"];
     album := "Discovery";
     external_url :=
       "https://open.spotify.com/track/0DiWol3AO6WpXZgp0goxAV" |}.

Definition duet_track : Track :=
  {| name := "Get Lucky"; artists := ["Daft Punk"; "Pharrell Williams"];
     album := "Random Access Memories";
     external_url :=
       "https://open.spotify.com/track/69kOkLUCkxIZYexIgSG8rq" |}.

Definition first_page : Page :=
  {| items := [Some one_more_time_track; None];
     next := Some "https://api.spotify.com/v1/playlists/x/tracks?offset=100"
  |}.

Definition last_page : Page :=
  {| items := [Some duet_track]; next := None |}.

(** An API that serves a playlist of two pages. *)
Definition two_pages : Spotipy :=
  {| playlist_tracks :=
       fun _ _ offset _ => match offset with
                           | 0 => Some first_page
                           | _ => Some last_page
                           end |}.

(** Every character of [s] is a letter or a digit. *)
Fixpoint all_alnum (s : string) : bool :=
  match s with
  | EmptyString => true
  | String c s' => isalnum c && all_alnum s'
  end.

(** [s] starts with a letter or a digit. *)
Definition starts_alnum (s : string) : bool :=
  match s with
  | EmptyString => false
  | String c _ => isalnum c
  end.

(** The API serves the pages [pages] from [offset], 100 apart, and each
    of them links to a next page. *)
Fixpoint serves_linked (sp : Spotipy) (playlist_id : string) (offset : nat)
         (pages : list Page) : Prop :=
  match pages with
  | [] => True
  | page :: rest =>
      (forall n, playlist_tracks sp n playlist_id offset 100 = Some page)
      /\ next page <> None
      /\ serves_linked sp playlist_id (offset + 100) rest
  end.

(** An API that answers every request with an empty page that links to
    a next one. *)
Definition endless : Spotipy :=
  {| playlist_tracks :=
       fun _ _ _ _ =>
         Some {| items := [];
                 next := Some "https://api.spotify.com/v1/playlists/x/tracks"
              |} |}.

(** An API whose second page cannot be fetched. *)
Definition second_page_fails : Spotipy :=
  {| playlist_tracks :=
       fun _ _ offset _ => match offset with
                           | 0 => Some first_page
                           | _ => None
                           end |}.

End Paging.

(* ================================================================= *)
(** * Properties *)

(** ** Confidence scoring *)

Module ScoringFacts.
Import YouTubeMusic.

Lemma existsb_map {A B} (f : B -> bool) (g : A -> B) (l : list A) :
  existsb f (List.map g l) = existsb (fun x => f (g x)) l.
Proof.
  induction l as [|x l IH]; simpl; [reflexivity|].
  now rewrite IH.
Qed.

Lemma existsb_ext' {A} (f g : A -> bool) (l : list A) :
  (forall x, f x = g x) -> existsb f l = existsb g l.
Proof.
  intros E; induction l as [|x l IH]; simpl; [reflexivity|].
  now rewrite E, IH.
Qed.

(** The first loop breaks at the first artist that matches: it adds 0.4
    exactly when some artist matches. *)
Lemma artist_loop_any (oa : string) (l : list string) (score : float) :
  artist_loop oa l score =
    if existsb (fun a => str_in oa a || str_in a oa) l
    then ((score + 0.4)%float, true)
    else (score, false).
Proof.
  induction l as [|a l IH]; simpl; [reflexivity|].
  destruct (str_in oa a || str_in a oa); simpl; [reflexivity|apply IH].
Qed.

Lemma partial_artist_loop_any (oa : string) (l : list string)
      (score : float) :
  partial_artist_loop oa l score =
    if existsb (fun a => existsb (fun w => str_in w a)
                                 (Spec.tokens oa)) l
    then (score + 0.2)%float
    else score.
Proof.
  induction l as [|a l IH]; simpl; [reflexivity|].
  unfold any, Spec.tokens in *.
  destruct (existsb (fun w => str_in w a) _); simpl; [reflexivity|apply IH].
Qed.

Example daft_punk_radio_edit :
  _calculate_match_confidence "Daft Punk" "One More Time"
    {| title := Some "one more time (radio edit)";
       artists := ["daft punk duo"];
       album := None; duration := None; videoId := None;
       thumbnails := [] |} = 0.9%float.
Proof. reflexivity. Qed.

Example no_overlap :
  _calculate_match_confidence "Daft Punk" "One More Time"
    {| title := Some "Bohemian Rhapsody";
       artists := ["Queen"];
       album := None; duration := None; videoId := None;
       thumbnails := [] |} = 0%float.
Proof. reflexivity. Qed.

(** The scorer and the worded algorithm agree on every input. *)
Lemma calculate_match_confidence_eq
      (original_artist original_track : string) (r : yt_result) :
  _calculate_match_confidence original_artist original_track r
  = Spec.confidence original_artist original_track
                    (dict_get (title r) "") (artists r).
Proof.
  revert original_artist original_track r.
  intros oa ot r.
  unfold _calculate_match_confidence, Spec.confidence,
    Spec.title_component, Spec.artist_component, Spec.artist_matched,
    Spec.exact_match_bonus, any, str_in.
  rewrite artist_loop_any.
  rewrite !existsb_map.
  fold (Spec.tokens (lower ot)).
  unfold str_in.
  rewrite (String.eqb_sym (lower (dict_get (title r) "")) (lower ot)).
  rewrite (existsb_ext' (fun a => String.eqb (lower a) (lower oa))
                        (fun a => String.eqb (lower oa) (lower a)))
    by (intros; apply String.eqb_sym).
  destruct (contains (lower (dict_get (title r) "")) (lower ot));
    [|destruct (existsb _ (Spec.tokens (lower ot)))];
    (destruct (existsb
                 (fun x => contains (lower x) (lower oa)
                           || contains (lower oa) (lower x)) (artists r));
     cbn [negb];
     [|rewrite partial_artist_loop_any, existsb_map; unfold str_in;
       destruct (existsb
                   (fun x => existsb (fun w => contains (lower x) w)
                                     (Spec.tokens (lower oa)))
                   (artists r))]);
    destruct (String.eqb (lower ot) (lower (dict_get (title r) ""))
              && existsb (fun a => String.eqb (lower oa) (lower a))
                         (artists r));
    reflexivity.
Qed.

(** C1. The confidence computed by [_calculate_match_confidence] is the
    four-step score of the design document: title component (0.5, else
    0.3 for a token, else 0) plus artist component (0.4 for containment
    either way, else 0.2 for a token, else 0) plus the 0.1 bonus when the
    lowercase titles are equal and some artist equals the lowercase source
    artist, clamped at 1.0; and the Daft Punk example scores 1.0. *)
Theorem calculate_match_confidence_spec :
  (forall (original_artist original_track : string) (r : yt_result),
      _calculate_match_confidence original_artist original_track r
      = Spec.confidence original_artist original_track
                        (dict_get (title r) "") (artists r))
  /\ _calculate_match_confidence "Daft Punk" "One More Time"
                                  Samples.daft_punk
     = 1.0%float.
Proof.
  split; [exact calculate_match_confidence_eq|reflexivity].
Qed.

End ScoringFacts.

(** ** The image cache *)

Module ImageCacheFacts.
Import ImageCache.

Lemma detect_image_format_known (url : string) (ct : option string) :
  In (_detect_image_format url ct) extensions.
Proof.
  unfold _detect_image_format, extensions.
  assert (F : In (if str_in ".png" (lower url) then "png"
                  else if str_in ".webp" (lower url) then "webp"
                  else "jpg") ["jpg"; "png"; "webp"]).
  { destruct (str_in ".png" (lower url)); [simpl; auto|].
    destruct (str_in ".webp" (lower url)); simpl; auto. }
  destruct ct as [ct|]; [|exact F].
  destruct (truthy (Some ct)); [|exact F].
  destruct (str_in "jpeg" ct || str_in "jpg" ct); [simpl; auto|].
  destruct (str_in "png" ct); [simpl; auto|].
  destruct (str_in "webp" ct); [simpl; auto|exact F].
Qed.

(** When no file of the probed extensions exists and the file of one of
    them is then written, the next probe finds a file with that very
    path. *)
Lemma probe_after_write (st : Store) (path_of : string -> string)
      (exts : list string) (e q : string) :
  find (fun ext => path_exists st (path_of ext)) exts = None ->
  In e exts ->
  exists e',
    find (fun ext =>
            path_exists {| files := path_of e :: files st;
                           requests := requests st ++ [q] |} (path_of ext))
         exts = Some e'
    /\ path_of e' = path_of e.
Proof.
  induction exts as [|x exts IH]; intros Hnone Hin; [contradiction|].
  simpl in Hnone.
  destruct (path_exists st (path_of x)) eqn:Ex; [discriminate|].
  cbn [find]. unfold path_exists at 1. cbn [files existsb].
  destruct (String.eqb (path_of x) (path_of e)) eqn:Exe.
  - exists x. split; [reflexivity|]. now apply String.eqb_eq.
  - cbn [orb]. fold (path_exists st (path_of x)). rewrite Ex.
    destruct Hin as [->|Hin]; [now rewrite String.eqb_refl in Exe|].
    apply IH; assumption.
Qed.

(** A call never raises and sends at most one request. *)
Lemma get_cached_image_total (self : ImageCache) (env : Env)
      (url : option string) (st : Store) :
  exists r st',
    get_cached_image self env url st = (Returns r, st')
    /\ List.length (requests st') <= List.length (requests st) + 1.
Proof.
  unfold get_cached_image.
  destruct url as [u|]; [|exists None, st; split; [reflexivity|lia]].
  destruct (negb (truthy (Some u)));
    [exists None, st; split; [reflexivity|lia]|].
  unfold try_except, bind, Py.get, ret, is_Exception.
  destruct (find _ extensions) as [ext|].
  - eexists _, st. split; [reflexivity|lia].
  - unfold http_get, raise_for_status, write_body, bind, modify, ret, raise.
    destruct (session_get env _ u) as [|r];
      [eexists _, _; split; [reflexivity|cbn; rewrite length_app; cbn; lia]|].
    destruct (status_ok r);
      [|eexists _, _; split; [reflexivity|cbn; rewrite length_app; cbn; lia]].
    destruct (open_wb env _);
      [|eexists _, _; split; [reflexivity|cbn; rewrite length_app; cbn; lia]].
    destruct (body_complete r);
      eexists _, _; (split; [reflexivity|cbn; rewrite length_app; cbn; lia]).
Qed.

(** C3 (as amended). When a call of [get_cached_image] returns a local path,
    a second call with the same URL on the store it leaves returns the
    identical path and sends no request (the store is unchanged), so the
    two calls together send at most one request. *)
Theorem get_cached_image_hit_is_stable (self : ImageCache) (env : Env)
        (url : option string) (st st1 : Store) (path : string) :
  get_cached_image self env url st = (Returns (Some path), st1) ->
  get_cached_image self env url st1 = (Returns (Some path), st1)
  /\ List.length (requests st1) <= List.length (requests st) + 1.
Proof.
  intros H.
  split.
  2:{ destruct (get_cached_image_total self env url st) as (r & st' & E & L).
      rewrite H in E. now inversion E; subst. }
  revert H. unfold get_cached_image.
  destruct url as [u|]; [|discriminate].
  destruct (negb (truthy (Some u))); [discriminate|].
  unfold try_except, bind, Py.get, ret, is_Exception.
  destruct (find (fun ext => path_exists st _) extensions) as [ext|] eqn:F.
  - intros E; inversion E; subst. rewrite F. reflexivity.
  - unfold http_get, raise_for_status, write_body, bind, modify, ret, raise.
    destruct (session_get env _ u) as [|r]; [discriminate|].
    destruct (status_ok r); [|discriminate].
    destruct (open_wb env _); [|discriminate].
    destruct (body_complete r); [|discriminate].
    match goal with
    | |- context [_detect_image_format u ?c] =>
        remember (_detect_image_format u c) as e eqn:He
    end.
    assert (Hin : In e extensions)
      by (rewrite He; apply detect_image_format_known).
    clear He. cbn [files requests].
    intros [= <- <-].
    set (path_of := fun ext =>
                      path_join (cache_dir self)
                                (_get_cache_filename env u ext)) in *.
    destruct (probe_after_write st path_of extensions e u F Hin)
      as (e' & F' & P).
    cbn [files requests].
    change (path_join (cache_dir self) (_get_cache_filename env u e))
      with (path_of e).
    subst path_of; cbn beta in *.
    rewrite F'. now rewrite P.
Qed.

Lemma get_cached_image_hit_is_stable_witness :
  get_cached_image Samples.default_cache Samples.online
    (Some Samples.thumbnail_url)
    {| files := ["data/thumbnails/aaf1fccd11a990f27c35d627168748cb.jpg"];
       requests := [Samples.thumbnail_url] |}
  = (Returns (Some "data/thumbnails/aaf1fccd11a990f27c35d627168748cb.jpg"),
     {| files := ["data/thumbnails/aaf1fccd11a990f27c35d627168748cb.jpg"];
        requests := [Samples.thumbnail_url] |})
  /\ 1 <= 0 + 1.
Proof.
  apply (get_cached_image_hit_is_stable Samples.default_cache Samples.online
           (Some Samples.thumbnail_url) Samples.empty_store).
  reflexivity.
Defined.

(** C3 (as stated) fails. With a host whose first answer is lost, two
    calls with the same URL and nothing evicted in between send two
    requests and return different results: nothing, then the local path. *)
Lemma get_cached_image_twice_two_requests :
  twice (get_cached_image Samples.default_cache Samples.flaky
                          (Some Samples.thumbnail_url)) Samples.empty_store
  = (Returns (None,
              Some "data/thumbnails/aaf1fccd11a990f27c35d627168748cb.jpg"),
     {| files := ["data/thumbnails/aaf1fccd11a990f27c35d627168748cb.jpg"];
        requests := [Samples.thumbnail_url; Samples.thumbnail_url] |}).
Proof. vm_compute. reflexivity. Qed.

(** With a host that is never reached both calls return nothing, and
    still two requests are sent. *)
Example get_cached_image_twice_offline :
  twice (get_cached_image Samples.default_cache Samples.offline
                          (Some Samples.thumbnail_url)) Samples.empty_store
  = (Returns (None, None),
     {| files := [];
        requests := [Samples.thumbnail_url; Samples.thumbnail_url] |}).
Proof. vm_compute. reflexivity. Qed.

Lemma get_cached_image_empty_url_aux (self : ImageCache) (env : Env)
      (url : option string) (st : Store) :
  truthy url = false ->
  get_cached_image self env url st = (Returns None, st).
Proof.
  intros E. unfold get_cached_image.
  destruct url as [u|]; [|reflexivity].
  now rewrite E.
Qed.

(** C10. For an empty URL ([None] or the empty string) a single call of
    [get_cached_image] returns [None] at once: no request is sent and no
    file is written, the store is left as it was. *)
Theorem get_cached_image_empty_url (self : ImageCache) (env : Env)
        (url : option string) (st : Store) :
  truthy url = false ->
  get_cached_image self env url st = (Returns None, st).
Proof.
  intros E. unfold get_cached_image.
  destruct url as [u|]; [|reflexivity].
  now rewrite E.
Qed.

Lemma get_cached_image_empty_url_witness :
  get_cached_image Samples.default_cache Samples.online (Some "")
                   Samples.empty_store
  = (Returns None, Samples.empty_store).
Proof.
  apply (get_cached_image_empty_url Samples.default_cache Samples.online
           (Some "")).
  reflexivity.
Defined.

(** *** The module-level instance *)

Lemma get_image_cache_cases (env : Env) (g : Globals) :
  match _image_cache g with
  | Some cache => get_image_cache env g = (Returns cache, g)
  | None =>
      if mkdir env default_cache_dir
      then get_image_cache env g
           = (Returns {| cache_dir := default_cache_dir |},
              {| _image_cache := Some {| cache_dir := default_cache_dir |};
                 store := store g |})
      else get_image_cache env g = (Raises OtherException, g)
  end.
Proof.
  unfold get_image_cache, bind, Py.get, init, modify, ret, raise.
  destruct (_image_cache g); [reflexivity|].
  destruct (mkdir env default_cache_dir); reflexivity.
Qed.

(** [cache_image] either has the instance, or makes it, and then runs
    [get_cached_image] on the store; or it raises because the directory
    of the instance cannot be made, and nothing has changed. *)
Lemma cache_image_cases (env : Env) (url : option string) (g : Globals) :
  (exists cache r st',
      (_image_cache g = Some cache
       \/ (_image_cache g = None
           /\ mkdir env default_cache_dir = true
           /\ cache = {| cache_dir := default_cache_dir |}))
      /\ get_cached_image cache env url (store g) = (Returns r, st')
      /\ cache_image env url g
         = (Returns r, {| _image_cache := Some cache; store := st' |}))
  \/ (_image_cache g = None
      /\ mkdir env default_cache_dir = false
      /\ cache_image env url g = (Raises OtherException, g)).
Proof.
  unfold cache_image, bind.
  pose proof (get_image_cache_cases env g) as H.
  destruct (_image_cache g) as [cache|] eqn:G.
  - rewrite H. left.
    destruct (get_cached_image_total cache env url (store g))
      as (r & st' & E & _).
    exists cache, r, st'. split; [now left|]. split; [exact E|].
    unfold on_store. now rewrite E, G.
  - destruct (mkdir env default_cache_dir) eqn:K; rewrite H.
    + left.
      destruct (get_cached_image_total {| cache_dir := default_cache_dir |}
                  env url (store g)) as (r & st' & E & _).
      exists {| cache_dir := default_cache_dir |}, r, st'.
      split; [right; repeat split|]. split; [exact E|].
      unfold on_store. cbn [store _image_cache]. now rewrite E.
    + right. repeat split.
Qed.

End ImageCacheFacts.

(** ** Matching a playlist *)

Module MatcherFacts.
Import YouTubeMusic Matching.

Local Open Scope float_scope.

Lemma score_values_ordered :
  leq_total_on score_values = true
  /\ lt_leq_on score_values = true
  /\ leq_trans_on score_values = true
  /\ unit_interval_on score_values = true.
Proof. repeat split; vm_compute; reflexivity. Qed.

Lemma clamped_sum_in_values (t a b : float) :
  In t [0.5; 0.3; 0] -> In a [0.4; 0.2; 0] -> In b [0.1; 0] ->
  In (Spec.clamp (t + a + b)) score_values.
Proof.
  intros Ht Ha Hb. unfold score_values.
  apply in_flat_map. exists t. split; [exact Ht|].
  apply in_flat_map. exists a. split; [exact Ha|].
  apply in_map_iff. exists b. split; [reflexivity|exact Hb].
Qed.

Lemma confidence_in_values (artist track : string) (r : yt_result) :
  In (_calculate_match_confidence artist track r) score_values.
Proof.
  rewrite ScoringFacts.calculate_match_confidence_eq.
  unfold Spec.confidence.
  apply clamped_sum_in_values.
  - unfold Spec.title_component.
    destruct (contains _ _); [simpl; auto|].
    destruct (existsb _ _); simpl; auto.
  - unfold Spec.artist_component.
    destruct (Spec.artist_matched _ _); [simpl; auto|].
    destruct (existsb _ _); simpl; auto.
  - unfold Spec.exact_match_bonus.
    destruct (_ && _); simpl; auto.
Qed.

Section OrderOnValues.

Variables x y z : float.
Hypothesis Hx : In x score_values.
Hypothesis Hy : In y score_values.
Hypothesis Hz : In z score_values.

Lemma value_not_lt_leq : (x <? y) = false -> (y <=? x) = true.
Proof.
  destruct score_values_ordered as (T & _).
  unfold leq_total_on in T.
  rewrite forallb_forall in T. specialize (T x Hx).
  rewrite forallb_forall in T. specialize (T y Hy).
  intros E. now rewrite E in T.
Qed.

Lemma value_lt_leq : (x <? y) = true -> (x <=? y) = true.
Proof.
  destruct score_values_ordered as (_ & T & _).
  unfold lt_leq_on in T.
  rewrite forallb_forall in T. specialize (T x Hx).
  rewrite forallb_forall in T. specialize (T y Hy).
  intros E. now rewrite E in T.
Qed.

Lemma value_leq_trans :
  (x <=? y) = true -> (y <=? z) = true -> (x <=? z) = true.
Proof.
  destruct score_values_ordered as (_ & _ & T & _).
  unfold leq_trans_on in T.
  rewrite forallb_forall in T. specialize (T x Hx).
  rewrite forallb_forall in T. specialize (T y Hy).
  rewrite forallb_forall in T. specialize (T z Hz).
  intros E1 E2. now rewrite E1, E2 in T.
Qed.

Lemma value_in_unit_interval : (0 <=? x) = true /\ (x <=? 1) = true.
Proof.
  destruct score_values_ordered as (_ & _ & _ & T).
  unfold unit_interval_on in T.
  rewrite forallb_forall in T. specialize (T x Hx).
  now apply andb_true_iff in T.
Qed.

End OrderOnValues.

(** *** The sort of [search_track] *)

Lemma in_insert_desc (x c : Processed.t) (l : list Processed.t) :
  In c (insert_desc x l) <-> c = x \/ In c l.
Proof.
  induction l as [|y l IH]; simpl.
  - intuition congruence.
  - destruct (Processed.match_confidence x <? Processed.match_confidence y);
      simpl; rewrite ?IH; intuition congruence.
Qed.

Lemma in_sort_by_confidence_desc (c : Processed.t) (l : list Processed.t) :
  In c (sort_by_confidence_desc l) <-> In c l.
Proof.
  induction l as [|x l IH]; simpl; [tauto|].
  rewrite in_insert_desc, IH. intuition congruence.
Qed.

Lemma insert_desc_head_is_best (x : Processed.t) (l : list Processed.t) :
  scored (x :: l) -> head_is_best l -> head_is_best (insert_desc x l).
Proof.
  intros S H. destruct l as [|y l]; simpl; [intros c []|].
  assert (Sx : In (Processed.match_confidence x) score_values)
    by (apply S; simpl; auto).
  assert (Sy : In (Processed.match_confidence y) score_values)
    by (apply S; simpl; auto).
  destruct (Processed.match_confidence x <? Processed.match_confidence y)
    eqn:E; simpl; intros c Hc.
  - apply in_insert_desc in Hc. destruct Hc as [->|Hc].
    + now apply value_lt_leq.
    + now apply H.
  - destruct Hc as [<-|Hc].
    + now apply value_not_lt_leq.
    + apply value_leq_trans with (y := Processed.match_confidence y);
        try assumption.
      * apply S; simpl; auto.
      * now apply H.
      * now apply value_not_lt_leq.
Qed.

Lemma sort_head_is_best (l : list Processed.t) :
  scored l -> head_is_best (sort_by_confidence_desc l).
Proof.
  induction l as [|x l IH]; intros S; simpl; [exact I|].
  apply insert_desc_head_is_best.
  - intros c [<-|Hc]; [apply S; simpl; auto|].
    apply S. right. now apply in_sort_by_confidence_desc.
  - apply IH. intros c Hc. apply S. now right.
Qed.

Lemma processed_scored (artist track : string) (results : list yt_result) :
  scored (List.map (process_result artist track) results).
Proof.
  intros c Hc. apply in_map_iff in Hc. destruct Hc as (r & <- & _).
  apply confidence_in_values.
Qed.

(** *** [search_track] *)

(** [search_track] never raises; it sends one query, leaves the image
    cache alone, and returns the candidates of the answer, sorted, or
    nothing when the search raised. *)
Lemma search_track_returns (ytmusic : YTMusic) (artist track : string)
      (limit : nat) (w : World) :
  search_track ytmusic artist track limit w
  = (Returns match search ytmusic (List.length (queries w))
                          (artist ++ " " ++ track)%string limit with
             | Some results =>
                 sort_by_confidence_desc
                   (List.map (process_result artist track) results)
             | None => []
             end,
     {| queries := queries w ++ [(artist ++ " " ++ track)%string];
        image_cache := image_cache w |}).
Proof.
  unfold search_track, try_except, bind, ytmusic_search, ret, is_Exception.
  now destruct (search ytmusic _ _ limit).
Qed.

Lemma value_leq_refl (x : float) :
  In x score_values -> (x <=? x) = true.
Proof.
  intros H. destruct (x <? x) eqn:E.
  - now apply value_lt_leq.
  - now apply value_not_lt_leq.
Qed.

(** The head of the sorted candidates is a best candidate of the
    answer. *)
Lemma sorted_head_is_best (row : Spotify.Row) (results : list yt_result)
      (best : Processed.t) (rest : list Processed.t) :
  sort_by_confidence_desc (candidates row results) = best :: rest ->
  In best (candidates row results)
  /\ (0 <=? Processed.match_confidence best) = true
  /\ (Processed.match_confidence best <=? 1) = true
  /\ (forall c, In c (candidates row results) ->
                (Processed.match_confidence c
                 <=? Processed.match_confidence best) = true).
Proof.
  intros E.
  pose proof (processed_scored (Spotify.artist_name row)
                (Spotify.track_name row) results) as S.
  fold (candidates row results) in S.
  pose proof (sort_head_is_best _ S) as H. rewrite E in H. cbn in H.
  assert (I : In best (candidates row results)).
  { apply (proj1 (in_sort_by_confidence_desc best _)).
    rewrite E. now left. }
  split; [exact I|].
  destruct (value_in_unit_interval (Processed.match_confidence best)
              (S _ I)) as (L & U).
  split; [exact L|]. split; [exact U|].
  intros c Hc. apply (proj2 (in_sort_by_confidence_desc c _)) in Hc.
  rewrite E in Hc. destruct Hc as [<-|Hc].
  - apply value_leq_refl. now apply S.
  - now apply H.
Qed.

Lemma sort_nil (l : list Processed.t) :
  sort_by_confidence_desc l = [] -> l = [].
Proof.
  destruct l as [|x l]; [reflexivity|]. intros E.
  assert (I : In x (sort_by_confidence_desc (x :: l)))
    by (apply in_sort_by_confidence_desc; now left).
  rewrite E in I. destruct I.
Qed.

(** *** [cache_image] *)

Lemma cache_image_queries (env : ImageCache.Env) (url : string)
      (w w' : World) (r : pyresult (option string)) :
  cache_image env url w = (r, w') -> queries w' = queries w.
Proof.
  unfold cache_image.
  destruct (ImageCache.cache_image env (Some url) (image_cache w)).
  now intros [= _ <-].
Qed.

(** With the cache to be had, [cache_image] returns and the instance
    exists from then on. *)
Lemma cache_image_total (env : ImageCache.Env) (url : string) (w : World) :
  cache_obtainable env w ->
  exists r w',
    cache_image env url w = (Returns r, w')
    /\ ImageCache._image_cache (image_cache w') <> None.
Proof.
  intros O. unfold cache_image.
  destruct (ImageCacheFacts.cache_image_cases env (Some url)
              (image_cache w))
    as [(cache & r & st' & _ & _ & C)|(N & K & _)].
  - rewrite C. eexists _, _. split; [reflexivity|]. cbn. discriminate.
  - destruct O as [O|O]; [contradiction|congruence].
Qed.

(** *** One row of the loop *)

(** A row that is made is the row of its own search. *)
Lemma search_playlist_row_returns (ytmusic : YTMusic)
      (env : ImageCache.Env) (top_results : nat) (row : Spotify.Row)
      (w w' : World) (m : Combined.t) :
  search_playlist_row ytmusic env top_results row w = (Returns m, w') ->
  queries w' = queries w ++ [query_of row]
  /\ spotify_part m = row
  /\ merges_best ytmusic top_results (List.length (queries w)) row m.
Proof.
  unfold search_playlist_row, bind. rewrite search_track_returns.
  fold (query_of row). unfold merges_best.
  destruct (search ytmusic _ (query_of row) top_results) as [results|].
  2:{ unfold ret. intros [= <- <-]. cbn [queries].
      split; [reflexivity|]. split; [now destruct row|]. repeat split. }
  fold (candidates row results).
  destruct (sort_by_confidence_desc (candidates row results))
    as [|best rest] eqn:E.
  - apply sort_nil in E. destruct results as [|r rs]; [|discriminate E].
    unfold ret. intros [= <- <-]. cbn [queries].
    split; [reflexivity|]. split; [now destruct row|]. repeat split.
  - destruct results as [|r rs]; [discriminate E|].
    destruct (sorted_head_is_best row (r :: rs) best rest E)
      as (I & L & U & B).
    assert (M : forall path,
               spotify_part (combine row best path) = row
               /\ exists best0 path0,
                   In best0 (candidates row (r :: rs))
                   /\ combine row best path = combine row best0 path0
                   /\ (0 <=? Processed.match_confidence best0) = true
                   /\ (Processed.match_confidence best0 <=? 1) = true
                   /\ (forall c,
                          In c (candidates row (r :: rs)) ->
                          (Processed.match_confidence c
                           <=? Processed.match_confidence best0) = true)).
    { intros path. split; [now destruct row|].
      exists best, path. repeat split; assumption. }
    destruct (truthy (Some (Processed.youtube_thumbnail best))).
    + destruct (cache_image env (Processed.youtube_thumbnail best) _)
        as [[path|e] w2] eqn:C; [|discriminate].
      apply cache_image_queries in C. cbn [queries] in C.
      unfold ret. intros [= <- <-]. split; [exact C|apply M].
    + unfold ret. intros [= <- <-]. split; [reflexivity|apply M].
Qed.

(** With the cache to be had, the row is made. *)
Lemma search_playlist_row_total (ytmusic : YTMusic) (env : ImageCache.Env)
      (top_results : nat) (row : Spotify.Row) (w : World) :
  cache_obtainable env w ->
  exists m w',
    search_playlist_row ytmusic env top_results row w = (Returns m, w')
    /\ cache_obtainable env w'.
Proof.
  intros O. unfold search_playlist_row, bind. rewrite search_track_returns.
  destruct (match search ytmusic _ _ top_results with
            | Some results => _
            | None => []
            end) as [|best rest].
  - eexists _, _. split; [reflexivity|exact O].
  - destruct (truthy (Some (Processed.youtube_thumbnail best))).
    + destruct (cache_image_total env (Processed.youtube_thumbnail best)
                  {| queries := queries w ++ [query_of row];
                     image_cache := image_cache w |} O)
        as (r & w2 & C & I).
      unfold query_of in C. rewrite C.
      eexists _, _. split; [reflexivity|now left].
    + eexists _, _. split; [reflexivity|exact O].
Qed.

(** A search that raises or finds nothing gives the empty match, and the
    image cache is not asked for. *)
Lemma search_playlist_row_nothing (ytmusic : YTMusic)
      (env : ImageCache.Env) (top_results : nat) (row : Spotify.Row)
      (w : World) :
  finds_nothing ytmusic top_results ->
  search_playlist_row ytmusic env top_results row w
  = (Returns (empty_match row), after_queries w [row]).
Proof.
  intros N. unfold search_playlist_row, bind. rewrite search_track_returns.
  fold (query_of row).
  destruct (N (List.length (queries w)) (query_of row)) as [-> | ->];
    reflexivity.
Qed.

(** *** The whole loop *)

Lemma search_playlist_loop_returns (ytmusic : YTMusic)
      (env : ImageCache.Env) (top_results : nat) (rows : list Spotify.Row) :
  forall (all_results res : list Combined.t) (w w' : World),
    search_playlist_loop ytmusic env top_results rows all_results w
    = (Returns res, w') ->
    exists out,
      res = all_results ++ out
      /\ queries w' = queries w ++ List.map query_of rows
      /\ rows_made ytmusic top_results (List.length (queries w)) rows out.
Proof.
  induction rows as [|row rows IH]; intros acc res w w';
    cbn [search_playlist_loop].
  - unfold ret. intros [= <- <-]. exists [].
    rewrite !app_nil_r. repeat split.
  - unfold bind.
    destruct (search_playlist_row ytmusic env top_results row w)
      as [[m|e] w1] eqn:E; [|discriminate].
    destruct (search_playlist_row_returns _ _ _ _ _ _ _ E) as (Q & P & B).
    intros L. destruct (IH _ _ _ _ L) as (out & -> & Q' & F).
    exists (m :: out). split; [now rewrite <- app_assoc|].
    split; [rewrite Q', Q, <- app_assoc; reflexivity|].
    cbn [rows_made]. split; [exact P|]. split; [exact B|].
    rewrite Q, length_app, Nat.add_1_r in F. exact F.
Qed.

Lemma search_playlist_loop_total (ytmusic : YTMusic) (env : ImageCache.Env)
      (top_results : nat) (rows : list Spotify.Row) :
  forall (all_results : list Combined.t) (w : World),
    cache_obtainable env w ->
    exists res w',
      search_playlist_loop ytmusic env top_results rows all_results w
      = (Returns res, w').
Proof.
  induction rows as [|row rows IH]; intros acc w O;
    cbn [search_playlist_loop].
  - now exists acc, w.
  - unfold bind.
    destruct (search_playlist_row_total ytmusic env top_results row w O)
      as (m & w1 & E & O1).
    rewrite E. apply IH, O1.
Qed.

Lemma after_queries_cons (w : World) (row : Spotify.Row)
      (rows : list Spotify.Row) :
  after_queries (after_queries w [row]) rows = after_queries w (row :: rows).
Proof.
  unfold after_queries. cbn [queries image_cache List.map].
  now rewrite <- app_assoc.
Qed.

Lemma search_playlist_loop_nothing (ytmusic : YTMusic)
      (env : ImageCache.Env) (top_results : nat) (rows : list Spotify.Row) :
  finds_nothing ytmusic top_results ->
  forall (all_results : list Combined.t) (w : World),
    search_playlist_loop ytmusic env top_results rows all_results w
    = (Returns (all_results ++ List.map empty_match rows),
       after_queries w rows).
Proof.
  intros N. induction rows as [|row rows IH]; intros acc w;
    cbn [search_playlist_loop].
  - unfold ret, after_queries. cbn. rewrite !app_nil_r. now destruct w.
  - unfold bind. rewrite (search_playlist_row_nothing _ _ _ _ _ N).
    rewrite IH, after_queries_cons, <- app_assoc. reflexivity.
Qed.

Lemma rows_made_nth (ytmusic : YTMusic) (top_results : nat)
      (rows : list Spotify.Row) :
  forall (n : nat) (out : list Combined.t),
    rows_made ytmusic top_results n rows out ->
    List.length out = List.length rows
    /\ List.map spotify_part out = rows
    /\ (forall k row m,
           nth_error rows k = Some row ->
           nth_error out k = Some m ->
           merges_best ytmusic top_results (n + k) row m).
Proof.
  induction rows as [|row rows IH]; intros n [|m out] H;
    cbn [rows_made] in H; try contradiction.
  - repeat split. intros [|k] row m; discriminate.
  - destruct H as (P & B & F). destruct (IH _ _ F) as (L & M & R).
    cbn [List.length List.map]. rewrite L, M, P. repeat split.
    intros [|k] row' m'; cbn [nth_error].
    + intros [= <-] [= <-]. now rewrite Nat.add_0_r.
    + intros Hr Hm. rewrite Nat.add_succ_r. now apply (R k).
Qed.

(** C2 (as amended). Whenever [search_playlist_tracks] returns, it
    returns exactly one combined row per input row, in the order of the
    input, and every row has been searched once, in order, whatever the
    earlier searches did. It returns whenever the image cache exists or
    its directory can be made, and, whatever the image cache, when every
    search raises or finds nothing: the result is then the empty match
    of each input row. It raises only when the image cache does not
    exist and its directory cannot be made. *)
Theorem search_playlist_tracks_one_per_track
        (ytmusic : YTMusic) (env : ImageCache.Env)
        (spotify_df : list Spotify.Row) (top_results : nat) (w : World) :
  (forall out w',
      search_playlist_tracks ytmusic env spotify_df top_results w
      = (Returns out, w') ->
      List.length out = List.length spotify_df
      /\ List.map spotify_part out = spotify_df
      /\ queries w' = queries w ++ List.map query_of spotify_df)
  /\ (cache_obtainable env w ->
      exists out w',
        search_playlist_tracks ytmusic env spotify_df top_results w
        = (Returns out, w'))
  /\ (finds_nothing ytmusic top_results ->
      search_playlist_tracks ytmusic env spotify_df top_results w
      = (Returns (List.map empty_match spotify_df),
         after_queries w spotify_df))
  /\ (forall e w',
         search_playlist_tracks ytmusic env spotify_df top_results w
         = (Raises e, w') ->
         ImageCache._image_cache (image_cache w) = None
         /\ ImageCache.mkdir env ImageCache.default_cache_dir = false).
Proof.
  unfold search_playlist_tracks.
  assert (T : cache_obtainable env w ->
              exists out w',
                search_playlist_loop ytmusic env top_results spotify_df [] w
                = (Returns out, w'))
    by apply search_playlist_loop_total.
  split; [|split; [exact T|split]].
  - intros out w' E.
    destruct (search_playlist_loop_returns _ _ _ _ _ _ _ _ E)
      as (out' & -> & Q & F).
    destruct (rows_made_nth _ _ _ _ _ F) as (L & M & _).
    cbn [app]. repeat split; assumption.
  - intros N.
    now rewrite (search_playlist_loop_nothing _ env _ spotify_df N [] w).
  - intros e w' E.
    destruct (ImageCache._image_cache (image_cache w)) as [cache|] eqn:G.
    { destruct T as (out & w1 & R);
        [left; rewrite G; discriminate|congruence]. }
    split; [reflexivity|].
    destruct (ImageCache.mkdir env ImageCache.default_cache_dir) eqn:K;
      [|reflexivity].
    destruct T as (out & w1 & R); [now right|congruence].
Qed.

Lemma search_playlist_tracks_one_per_track_witness :
  search_playlist_tracks ytmusic_down Samples.no_cache_dir
                         [one_more_time; one_more_time] 3 fresh_world
  = (Returns [empty_match one_more_time; empty_match one_more_time],
     after_queries fresh_world [one_more_time; one_more_time]).
Proof.
  destruct (search_playlist_tracks_one_per_track
              ytmusic_down Samples.no_cache_dir
              [one_more_time; one_more_time] 3 fresh_world)
    as (_ & _ & N & _).
  apply N. intros n query. now left.
Defined.

(** C2 (as stated) fails. On a machine where the directory of the image
    cache cannot be made, the search for one track is answered with a
    song that has a thumbnail: the constructor of the cache raises, the
    exception leaves [search_playlist_tracks], and no row is returned. *)
Lemma search_playlist_tracks_raises_without_cache_dir :
  search_playlist_tracks ytmusic_hit Samples.no_cache_dir [one_more_time]
                         3 fresh_world
  = (Raises OtherException,
     {| queries := ["Daft Punk One More Time"];
        image_cache := Samples.fresh_module |}).
Proof. vm_compute. reflexivity. Qed.

(** C5 (as amended). Every row that [search_playlist_tracks] returns is
    the row of its own search, the [k]-th search of the run for the
    [k]-th row: when that search answers with at least one song, the row
    merges its source row with a candidate of the answer whose
    confidence lies between 0.0 and 1.0 (0.0 included) and is not below
    that of any candidate of the answer; when the search raises or
    answers with nothing, the row is the empty match, whose target
    columns are all empty and whose confidence is 0.0. *)
Theorem search_playlist_tracks_best_or_empty
        (ytmusic : YTMusic) (env : ImageCache.Env)
        (spotify_df : list Spotify.Row) (top_results : nat) (w w' : World)
        (out : list Combined.t) :
  search_playlist_tracks ytmusic env spotify_df top_results w
  = (Returns out, w') ->
  List.length out = List.length spotify_df
  /\ forall k row m,
      nth_error spotify_df k = Some row ->
      nth_error out k = Some m ->
      merges_best ytmusic top_results (List.length (queries w) + k) row m.
Proof.
  unfold search_playlist_tracks. intros E.
  destruct (search_playlist_loop_returns _ _ _ _ _ _ _ _ E)
    as (out' & -> & _ & F).
  destruct (rows_made_nth _ _ _ _ _ F) as (L & _ & R).
  cbn [app]. split; assumption.
Qed.

Lemma search_playlist_tracks_best_or_empty_witness :
  exists out w',
    search_playlist_tracks ytmusic_hit Samples.online [one_more_time] 3
                           fresh_world
    = (Returns out, w')
    /\ List.length out = 1%nat
    /\ forall m,
        nth_error out 0 = Some m ->
        merges_best ytmusic_hit 3 0 one_more_time m.
Proof.
  eexists _, _. split; [vm_compute; reflexivity|].
  match goal with
  | |- List.length ?out = _ /\ _ =>
      destruct (search_playlist_tracks_best_or_empty
                  ytmusic_hit Samples.online [one_more_time] 3 fresh_world
                  _ out ltac:(vm_compute; reflexivity)) as (L & R)
  end.
  split; [exact L|].
  intros m Hm. exact (R 0%nat one_more_time m eq_refl Hm).
Defined.

(** C5 (as stated) fails. The search for "One More Time" by Daft Punk is
    answered with one unrelated song: the row produced carries that song's
    title, artist, URL and identifier together with confidence 0.0. *)
Lemma zero_confidence_with_target_fields :
  fst (search_playlist_tracks ytmusic_unrelated Samples.online
                              [one_more_time] 3 fresh_world)
  = Returns
      [{| Combined.track_name := "One More Time";
          Combined.artist_name := "Daft Punk";
          Combined.album_name := "Discovery";
          Combined.spotify_url :=
            "https://open.spotify.com/track/0DiWol3AO6WpXZgp0goxAV";
          Combined.youtube_title := "Bohemian Rhapsody";
          Combined.youtube_artist := "Queen";
          Combined.youtube_album := "A Night at the Opera";
          Combined.youtube_duration := "5:55";
          Combined.youtube_url :=
            "https://music.youtube.com/watch?v=fJ9rUzIMcZQ";
          Combined.youtube_video_id := "fJ9rUzIMcZQ";
          Combined.youtube_thumbnail := "";
          Combined.youtube_thumbnail_local := None;
          Combined.match_confidence := 0 |}].
Proof. vm_compute. reflexivity. Qed.

End MatcherFacts.

(** ** Creating the playlist *)

Module PlaylistFacts.
Import YouTubePlaylist Syncing.

Lemma after_calls_nil (env : Env) (w : World) : after_calls env w [] = w.
Proof.
  destruct w. unfold after_calls. cbn.
  now rewrite Nat.add_0_r, app_nil_r.
Qed.

Lemma after_calls_cons (env : Env) (w : World) (call : api_call)
      (calls : list api_call) :
  after_calls env (after_calls env w [call]) calls
  = after_calls env w (call :: calls).
Proof.
  unfold after_calls. cbn [self now api_calls token_file].
  rewrite length_app. cbn [List.length elapsed_sum].
  rewrite <- app_assoc. cbn [app].
  f_equal. rewrite Nat.add_0_r, Nat.add_1_r. lia.
Qed.

Lemma session_holds_now (env : Env) (w : World) (k : nat) :
  session_holds env w k -> is_authenticated w = (Returns true, w).
Proof.
  intros (c & C & V). unfold is_authenticated, gets. rewrite C.
  specialize (V 0 (Nat.le_0_l k)). cbn in V. rewrite Nat.add_0_r in V.
  now rewrite V.
Qed.

Lemma session_holds_after (env : Env) (w : World) (call : api_call)
      (k : nat) :
  session_holds env w (S k) -> session_holds env (after_calls env w [call]) k.
Proof.
  intros (c & C & V). exists c. split; [exact C|].
  intros j Hj. specialize (V (S j) (le_n_S _ _ Hj)).
  cbn [after_calls now api_calls List.length elapsed_sum] in *.
  rewrite length_app. cbn [List.length].
  rewrite Nat.add_0_r, Nat.add_1_r, <- Nat.add_assoc. exact V.
Qed.

Lemma youtube_resource_built (w : World) :
  client_built w -> youtube_resource w = (Returns tt, w).
Proof.
  unfold client_built, youtube_resource, bind, Py.get. now intros ->.
Qed.

Lemma youtube_resource_not_built (w : World) :
  youtube (self w) = false ->
  youtube_resource w = (Raises AttributeError, w).
Proof. unfold youtube_resource, bind, Py.get. now intros ->. Qed.

(** One insertion, while the session holds, the client is built and
    the API answers with an item or an HTTP error: the call is made once
    and reported as a boolean. *)
Lemma add_video_to_playlist_answers (env : Env) (playlist_id video_id : string)
      (w : World) (k : nat) :
  session_holds env w k ->
  client_built w ->
  playlist_items_insert env (List.length (api_calls w)) playlist_id video_id
  <> ApiOtherError ->
  add_video_to_playlist env playlist_id video_id w
  = (Returns match playlist_items_insert env (List.length (api_calls w))
                                         playlist_id video_id with
             | ApiOk _ => true
             | _ => false
             end,
     after_calls env w [PlaylistItemsInsert playlist_id video_id]).
Proof.
  intros S B N. unfold add_video_to_playlist, bind.
  rewrite (session_holds_now env w k S). cbn [negb].
  unfold try_except, bind. rewrite (youtube_resource_built w B).
  unfold execute, ret, after_calls.
  cbn [List.length elapsed_sum]. rewrite Nat.add_0_r.
  destruct (playlist_items_insert env _ playlist_id video_id);
    [reflexivity|reflexivity|contradiction].
Qed.

Lemma count_true_cons (b : bool) (answers : list bool) :
  count_true (b :: answers) = (if b then 1 else 0) + count_true answers.
Proof. unfold count_true. now destruct b. Qed.

(** The loop, while the session holds, the client is built and no
    insertion raises anything but an HTTP error: every track is tried
    once, in order. *)
Lemma add_tracks_loop_answers (env : Env) (playlist_id : string)
      (tracks : list TrackRow) :
  forall (w : World) (tracks_added : nat) (tracks_failed : list Failed.t),
    session_holds env w (List.length tracks) ->
    client_built w ->
    (forall n video_id,
        playlist_items_insert env n playlist_id video_id <> ApiOtherError) ->
    add_tracks_loop env playlist_id tracks tracks_added tracks_failed w
    = (Returns
         (tracks_added
          + count_true (inserted env playlist_id (List.length (api_calls w))
                                 tracks),
          tracks_failed
            ++ not_inserted tracks
                 (inserted env playlist_id (List.length (api_calls w))
                           tracks)),
       after_calls env w (insert_calls playlist_id tracks)).
Proof.
  induction tracks as [|track rest IH]; intros w added failed S B N.
  - cbn. unfold ret, count_true. cbn.
    now rewrite Nat.add_0_r, app_nil_r, after_calls_nil.
  - cbn [add_tracks_loop]. unfold bind.
    rewrite (add_video_to_playlist_answers env playlist_id
               (video_id_of track) w _ S B (N _ _)).
    cbn [List.length] in S.
    pose proof (session_holds_after env w
                  (PlaylistItemsInsert playlist_id (video_id_of track))
                  _ S) as S1.
    cbn [inserted insert_calls List.map].
    rewrite count_true_cons.
    assert (L : List.length
                  (api_calls
                     (after_calls env w
                        [PlaylistItemsInsert playlist_id
                                             (video_id_of track)]))
                = Datatypes.S (List.length (api_calls w))).
    { cbn. rewrite length_app. cbn. lia. }
    destruct (playlist_items_insert env _ playlist_id (video_id_of track));
      rewrite (IH _ _ _ S1 B N), L, after_calls_cons; cbn [not_inserted].
    + now rewrite Nat.add_assoc.
    + now rewrite <- app_assoc.
    + now rewrite <- app_assoc.
Qed.

Lemma inserted_length (env : Env) (playlist_id : string)
      (tracks : list TrackRow) :
  forall n, List.length (inserted env playlist_id n tracks)
            = List.length tracks.
Proof.
  induction tracks as [|t rest IH]; intros n; cbn; [reflexivity|].
  now rewrite IH.
Qed.

(** Every answer is counted once, as an item added or as a failure. *)
Lemma added_plus_failed (tracks : list TrackRow) :
  forall answers,
    List.length answers = List.length tracks ->
    count_true answers + List.length (not_inserted tracks answers)
    = List.length tracks.
Proof.
  induction tracks as [|t rest IH]; intros [|b answers] L;
    try discriminate; [reflexivity|].
  cbn in L. injection L as L. rewrite count_true_cons.
  destruct b; cbn [not_inserted List.length]; rewrite <- (IH answers L); lia.
Qed.

Lemma inserted_all_refused (env : Env) (playlist_id : string)
      (tracks : list TrackRow) :
  (forall n video_id,
      playlist_items_insert env n playlist_id video_id = ApiHttpError) ->
  forall n,
    count_true (inserted env playlist_id n tracks) = 0
    /\ not_inserted tracks (inserted env playlist_id n tracks)
       = List.map to_failed tracks.
Proof.
  intros R. induction tracks as [|t rest IH]; intros n;
    [split; reflexivity|].
  cbn [inserted List.map]. rewrite R, count_true_cons.
  destruct (IH (S n)) as (C & F).
  cbn [not_inserted]. rewrite C, F. split; reflexivity.
Qed.

Lemma elapsed_sum_add (env : Env) (j d : nat) :
  forall n,
    elapsed_sum env n (j + d)
    = elapsed_sum env n j + elapsed_sum env (n + j) d.
Proof.
  induction j as [|j IH]; intros n; cbn.
  - now rewrite Nat.add_0_r.
  - rewrite IH. replace (S n + j) with (n + S j) by lia. lia.
Qed.

Lemma elapsed_sum_le (env : Env) (j k : nat) :
  j <= k -> forall n, elapsed_sum env n j <= elapsed_sum env n k.
Proof.
  intros L n. replace k with (j + (k - j)) by lia.
  rewrite elapsed_sum_add. lia.
Qed.

(** A token whose expiry is ahead of the end of the next [k] calls. *)
Lemma session_holds_until (env : Env) (w : World) (k : nat)
      (c : Credentials) (tok : string) (e : nat) :
  credentials (self w) = Some c ->
  token c = Some tok ->
  expiry c = Some e ->
  now w + elapsed_sum env (List.length (api_calls w)) k < e ->
  session_holds env w k.
Proof.
  intros C T E B. exists c. split; [exact C|].
  intros j Hj. unfold valid, expired. rewrite T, E.
  pose proof (elapsed_sum_le env j k Hj (List.length (api_calls w))).
  apply negb_true_iff, Nat.leb_gt. lia.
Qed.

Lemma create_playlist_answers (env : Env)
      (title description privacy_status : string) (w : World) (k : nat) :
  session_holds env w k ->
  client_built w ->
  create_playlist env title description privacy_status w
  = (match playlists_insert env (List.length (api_calls w)) title
                            description privacy_status with
     | ApiOk playlist => Returns (Some playlist)
     | ApiHttpError => Returns None
     | ApiOtherError => Raises OtherException
     end,
     after_calls env w [PlaylistsInsert title description privacy_status]).
Proof.
  intros S B. unfold create_playlist, bind.
  rewrite (session_holds_now env w k S). cbn [negb].
  unfold try_except, bind. rewrite (youtube_resource_built w B).
  unfold execute, ret, after_calls.
  cbn [List.length elapsed_sum]. rewrite Nat.add_0_r.
  destruct (playlists_insert env _ title description privacy_status);
    reflexivity.
Qed.

(** With valid credentials and no client, [create_playlist] raises
    before any call is made. *)
Lemma create_playlist_not_built (env : Env)
      (title description privacy_status : string) (w : World) :
  is_authenticated w = (Returns true, w) ->
  youtube (self w) = false ->
  create_playlist env title description privacy_status w
  = (Raises AttributeError, w).
Proof.
  intros A B. unfold create_playlist, bind. rewrite A. cbn [negb].
  unfold try_except, bind. now rewrite (youtube_resource_not_built w B).
Qed.

Lemma length_zero_eqb {A} (l : list A) :
  (List.length l =? 0) = match l with [] => true | _ => false end.
Proof. now destruct l. Qed.

(** C6 (as amended). When playlist creation succeeds (the client is
    built and the API returns the playlist) and no insertion raises (the
    session is valid throughout and the API answers every insertion with
    an item or an HTTP error), the sync tries every eligible track once,
    in order, whatever the earlier insertions did, and returns a result
    with [success = true] whose [tracks_added] plus the length of
    [failed_tracks] is [tracks_attempted]; when every insertion is
    refused with an HTTP error, [tracks_added] is 0 and [failed_tracks]
    has the length of the attempted tracks. *)
Theorem create_playlist_from_tracks_tries_every_track
        (env : Env) (playlist_name : string) (tracks_df : list TrackRow)
        (confidence_threshold : float) (description : string) (w : World)
        (playlist : PlaylistResource) :
  List.filter (is_valid_track confidence_threshold) tracks_df <> [] ->
  session_holds env w
    (S (List.length
          (List.filter (is_valid_track confidence_threshold) tracks_df))) ->
  client_built w ->
  playlists_insert env (List.length (api_calls w)) playlist_name
    (playlist_desc description
       (List.filter (is_valid_track confidence_threshold) tracks_df))
    "private" = ApiOk playlist ->
  (forall n video_id,
      playlist_items_insert env n (id playlist) video_id <> ApiOtherError) ->
  exists r failed,
    create_playlist_from_tracks env playlist_name tracks_df
                                confidence_threshold description w
    = (Returns r,
       after_calls env w
         (PlaylistsInsert playlist_name
            (playlist_desc description
               (List.filter (is_valid_track confidence_threshold) tracks_df))
            "private"
          :: insert_calls (id playlist)
               (List.filter (is_valid_track confidence_threshold)
                            tracks_df)))
    /\ success r = true
    /\ tracks_attempted r
       = List.length
           (List.filter (is_valid_track confidence_threshold) tracks_df)
    /\ failed_tracks r = Some failed
    /\ tracks_failed r = Some (List.length failed)
    /\ tracks_added r + List.length failed = tracks_attempted r
    /\ ((forall n video_id,
            playlist_items_insert env n (id playlist) video_id
            = ApiHttpError) ->
        tracks_added r = 0
        /\ List.length failed = tracks_attempted r).
Proof.
  set (valid_tracks :=
         List.filter (is_valid_track confidence_threshold) tracks_df).
  intros NE S B C N.
  unfold create_playlist_from_tracks, bind.
  rewrite (session_holds_now env w _ S). cbn [negb].
  fold valid_tracks. rewrite length_zero_eqb.
  destruct valid_tracks as [|t0 rest] eqn:V; [contradiction|].
  rewrite <- V in *.
  fold (playlist_desc description valid_tracks).
  rewrite (create_playlist_answers env _ _ _ w _ S B), C.
  pose proof (session_holds_after env w
                (PlaylistsInsert playlist_name
                   (playlist_desc description valid_tracks) "private")
                _ S) as S1.
  rewrite (add_tracks_loop_answers env (id playlist) valid_tracks _ 0 []
             S1 B N).
  rewrite after_calls_cons.
  set (answers := inserted env (id playlist) _ valid_tracks).
  eexists _, (not_inserted valid_tracks answers).
  split; [reflexivity|]. cbn.
  assert (L : List.length answers = List.length valid_tracks)
    by apply inserted_length.
  repeat split.
  - apply added_plus_failed, L.
  - destruct (inserted_all_refused env (id playlist) valid_tracks H
                (List.length
                   (api_calls
                      (after_calls env w
                         [PlaylistsInsert playlist_name
                            (playlist_desc description valid_tracks)
                            "private"])))) as (Z & _).
    exact Z.
  - destruct (inserted_all_refused env (id playlist) valid_tracks H
                (List.length
                   (api_calls
                      (after_calls env w
                         [PlaylistsInsert playlist_name
                            (playlist_desc description valid_tracks)
                            "private"])))) as (_ & F).
    fold answers in F. rewrite F. apply length_map.
Qed.

Lemma create_playlist_from_tracks_tries_every_track_witness :
  exists r failed,
    create_playlist_from_tracks items_refused "Road trip" sample_df
                                0.7%float "" signed_in
    = (Returns r,
       {| self := self signed_in;
          now := 2;
          api_calls :=
            [PlaylistsInsert "Road trip"
               "Created from Spotify playlist with 1 tracks" "private";
             PlaylistItemsInsert "PL123" "FGBhQbmPwH8"];
          token_file := token_file signed_in |})
    /\ success r = true
    /\ tracks_attempted r = 1
    /\ failed_tracks r = Some failed
    /\ tracks_failed r = Some (List.length failed)
    /\ tracks_added r + List.length failed = tracks_attempted r
    /\ tracks_added r = 0
    /\ List.length failed = tracks_attempted r.
Proof.
  assert (H1 : List.filter (is_valid_track 0.7%float) sample_df <> [])
    by (vm_compute; discriminate).
  assert (H2 : session_holds items_refused signed_in
                 (S (List.length
                       (List.filter (is_valid_track 0.7%float) sample_df)))).
  { apply session_holds_until
      with (c := session) (tok := "ya29.a0AfH6SM"%string) (e := 3600);
      try reflexivity.
    vm_compute. lia. }
  assert (H3 : playlists_insert items_refused
                 (List.length (api_calls signed_in)) "Road trip"
                 (playlist_desc ""
                    (List.filter (is_valid_track 0.7%float) sample_df))
                 "private" = ApiOk {| id := "PL123" |})
    by reflexivity.
  assert (H4 : forall n video_id,
             playlist_items_insert items_refused n
               (id {| id := "PL123" |}) video_id <> ApiOtherError)
    by (intros; discriminate).
  destruct (create_playlist_from_tracks_tries_every_track
              items_refused "Road trip" sample_df 0.7%float "" signed_in
              {| id := "PL123" |} H1 H2 eq_refl H3 H4)
    as (r & failed & E & S & A & F & N & P & Z).
  exists r, failed.
  repeat split; try assumption; apply Z; reflexivity.
Defined.

(** C6 (as stated) fails. The playlist is created, and the connection
    is lost when the first of two eligible tracks is inserted: the
    exception leaves the loop and the sync, the second track is never
    tried and no result is returned. *)
Lemma create_playlist_from_tracks_stops_at_raising_track :
  List.filter (is_valid_track 0.7%float)
              [good_track; SyncTrace.second_track]
  = [good_track; SyncTrace.second_track]
  /\ create_playlist connection_lost "Road trip"
       "Created from Spotify playlist with 2 tracks" "private" signed_in
     = (Returns (Some {| id := "PL123" |}),
        after_calls connection_lost signed_in
          [PlaylistsInsert "Road trip"
             "Created from Spotify playlist with 2 tracks" "private"])
  /\ create_playlist_from_tracks connection_lost "Road trip"
       [good_track; SyncTrace.second_track] 0.7%float "" signed_in
     = (Raises OtherException,
        {| self := self signed_in;
           now := 2;
           api_calls :=
             [PlaylistsInsert "Road trip"
                "Created from Spotify playlist with 2 tracks" "private";
              PlaylistItemsInsert "PL123" "FGBhQbmPwH8"];
           token_file := token_file signed_in |}).
Proof. repeat split. Qed.

(** C7 (as amended). When no track passes the filter, the sync calls
    no API and changes nothing; with a valid session it returns a result
    with [success = false], an error message, nothing attempted and
    nothing added; without a valid session it raises [ValueError] and
    returns no result. *)
Theorem create_playlist_from_tracks_no_valid_tracks
        (env : Env) (playlist_name : string) (tracks_df : list TrackRow)
        (confidence_threshold : float) (description : string) (w : World) :
  List.filter (is_valid_track confidence_threshold) tracks_df = [] ->
  snd (create_playlist_from_tracks env playlist_name tracks_df
                                   confidence_threshold description w) = w
  /\ (is_authenticated w = (Returns true, w) ->
      exists r,
        create_playlist_from_tracks env playlist_name tracks_df
                                    confidence_threshold description w
        = (Returns r, w)
        /\ success r = false
        /\ error r = Some "No valid tracks found to add to playlist"%string
        /\ tracks_attempted r = 0
        /\ tracks_added r = 0
        /\ tracks_skipped r = List.length tracks_df)
  /\ (is_authenticated w = (Returns false, w) ->
      create_playlist_from_tracks env playlist_name tracks_df
                                  confidence_threshold description w
      = (Raises not_authenticated, w)).
Proof.
  intros V. unfold create_playlist_from_tracks, bind. rewrite V.
  split; [|split].
  - unfold is_authenticated, gets.
    destruct (match credentials (self w) with
              | Some c => valid c (now w)
              | None => false
              end); reflexivity.
  - intros A. rewrite A. cbn. eexists. split; [reflexivity|].
    repeat split.
  - intros A. now rewrite A.
Qed.

Lemma create_playlist_from_tracks_no_valid_tracks_witness :
  List.filter (is_valid_track 0.7%float) [weak_track; unmatched_track] = []
  /\ snd (create_playlist_from_tracks granting "Road trip"
            [weak_track; unmatched_track] 0.7%float "" signed_in)
     = signed_in
  /\ exists r,
      create_playlist_from_tracks granting "Road trip"
        [weak_track; unmatched_track] 0.7%float "" signed_in
      = (Returns r, signed_in)
      /\ success r = false
      /\ error r = Some "No valid tracks found to add to playlist"%string
      /\ tracks_attempted r = 0
      /\ tracks_added r = 0
      /\ tracks_skipped r = 2.
Proof.
  split; [reflexivity|].
  destruct (create_playlist_from_tracks_no_valid_tracks granting "Road trip"
              [weak_track; unmatched_track] 0.7%float "" signed_in
              eq_refl) as (N & R & _).
  split; [exact N|]. apply R. reflexivity.
Defined.

(** C7 (as stated) fails. No track passes the filter and there is no
    session: the sync raises [ValueError]; it returns no result. *)
Lemma create_playlist_from_tracks_no_valid_tracks_signed_out :
  List.filter (is_valid_track 0.7%float) [weak_track; unmatched_track] = []
  /\ create_playlist_from_tracks granting "Road trip"
       [weak_track; unmatched_track] 0.7%float "" signed_out
     = (Raises (ValueError "Not authenticated. Please authenticate first."),
        signed_out).
Proof. split; reflexivity. Qed.

Example no_valid_tracks_signed_in :
  create_playlist_from_tracks granting "Road trip"
    [weak_track; unmatched_track] 0.7%float "" signed_in
  = (Returns (failure "No valid tracks found to add to playlist"
                      [weak_track; unmatched_track]), signed_in).
Proof. reflexivity. Qed.

Lemma authenticated_session_holds (env : Env) (w : World) :
  is_authenticated w = (Returns true, w) -> session_holds env w 0.
Proof.
  unfold is_authenticated, gets. intros A.
  destruct (credentials (self w)) as [c|] eqn:C; [|discriminate].
  exists c. split; [exact C|].
  intros j Hj. replace j with 0 by lia. cbn. rewrite Nat.add_0_r.
  now injection A.
Qed.

Lemma is_authenticated_cases (w : World) :
  is_authenticated w = (Returns true, w)
  \/ is_authenticated w = (Returns false, w).
Proof.
  unfold is_authenticated, gets.
  destruct (match credentials (self w) with
            | Some c => valid c (now w)
            | None => false
            end); auto.
Qed.

(** C9 (as amended). Of the three failures of a run's precondition, two
    are reported as a structured result with [success = false] and no
    track attempted: no eligible track (no API call is made) and, when
    the client is built, a playlist creation refused with an HTTP error
    (the creation is the only API call made). The third, a session that
    is absent or not valid, is reported by raising [ValueError] before
    any API call; and with valid credentials, an eligible track and no
    client built, the sync raises [AttributeError] before any API
    call. *)
Theorem create_playlist_from_tracks_precondition_failures
        (env : Env) (playlist_name : string) (tracks_df : list TrackRow)
        (confidence_threshold : float) (description : string) (w : World) :
  (is_authenticated w = (Returns false, w) ->
   create_playlist_from_tracks env playlist_name tracks_df
                               confidence_threshold description w
   = (Raises not_authenticated, w))
  /\ (is_authenticated w = (Returns true, w) ->
      List.filter (is_valid_track confidence_threshold) tracks_df = [] ->
      create_playlist_from_tracks env playlist_name tracks_df
                                  confidence_threshold description w
      = (Returns (failure "No valid tracks found to add to playlist"
                          tracks_df), w))
  /\ (is_authenticated w = (Returns true, w) ->
      client_built w ->
      List.filter (is_valid_track confidence_threshold) tracks_df <> [] ->
      playlists_insert env (List.length (api_calls w)) playlist_name
        (playlist_desc description
           (List.filter (is_valid_track confidence_threshold) tracks_df))
        "private" = ApiHttpError ->
      create_playlist_from_tracks env playlist_name tracks_df
                                  confidence_threshold description w
      = (Returns (failure "Failed to create playlist" tracks_df),
         after_calls env w
           [PlaylistsInsert playlist_name
              (playlist_desc description
                 (List.filter (is_valid_track confidence_threshold)
                              tracks_df))
              "private"]))
  /\ (is_authenticated w = (Returns true, w) ->
      youtube (self w) = false ->
      List.filter (is_valid_track confidence_threshold) tracks_df <> [] ->
      create_playlist_from_tracks env playlist_name tracks_df
                                  confidence_threshold description w
      = (Raises AttributeError, w)).
Proof.
  unfold create_playlist_from_tracks, bind.
  split; [|split; [|split]].
  - intros A. now rewrite A.
  - intros A V. now rewrite A, V.
  - intros A B V C. rewrite A. cbn [negb].
    rewrite length_zero_eqb.
    destruct (List.filter (is_valid_track confidence_threshold) tracks_df)
      as [|t0 rest] eqn:E; [contradiction|].
    rewrite <- E in *.
    fold (playlist_desc description
            (List.filter (is_valid_track confidence_threshold) tracks_df)).
    rewrite (create_playlist_answers env _ _ _ w 0
               (authenticated_session_holds env w A) B), C.
    reflexivity.
  - intros A B V. rewrite A. cbn [negb].
    rewrite length_zero_eqb.
    destruct (List.filter (is_valid_track confidence_threshold) tracks_df)
      as [|t0 rest] eqn:E; [contradiction|].
    now rewrite (create_playlist_not_built env _ _ _ w A B).
Qed.

Lemma create_playlist_from_tracks_precondition_failures_witness :
  create_playlist_from_tracks creation_refused "Road trip" sample_df
                              0.7%float "" signed_out
  = (Raises not_authenticated, signed_out)
  /\ create_playlist_from_tracks creation_refused "Road trip"
       [weak_track; unmatched_track] 0.7%float "" signed_in
     = (Returns (failure "No valid tracks found to add to playlist"
                         [weak_track; unmatched_track]), signed_in)
  /\ create_playlist_from_tracks creation_refused "Road trip" sample_df
                                 0.7%float "" signed_in
     = (Returns (failure "Failed to create playlist" sample_df),
        after_calls creation_refused signed_in
          [PlaylistsInsert "Road trip"
             "Created from Spotify playlist with 1 tracks" "private"])
  /\ create_playlist_from_tracks creation_refused "Road trip" sample_df
                                 0.7%float "" without_client
     = (Raises AttributeError, without_client).
Proof.
  split; [|split; [|split]].
  - apply (create_playlist_from_tracks_precondition_failures
             creation_refused "Road trip" sample_df 0.7%float ""
             signed_out).
    reflexivity.
  - apply (create_playlist_from_tracks_precondition_failures
             creation_refused "Road trip" [weak_track; unmatched_track]
             0.7%float "" signed_in); reflexivity.
  - apply (create_playlist_from_tracks_precondition_failures
             creation_refused "Road trip" sample_df 0.7%float ""
             signed_in);
      [reflexivity|reflexivity|vm_compute; discriminate|reflexivity].
  - apply (create_playlist_from_tracks_precondition_failures
             creation_refused "Road trip" sample_df 0.7%float ""
             without_client);
      [reflexivity|reflexivity|vm_compute; discriminate].
Defined.

(** C9 (as stated) fails. Without a session the sync raises
    [ValueError]; it returns no result. *)
Lemma create_playlist_from_tracks_raises_when_signed_out :
  create_playlist_from_tracks granting "Road trip" sample_df 0.7%float ""
                              signed_out
  = (Raises (ValueError "Not authenticated. Please authenticate first."),
     signed_out).
Proof. reflexivity. Qed.

(** C4 (as amended). The result the sync returns has [tracks_skipped]
    equal to the number of input tracks minus [tracks_attempted]: the
    input tracks minus the eligible ones when the playlist was created or
    no track is eligible, and all the input tracks when the run failed
    (nothing is attempted then, creation failure included). *)
Theorem tracks_skipped_accounting
        (env : Env) (playlist_name : string) (tracks_df : list TrackRow)
        (confidence_threshold : float) (description : string)
        (w w' : World) (r : Result) :
  create_playlist_from_tracks env playlist_name tracks_df
                              confidence_threshold description w
  = (Returns r, w') ->
  tracks_skipped r = List.length tracks_df - tracks_attempted r
  /\ (success r = true
      \/ List.filter (is_valid_track confidence_threshold) tracks_df = [] ->
      tracks_skipped r
      = List.length tracks_df
        - List.length
            (List.filter (is_valid_track confidence_threshold) tracks_df))
  /\ (success r = false ->
      tracks_attempted r = 0 /\ tracks_skipped r = List.length tracks_df).
Proof.
  unfold create_playlist_from_tracks, bind.
  destruct (is_authenticated_cases w) as [A|A]; rewrite A; cbn [negb];
    [|discriminate].
  rewrite length_zero_eqb.
  destruct (List.filter (is_valid_track confidence_threshold) tracks_df)
    as [|t0 rest] eqn:E.
  - unfold ret. intros [= <- <-]. cbn. rewrite Nat.sub_0_r. auto.
  - rewrite <- E.
    destruct (youtube (self w)) eqn:B;
      [|now rewrite (create_playlist_not_built env _ _ _ w A B)].
    rewrite (create_playlist_answers env _ _ _ w 0
               (authenticated_session_holds env w A) B).
    destruct (playlists_insert env _ _ _ _) as [playlist| |];
      [|unfold ret; intros [= <- <-]; cbn; rewrite Nat.sub_0_r;
        repeat split; intros [H|H]; [discriminate H|rewrite E in H;
                                                   discriminate H]
       |discriminate].
    destruct (add_tracks_loop env (id playlist) _ 0 [] _)
      as [[[added failed]|e] w2]; [|discriminate].
    unfold ret. intros [= <- <-]. cbn.
    repeat split; intros; discriminate.
Qed.

Lemma tracks_skipped_accounting_witness :
  tracks_skipped (failure "Failed to create playlist" sample_df)
  = List.length sample_df
    - tracks_attempted (failure "Failed to create playlist" sample_df)
  /\ (success (failure "Failed to create playlist" sample_df) = true
      \/ List.filter (is_valid_track 0.7%float) sample_df = [] ->
      tracks_skipped (failure "Failed to create playlist" sample_df)
      = List.length sample_df
        - List.length (List.filter (is_valid_track 0.7%float) sample_df))
  /\ (success (failure "Failed to create playlist" sample_df) = false ->
      tracks_attempted (failure "Failed to create playlist" sample_df) = 0
      /\ tracks_skipped (failure "Failed to create playlist" sample_df)
         = List.length sample_df).
Proof.
  apply (tracks_skipped_accounting creation_refused "Road trip" sample_df
           0.7%float "" signed_in
           (after_calls creation_refused signed_in
              [PlaylistsInsert "Road trip"
                 "Created from Spotify playlist with 1 tracks" "private"])).
  reflexivity.
Defined.

(** C4 (as stated) fails. Of three input tracks one is eligible; when
    the creation of the playlist is refused the result counts all three
    as skipped, not the two that the filter excluded. *)
Lemma skipped_count_on_creation_failure :
  exists r,
    fst (create_playlist_from_tracks creation_refused "Road trip" sample_df
                                     0.7%float "" signed_in) = Returns r
    /\ success r = false
    /\ tracks_skipped r = 3
    /\ List.length sample_df
       - List.length (List.filter (is_valid_track 0.7%float) sample_df) = 2.
Proof.
  eexists. split; [reflexivity|]. repeat split.
Qed.

(** C8 (as amended). [authenticate_with_code] never raises: it returns a
    boolean on every input, and returns [False], leaving the service as
    it was, both when the exchange of the code fails and when it is
    called before [get_auth_url] has stored a flow. *)
Theorem authenticate_with_code_never_raises
        (env : Env) (auth_code : string) (w : World) :
  (exists b w', authenticate_with_code env auth_code w = (Returns b, w'))
  /\ (_flow (self w) = None ->
      authenticate_with_code env auth_code w = (Returns false, w))
  /\ (fetch_token env auth_code = None ->
      authenticate_with_code env auth_code w = (Returns false, w)).
Proof.
  unfold authenticate_with_code, try_except, bind, Py.get, is_Exception,
    raise, ret, _save_credentials, set_self, modify.
  destruct (_flow (self w)) as [flow|].
  - destruct (fetch_token env auth_code) as [creds|].
    + destruct (token_file_writable env), (build_ok env);
        (split; [eexists _, _; reflexivity|]); split; discriminate.
    + split; [eexists _, _; reflexivity|]. split; reflexivity.
  - split; [eexists _, _; reflexivity|]. split; reflexivity.
Qed.

Lemma authenticate_with_code_never_raises_witness :
  (exists b w',
      authenticate_with_code creation_refused "4/0AX4XfWh" signed_out
      = (Returns b, w'))
  /\ authenticate_with_code creation_refused "4/0AX4XfWh" signed_out
     = (Returns false, signed_out).
Proof.
  destruct (authenticate_with_code_never_raises creation_refused
              "4/0AX4XfWh" signed_out) as (T & F & _).
  split; [exact T|]. apply F. reflexivity.
Defined.

(** C8 (as stated) fails. Called before [get_auth_url], with a provider
    that would grant the code, [authenticate_with_code] returns [False];
    it does not fail with an error. *)
Lemma authenticate_with_code_without_flow :
  authenticate_with_code granting "4/0AX4XfWh" signed_out
  = (Returns false, signed_out).
Proof. reflexivity. Qed.

(** After [get_auth_url] the same call succeeds. *)
Example authenticate_with_code_after_get_auth_url :
  fst (bind (get_auth_url granting)
            (fun _ => authenticate_with_code granting "4/0AX4XfWh")
            signed_out)
  = Returns true.
Proof. reflexivity. Qed.

End PlaylistFacts.

(** ** More on the scoring *)

Module ScoringExtras.
Import YouTubeMusic Evidence.

Local Open Scope float_scope.

Lemma prefix_refl (s : string) : String.prefix s s = true.
Proof.
  induction s as [|c s IH]; cbn; [reflexivity|].
  destruct (ascii_dec c c) as [_|N]; [exact IH|now elim N].
Qed.

Lemma contains_refl (s : string) : contains s s = true.
Proof.
  destruct s as [|c s]; [reflexivity|].
  cbn [contains]. now rewrite prefix_refl.
Qed.

Lemma prefix_empty (s : string) : String.prefix "" s = true.
Proof. now destruct s. Qed.

Lemma contains_empty (s : string) : contains s "" = true.
Proof. destruct s; cbn; reflexivity. Qed.

Lemma lower_char_idempotent (c : ascii) :
  lower_char (lower_char c) = lower_char c.
Proof.
  destruct c as [[] [] [] [] [] [] [] []]; vm_compute; reflexivity.
Qed.

Lemma lower_idempotent (s : string) : lower (lower s) = lower s.
Proof.
  induction s as [|c s IH]; cbn; [reflexivity|].
  now rewrite lower_char_idempotent, IH.
Qed.

Lemma existsb_impl {A} (f g : A -> bool) (l : list A) :
  (forall x, f x = true -> g x = true) ->
  existsb f l = true -> existsb g l = true.
Proof.
  intros I. induction l as [|x l IH]; cbn; [discriminate|].
  intros H. apply orb_true_iff in H. apply orb_true_iff.
  destruct H as [H|H]; [left; now apply I|right; now apply IH].
Qed.

(** The bonus is only ever given on top of both full weights. *)
Lemma exact_match_full_weights (oa ot : string) (r : yt_result) :
  exact_match oa ot r = true ->
  contains (lower (dict_get (title r) "")) (lower ot) = true
  /\ Spec.artist_matched oa (artists r) = true.
Proof.
  unfold exact_match. intros H. apply andb_true_iff in H.
  destruct H as (T & A). apply String.eqb_eq in T. split.
  - rewrite <- T. apply contains_refl.
  - unfold Spec.artist_matched. revert A. apply existsb_impl.
    intros a E. apply String.eqb_eq in E. rewrite <- E.
    now rewrite contains_refl.
Qed.

Lemma spec_bonus_exact_match (oa ot : string) (r : yt_result) :
  Spec.exact_match_bonus oa ot (dict_get (title r) "") (artists r)
  = if exact_match oa ot r then 0.1 else 0.
Proof.
  unfold Spec.exact_match_bonus, exact_match.
  rewrite (String.eqb_sym (lower (dict_get (title r) "")) (lower ot)).
  rewrite (ScoringFacts.existsb_ext'
             (fun a => String.eqb (lower a) (lower oa))
             (fun a => String.eqb (lower oa) (lower a)))
    by (intros; apply String.eqb_sym).
  reflexivity.
Qed.

(** The score written with the three booleans that decide it. *)
Lemma confidence_by_cases (oa ot : string) (r : yt_result) :
  _calculate_match_confidence oa ot r
  = if exact_match oa ot r then 1
    else
      (Spec.title_component ot (dict_get (title r) "")
       + Spec.artist_component oa (artists r)).
Proof.
  rewrite ScoringFacts.calculate_match_confidence_eq.
  unfold Spec.confidence. rewrite spec_bonus_exact_match.
  destruct (exact_match oa ot r) eqn:E.
  - destruct (exact_match_full_weights oa ot r E) as (T & A).
    unfold Spec.title_component, Spec.artist_component.
    rewrite T, A. reflexivity.
  - unfold Spec.title_component, Spec.artist_component.
    destruct (contains _ _); [|destruct (existsb _ (Spec.tokens _))];
      (destruct (Spec.artist_matched _ _); [|destruct (existsb _ _)]);
      reflexivity.
Qed.

Ltac in_levels :=
  vm_compute; repeat (first [left; reflexivity | right]).

Ltac score_cases :=
  unfold Spec.title_component, Spec.artist_component;
  destruct (contains _ _); [|destruct (existsb _ (Spec.tokens _))];
  (destruct (Spec.artist_matched _ _); [|destruct (existsb _ _)]).

(** The sum of the weights is never above 1.0: [min] gives it back. *)
Lemma min_keeps_score (oa ot : string) (r : yt_result) :
  Py.min (score_before_min oa ot r) 1 = score_before_min oa ot r.
Proof.
  unfold score_before_min, any, str_in.
  rewrite ScoringFacts.artist_loop_any.
  rewrite !ScoringFacts.existsb_map.
  fold (Spec.tokens (lower ot)).
  unfold str_in.
  destruct (contains (lower (dict_get (title r) "")) (lower ot));
    [|destruct (existsb _ (Spec.tokens (lower ot)))];
    (destruct (existsb
                 (fun x => contains (lower x) (lower oa)
                           || contains (lower oa) (lower x)) (artists r));
     cbn [negb];
     [|rewrite ScoringFacts.partial_artist_loop_any,
         ScoringFacts.existsb_map; unfold str_in;
       destruct (existsb
                   (fun x => existsb (fun w => contains (lower x) w)
                                     (Spec.tokens (lower oa)))
                   (artists r))]);
    destruct (String.eqb (lower ot) (lower (dict_get (title r) ""))
              && existsb (fun a => String.eqb (lower oa) (lower a))
                         (artists r));
    reflexivity.
Qed.

(** X1. Whatever the source strings and the candidate, the confidence is
    one of 0, 0.2, 0.3, 0.4, 0.5, 0.7, 0.9 and 1.0; in particular it lies
    between 0.0 and 1.0; and the final [min] never lowers a sum: the
    confidence is the value [score] has before [min(score, 1.0)]. *)
Theorem confidence_takes_eight_values
        (original_artist original_track : string) (r : yt_result) :
  In (_calculate_match_confidence original_artist original_track r)
     confidence_levels
  /\ (0 <=? _calculate_match_confidence original_artist original_track r)
     = true
  /\ (_calculate_match_confidence original_artist original_track r <=? 1)
     = true
  /\ _calculate_match_confidence original_artist original_track r
     = Py.min (score_before_min original_artist original_track r) 1
  /\ _calculate_match_confidence original_artist original_track r
     = score_before_min original_artist original_track r.
Proof.
  assert (M : _calculate_match_confidence original_artist original_track r
              = Py.min (score_before_min original_artist original_track r)
                       1).
  { unfold _calculate_match_confidence, score_before_min.
    now destruct (artist_loop _ _ _). }
  assert (K : _calculate_match_confidence original_artist original_track r
              = score_before_min original_artist original_track r)
    by (rewrite M; apply min_keeps_score).
  assert (V : In (_calculate_match_confidence original_artist
                                              original_track r)
                 confidence_levels
              /\ (0 <=? _calculate_match_confidence original_artist
                                                    original_track r)
                 = true
              /\ (_calculate_match_confidence original_artist
                                              original_track r <=? 1)
                 = true).
  { rewrite confidence_by_cases.
    destruct (exact_match original_artist original_track r).
    - split; [in_levels|split; reflexivity].
    - score_cases; (split; [in_levels|split; reflexivity]). }
  destruct V as (V1 & V2 & V3).
  repeat split; assumption.
Qed.

(** X2. The confidence is 1.0 exactly when the lowercase titles are equal
    and some candidate artist is, in lowercase, the source artist. *)
Theorem confidence_is_one_iff_exact_match
        (original_artist original_track : string) (r : yt_result) :
  (_calculate_match_confidence original_artist original_track r =? 1)
  = exact_match original_artist original_track r.
Proof.
  rewrite confidence_by_cases.
  destruct (exact_match original_artist original_track r);
    [reflexivity|].
  score_cases; reflexivity.
Qed.

Lemma lower_title_of_lower_result (r : yt_result) :
  lower (dict_get (title (lower_result r)) "")
  = lower (dict_get (title r) "").
Proof.
  unfold lower_result. cbn [title].
  destruct (title r) as [t|]; cbn; [apply lower_idempotent|reflexivity].
Qed.

Lemma lower_artists_of_lower_result (r : yt_result) :
  List.map lower (artists (lower_result r)) = List.map lower (artists r).
Proof.
  unfold lower_result. cbn [artists]. rewrite map_map.
  apply map_ext. intros a. apply lower_idempotent.
Qed.

(** X3. Scoring ignores letter case: putting the source artist, the
    source title and the candidate's title and artist names in lowercase
    leaves the confidence as it was. *)
Theorem confidence_ignores_case
        (original_artist original_track : string) (r : yt_result) :
  _calculate_match_confidence (lower original_artist) (lower original_track)
                              (lower_result r)
  = _calculate_match_confidence original_artist original_track r.
Proof.
  unfold _calculate_match_confidence.
  rewrite lower_title_of_lower_result, lower_artists_of_lower_result.
  now rewrite !lower_idempotent.
Qed.

Lemma existsb_orb {A} (f g : A -> bool) (l : list A) :
  existsb (fun x => f x || g x) l = existsb f l || existsb g l.
Proof.
  induction l as [|x l IH]; cbn; [reflexivity|].
  rewrite IH. destruct (f x), (g x), (existsb f l); reflexivity.
Qed.

Lemma artist_evidence_split (oa : string) (r : yt_result) :
  artist_evidence oa r
  = Spec.artist_matched oa (artists r)
    || existsb (fun a => existsb (fun tok => contains (lower a) tok)
                                 (Spec.tokens (lower oa)))
               (artists r).
Proof. unfold artist_evidence, Spec.artist_matched. apply existsb_orb. Qed.

(** X4. A confidence of 0.7 (the default threshold) or more needs
    evidence on both sides: the source title or one of its words in the
    candidate title, and a match of the source artist, or of one of its
    words, with a candidate artist. *)
Theorem confidence_threshold_needs_both
        (original_artist original_track : string) (r : yt_result) :
  (0.7 <=? _calculate_match_confidence original_artist original_track r)
  = true ->
  title_evidence original_track r = true
  /\ artist_evidence original_artist r = true.
Proof.
  rewrite confidence_by_cases, artist_evidence_split.
  unfold title_evidence.
  destruct (exact_match original_artist original_track r) eqn:E.
  - intros _. destruct (exact_match_full_weights _ _ _ E) as (T & A).
    now rewrite T, A.
  - unfold Spec.title_component, Spec.artist_component.
    destruct (contains _ _); [|destruct (existsb _ (Spec.tokens _))];
      (destruct (Spec.artist_matched _ _); [|destruct (existsb _ _)]);
      cbn [orb]; intros H; try (split; reflexivity);
      vm_compute in H; discriminate H.
Qed.

Lemma confidence_threshold_needs_both_witness :
  title_evidence "One More Time" Samples.daft_punk = true
  /\ artist_evidence "Daft Punk" Samples.daft_punk = true.
Proof.
  apply (confidence_threshold_needs_both "Daft Punk" "One More Time"
           Samples.daft_punk).
  reflexivity.
Defined.

(** X5. Empty source strings match everything: with an empty source
    title the confidence of every candidate is at least 0.5, and with an
    empty source artist the confidence of every candidate that has an
    artist is at least 0.4. *)
Theorem empty_source_matches_everything :
  (forall (original_artist : string) (r : yt_result),
      (0.5 <=? _calculate_match_confidence original_artist "" r) = true)
  /\ (forall (original_track : string) (r : yt_result),
         artists r <> [] ->
         (0.4 <=? _calculate_match_confidence "" original_track r) = true).
Proof.
  split.
  - intros oa r. rewrite confidence_by_cases.
    destruct (exact_match oa "" r); [reflexivity|].
    unfold Spec.title_component. cbn [lower]. rewrite contains_empty.
    unfold Spec.artist_component.
    destruct (Spec.artist_matched _ _); [|destruct (existsb _ _)];
      reflexivity.
  - intros ot r N. rewrite confidence_by_cases.
    destruct (exact_match "" ot r); [reflexivity|].
    assert (A : Spec.artist_matched "" (artists r) = true).
    { unfold Spec.artist_matched.
      destruct (artists r) as [|a l]; [contradiction|].
      cbn [existsb lower]. now rewrite contains_empty. }
    unfold Spec.artist_component. rewrite A.
    unfold Spec.title_component.
    destruct (contains _ _); [|destruct (existsb _ _)]; reflexivity.
Qed.

End ScoringExtras.

(** ** More on the image cache *)

Module ImageCacheExtras.
Import ImageCache Caching.

Lemma find_all_false {A} (f : A -> bool) (l : list A) :
  (forall x, In x l -> f x = false) -> find f l = None.
Proof.
  induction l as [|x l IH]; intros H; cbn; [reflexivity|].
  rewrite (H x (or_introl eq_refl)). apply IH. intros y Hy. apply H. now right.
Qed.

(** What a call on a non-empty URL does, by cases: a hit; or, nothing
    being cached, one request that leaves no file, one that leaves a file
    and fails, or one that leaves a file and succeeds. *)
Lemma get_cached_image_cases (self : ImageCache) (env : Env) (u : string)
      (st : Store) :
  truthy (Some u) = true ->
  (exists ext,
      In ext extensions
      /\ path_exists st (cached_path self env u ext) = true
      /\ get_cached_image self env (Some u) st
         = (Returns (Some (cached_path self env u ext)), st))
  \/ (not_cached self env u st
      /\ (get_cached_image self env (Some u) st
          = (Returns None, after_request st u)
          \/ exists ext,
            In ext extensions
            /\ (get_cached_image self env (Some u) st
                = (Returns None,
                   after_download st u (cached_path self env u ext))
                \/ get_cached_image self env (Some u) st
                   = (Returns (Some (cached_path self env u ext)),
                      after_download st u (cached_path self env u ext))))).
Proof.
  intros T. unfold get_cached_image, not_cached, cached_path.
  rewrite T. cbn [negb].
  unfold try_except, bind, Py.get, ret, is_Exception.
  destruct (find (fun ext =>
                    path_exists st
                      (path_join (cache_dir self)
                                 (_get_cache_filename env u ext)))
                 extensions) as [ext|] eqn:F.
  - left. exists ext. apply find_some in F. destruct F as (I & E).
    split; [exact I|split; [exact E|reflexivity]].
  - right. split.
    { intros ext I. exact (find_none _ _ F ext I). }
    unfold http_get, raise_for_status, write_body, bind, modify, ret, raise.
    fold (after_request st u).
    destruct (session_get env _ u) as [|r]; [now left|].
    destruct (status_ok r); [|now left].
    match goal with
    | |- context [_detect_image_format u ?c] =>
        pose proof (ImageCacheFacts.detect_image_format_known u c) as K;
        remember (_detect_image_format u c) as e eqn:He
    end.
    clear He.
    destruct (open_wb env _); [|now left].
    right. exists e. split; [exact K|].
    destruct (body_complete r); [right|left]; reflexivity.
Qed.

Lemma probe_not_cached (self : ImageCache) (env : Env) (u : string)
      (st : Store) :
  not_cached self env u st ->
  find (fun ext =>
          path_exists st
            (path_join (cache_dir self) (_get_cache_filename env u ext)))
       extensions = None.
Proof. intros N. apply find_all_false. exact N. Qed.

Lemma path_exists_after_download (st : Store) (u p q : string) :
  path_exists (after_download st u p) q
  = String.eqb q p || path_exists st q.
Proof. reflexivity. Qed.


(** X7. When a copy of the URL is in the cache under one of the three
    extensions, [get_cached_image] returns the path of a cached copy
    without sending a request or touching the disk. *)
Theorem get_cached_image_hit_sends_nothing
        (self : ImageCache) (env : Env) (u ext : string) (st : Store) :
  truthy (Some u) = true ->
  In ext extensions ->
  path_exists st (cached_path self env u ext) = true ->
  exists ext',
    In ext' extensions
    /\ path_exists st (cached_path self env u ext') = true
    /\ get_cached_image self env (Some u) st
       = (Returns (Some (cached_path self env u ext')), st).
Proof.
  intros T I E.
  destruct (get_cached_image_cases self env u st T)
    as [(ext' & I' & E' & R)|(N & _)].
  - exists ext'. repeat split; assumption.
  - rewrite (N ext I) in E. discriminate.
Qed.

Lemma get_cached_image_hit_sends_nothing_witness :
  exists ext',
    In ext' extensions
    /\ path_exists
         {| files := ["data/thumbnails/aaf1fccd11a990f27c35d627168748cb.png"];
            requests := [] |}
         (cached_path Samples.default_cache Samples.offline
                      Samples.thumbnail_url ext') = true
    /\ get_cached_image Samples.default_cache Samples.offline
         (Some Samples.thumbnail_url)
         {| files := ["data/thumbnails/aaf1fccd11a990f27c35d627168748cb.png"];
            requests := [] |}
       = (Returns (Some (cached_path Samples.default_cache Samples.offline
                                     Samples.thumbnail_url ext')),
          {| files :=
               ["data/thumbnails/aaf1fccd11a990f27c35d627168748cb.png"];
             requests := [] |}).
Proof.
  apply (get_cached_image_hit_sends_nothing Samples.default_cache
           Samples.offline Samples.thumbnail_url "png").
  - reflexivity.
  - simpl. auto.
  - reflexivity.
Defined.

(** X8. When nothing is cached for the URL and the request fails, by a
    transport error or by an error status, [get_cached_image] returns
    [None] after that one request and writes no file. *)
Theorem get_cached_image_failure_writes_nothing
        (self : ImageCache) (env : Env) (u : string) (st : Store) :
  truthy (Some u) = true ->
  not_cached self env u st ->
  (session_get env (List.length (requests st)) u = ConnectionFailed
   \/ exists r,
       session_get env (List.length (requests st)) u = Responded r
       /\ status_ok r = false) ->
  get_cached_image self env (Some u) st
  = (Returns None, after_request st u).
Proof.
  intros T N H. unfold get_cached_image. rewrite T. cbn [negb].
  unfold try_except, bind, Py.get, ret, is_Exception.
  rewrite (probe_not_cached self env u st N).
  unfold http_get, raise_for_status, bind, ret, raise.
  destruct H as [H|(r & H & S)]; rewrite H; [reflexivity|].
  now rewrite S.
Qed.

Lemma get_cached_image_failure_writes_nothing_witness :
  get_cached_image Samples.default_cache Samples.offline
                   (Some Samples.thumbnail_url) Samples.empty_store
  = (Returns None, after_request Samples.empty_store Samples.thumbnail_url).
Proof.
  apply (get_cached_image_failure_writes_nothing Samples.default_cache
           Samples.offline Samples.thumbnail_url Samples.empty_store).
  - reflexivity.
  - intros ext _. reflexivity.
  - left. reflexivity.
Defined.

(** X9. A download that breaks off is served afterwards as if it were
    complete: when the body of the response stops before its end,
    [get_cached_image] returns [None] but leaves the file it had opened,
    and the next call for the same URL returns the path of that file
    without sending any request. *)
Theorem truncated_download_is_served_later
        (self : ImageCache) (env : Env) (u : string) (st : Store)
        (r : Response) :
  truthy (Some u) = true ->
  not_cached self env u st ->
  session_get env (List.length (requests st)) u = Responded r ->
  status_ok r = true ->
  body_complete r = false ->
  open_wb env
    (cached_path self env u
       (_detect_image_format u
          (Some match content_type r with Some ct => ct | None => "" end)))
  = true ->
  twice (get_cached_image self env (Some u)) st
  = (Returns
       (None,
        Some (cached_path self env u
                (_detect_image_format u
                   (Some match content_type r with
                         | Some ct => ct
                         | None => ""
                         end)))),
     after_download st u
       (cached_path self env u
          (_detect_image_format u
             (Some match content_type r with
                   | Some ct => ct
                   | None => ""
                   end)))).
Proof.
  intros T N G S B O.
  remember (_detect_image_format u _) as e eqn:He.
  assert (K : In e extensions)
    by (rewrite He; apply ImageCacheFacts.detect_image_format_known).
  assert (First : get_cached_image self env (Some u) st
                  = (Returns None,
                     after_download st u (cached_path self env u e))).
  { unfold get_cached_image. rewrite T. cbn [negb].
    unfold try_except, bind, Py.get, ret, is_Exception.
    rewrite (probe_not_cached self env u st N).
    unfold http_get, raise_for_status, write_body, bind, modify, ret, raise.
    rewrite G, S. rewrite <- He.
    unfold cached_path in O. rewrite O, B. reflexivity. }
  assert (E : path_exists (after_download st u (cached_path self env u e))
                          (cached_path self env u e) = true)
    by (rewrite path_exists_after_download, String.eqb_refl; reflexivity).
  destruct (get_cached_image_cases self env u
              (after_download st u (cached_path self env u e)) T)
    as [(ext' & I' & E' & R)|(N' & _)];
    [|rewrite (N' e K) in E; discriminate].
  unfold twice. rewrite First, R.
  rewrite path_exists_after_download, (N ext' I'), orb_false_r in E'.
  apply String.eqb_eq in E'. now rewrite E'.
Qed.

Lemma truncated_download_is_served_later_witness :
  twice (get_cached_image Samples.default_cache breaking_off
                          (Some Samples.thumbnail_url)) Samples.empty_store
  = (Returns
       (None, Some "data/thumbnails/aaf1fccd11a990f27c35d627168748cb.jpg"),
     {| files := ["data/thumbnails/aaf1fccd11a990f27c35d627168748cb.jpg"];
        requests := [Samples.thumbnail_url] |}).
Proof.
  apply (truncated_download_is_served_later Samples.default_cache breaking_off
           Samples.thumbnail_url Samples.empty_store truncated_response).
  - reflexivity.
  - intros ext _. reflexivity.
  - reflexivity.
  - reflexivity.
  - reflexivity.
  - reflexivity.
Defined.

(** X10. The extension [_detect_image_format] chooses is always one of
    jpg, png and webp, the three that [get_cached_image] probes; a
    content type that names jpeg or jpg gives jpg whatever the URL, and
    without a content type a URL that contains neither .png nor .webp
    gives jpg. *)
Theorem detect_image_format_rules :
  (forall url content_type,
      In (_detect_image_format url content_type) extensions)
  /\ (forall url ct,
         str_in "jpeg" ct || str_in "jpg" ct = true ->
         _detect_image_format url (Some ct) = "jpg"%string)
  /\ (forall url,
         str_in ".png" (lower url) = false ->
         str_in ".webp" (lower url) = false ->
         _detect_image_format url None = "jpg"%string
         /\ _detect_image_format url (Some "") = "jpg"%string).
Proof.
  split; [exact ImageCacheFacts.detect_image_format_known|]. split.
  - intros url ct H. unfold _detect_image_format.
    assert (T : truthy (Some ct) = true).
    { destruct ct as [|c ct]; [discriminate H|reflexivity]. }
    now rewrite T, H.
  - intros url P W. unfold _detect_image_format. cbn [truthy].
    now rewrite P, W.
Qed.

(** *** The batch *)

Lemma key_eqb_eq (k k' : option string) : key_eqb k k' = true <-> k = k'.
Proof.
  destruct k as [a|], k' as [b|]; cbn; try (split; congruence).
  rewrite String.eqb_eq. split; congruence.
Qed.

Lemma key_eqb_refl (k : option string) : key_eqb k k = true.
Proof. now apply key_eqb_eq. Qed.

Lemma dict_lookup_set (k k' : option string) (v : option string)
      (d : url_dict) :
  dict_lookup k (dict_set k' v d)
  = if key_eqb k k' then Some v else dict_lookup k d.
Proof.
  induction d as [|[k'' v''] d IH]; cbn; [reflexivity|].
  destruct (key_eqb k' k'') eqn:E; cbn.
  - apply key_eqb_eq in E. subst k''. now destruct (key_eqb k k').
  - rewrite IH. destruct (key_eqb k k'') eqn:E1, (key_eqb k k') eqn:E2;
      try reflexivity.
    apply key_eqb_eq in E1, E2. subst k' k''.
    now rewrite key_eqb_refl in E.
Qed.

Lemma dict_set_length (k : option string) (v : option string)
      (d : url_dict) :
  List.length (dict_set k v d) <= S (List.length d).
Proof.
  induction d as [|[k' v'] d IH]; cbn; [lia|].
  destruct (key_eqb k k'); cbn; lia.
Qed.

(** One call: it returns, keeps every file, sends at most one request
    (none for an empty URL), and a path it returns exists. *)
Lemma get_cached_image_effect (self : ImageCache) (env : Env)
      (url : option string) (st : Store) :
  exists r st',
    get_cached_image self env url st = (Returns r, st')
    /\ (forall q, path_exists st q = true -> path_exists st' q = true)
    /\ (forall p, r = Some p -> path_exists st' p = true)
    /\ List.length (requests st')
       <= List.length (requests st) + (if truthy url then 1 else 0)
    /\ (truthy url = false -> r = None /\ st' = st).
Proof.
  destruct (truthy url) eqn:T.
  2:{ exists None, st.
      rewrite (ImageCacheFacts.get_cached_image_empty_url_aux
                 self env url st T).
      repeat split; auto; try discriminate. lia. }
  destruct url as [u|]; [|discriminate].
  destruct (get_cached_image_cases self env u st T)
    as [(ext & I & E & R)|(N & [R|(ext & I & [R|R])])];
    rewrite R; eexists _, _; (split; [reflexivity|]);
    (split;
     [intros q Hq; rewrite ?path_exists_after_download, ?Hq;
      now rewrite ?orb_true_r|]);
    (split;
     [intros p [= <-];
      first [assumption
            |rewrite path_exists_after_download, String.eqb_refl;
             reflexivity]
      || discriminate|]);
    (split; [cbn; rewrite ?length_app; cbn; lia|discriminate]).
Qed.

Lemma batch_loop_effect (self : ImageCache) (env : Env)
      (urls : list (option string)) :
  forall (acc : url_dict) (st : Store),
    paths_exist st acc ->
    exists results st',
      batch_loop self env urls acc st = (Returns results, st')
      /\ (forall k,
             (In k urls ->
              exists v, dict_lookup k results = Some v
                        /\ (truthy k = false -> v = None))
             /\ (forall v, dict_lookup k acc = Some v ->
                           exists v', dict_lookup k results = Some v'
                                      /\ (truthy k = false -> v = None ->
                                          v' = None)))
      /\ paths_exist st' results
      /\ (forall q, path_exists st q = true -> path_exists st' q = true)
      /\ List.length (requests st')
         <= List.length (requests st) + count_urls urls
      /\ List.length results <= List.length acc + List.length urls
      /\ (count_urls urls = 0 -> st' = st).
Proof.
  induction urls as [|url rest IH]; intros acc st PE.
  - exists acc, st. cbn. unfold ret, count_urls. cbn.
    split; [reflexivity|]. split.
    { intros k. split; [intros []|]. intros v H. exists v. auto. }
    repeat split; auto; lia.
  - cbn [batch_loop]. unfold count_urls. cbn [List.filter].
    destruct (get_cached_image_effect self env url st)
      as (r & st1 & R & Mono & Post & Req & Empty).
    assert (Step :
              exists val st1',
                (if truthy url
                 then bind (get_cached_image self env url)
                           (fun path =>
                              batch_loop self env rest
                                         (dict_set url path acc))
                 else batch_loop self env rest (dict_set url None acc)) st
                = batch_loop self env rest (dict_set url val acc) st1'
                /\ (truthy url = false -> val = None)
                /\ paths_exist st1' (dict_set url val acc)
                /\ (forall q, path_exists st q = true ->
                              path_exists st1' q = true)
                /\ List.length (requests st1')
                   <= List.length (requests st)
                      + (if truthy url then 1 else 0)
                /\ (truthy url = false -> st1' = st)).
    { destruct (truthy url) eqn:T.
      - exists r, st1. unfold bind. rewrite R.
        split; [reflexivity|]. split; [discriminate|]. split.
        + intros k p. rewrite dict_lookup_set.
          destruct (key_eqb k url); [intros [= ->]; now apply Post|].
          intros H. apply Mono. exact (PE k p H).
        + repeat split; auto. discriminate.
      - exists None, st. split; [reflexivity|]. split; [reflexivity|].
        split.
        + intros k p. rewrite dict_lookup_set.
          destruct (key_eqb k url); [discriminate|]. apply PE.
        + repeat split; auto. lia. }
    destruct Step as (val & st1' & -> & VE & PE1 & Mono1 & Req1 & Same).
    destruct (IH (dict_set url val acc) st1' PE1)
      as (results & st' & L & Keys & PE' & Mono' & Req' & Len & Zero).
    exists results, st'. split; [exact L|]. split.
    { intros k. split.
      - intros [<-|I]; [|now apply (Keys k)].
        destruct (proj2 (Keys url) val) as (v' & Hv' & N).
        { now rewrite dict_lookup_set, key_eqb_refl. }
        exists v'. split; [exact Hv'|]. intros T. apply N; auto.
      - intros v Hv.
        destruct (key_eqb k url) eqn:E.
        + destruct (proj2 (Keys k) val) as (v' & Hv' & N).
          { now rewrite dict_lookup_set, E. }
          exists v'. split; [exact Hv'|]. intros T _.
          apply key_eqb_eq in E. subst k. apply N; auto.
        + destruct (proj2 (Keys k) v) as (v' & Hv' & N).
          { now rewrite dict_lookup_set, E. }
          exists v'. split; assumption. }
    split; [exact PE'|]. split; [auto|].
    pose proof (dict_set_length url val acc) as DL.
    unfold count_urls in *.
    split; [destruct (truthy url); cbn [List.length]; lia|].
    split; [cbn [List.length]; lia|].
    intros Z. destruct (truthy url); [cbn in Z; discriminate|].
    rewrite (Zero Z). now apply Same.
Qed.

(** X11. [get_cached_image_batch] never raises. Its result has an entry
    for every URL of the batch, [None] for the empty ones, and every path
    in it is a file that exists when the batch ends; the batch sends at
    most one request for each non-empty URL of the list, and a batch of
    empty URLs leaves the store as it was. *)
Theorem get_cached_image_batch_covers_every_url
        (self : ImageCache) (env : Env) (urls : list (option string))
        (st : Store) :
  exists results st',
    get_cached_image_batch self env urls st = (Returns results, st')
    /\ (forall url, In url urls ->
                    exists v, dict_lookup url results = Some v
                              /\ (truthy url = false -> v = None)
                              /\ (forall p, v = Some p ->
                                            path_exists st' p = true))
    /\ List.length (requests st')
       <= List.length (requests st) + count_urls urls
    /\ List.length results <= List.length urls
    /\ (count_urls urls = 0 -> st' = st).
Proof.
  unfold get_cached_image_batch.
  destruct (batch_loop_effect self env urls [] st)
    as (results & st' & L & Keys & PE & _ & Req & Len & Zero).
  { intros k p H. discriminate H. }
  exists results, st'. split; [exact L|]. split.
  - intros url I. destruct (proj1 (Keys url) I) as (v & Hv & N).
    exists v. split; [exact Hv|]. split; [exact N|].
    intros p ->. exact (PE url p Hv).
  - repeat split; auto.
Qed.

(** *** The module-level instance *)

(** The requests of a call: none, or one for the URL itself. *)
Lemma get_cached_image_requests (self : ImageCache) (env : Env)
      (url : option string) (st st' : Store)
      (r : pyresult (option string)) :
  get_cached_image self env url st = (r, st') ->
  requests st' = requests st
  \/ exists u, url = Some u /\ requests st' = requests st ++ [u].
Proof.
  destruct (truthy url) eqn:T.
  2:{ rewrite (ImageCacheFacts.get_cached_image_empty_url_aux
                 self env url st T).
      intros [= _ <-]. now left. }
  destruct url as [u|]; [|discriminate].
  destruct (get_cached_image_cases self env u st T)
    as [(ext & I & E & R)|(N & [R|(ext & I & [R|R])])];
    rewrite R; intros [= _ <-]; [now left| | |];
    right; exists u; split; reflexivity.
Qed.

(** What [cache_image] does when it returns: no file is lost, the path
    it gives is a file, and it has sent no request or one for the URL. *)
Lemma cache_image_effect (env : Env) (url : option string)
      (g g' : Globals) (r : option string) :
  cache_image env url g = (Returns r, g') ->
  (forall q, path_exists (store g) q = true ->
             path_exists (store g') q = true)
  /\ (forall p, r = Some p -> path_exists (store g') p = true)
  /\ (requests (store g') = requests (store g)
      \/ exists u,
        url = Some u /\ requests (store g') = requests (store g) ++ [u]).
Proof.
  destruct (ImageCacheFacts.cache_image_cases env url g)
    as [(cache & r0 & st' & _ & E & C)|(_ & _ & C)];
    rewrite C; [|discriminate].
  intros [= <- <-]. cbn [store].
  destruct (get_cached_image_effect cache env url (store g))
    as (r1 & st1 & R & Mono & Post & _).
  rewrite E in R. injection R as <- <-.
  split; [exact Mono|]. split; [exact Post|].
  exact (get_cached_image_requests cache env url _ _ _ E).
Qed.

End ImageCacheExtras.

(** ** More on the matcher *)

Module MatcherExtras.
Import YouTubeMusic Matching Ranking.

Local Open Scope float_scope.

Lemma insert_desc_permutation (x : Processed.t) (l : list Processed.t) :
  Permutation (insert_desc x l) (x :: l).
Proof.
  induction l as [|y l IH]; cbn; [apply Permutation_refl|].
  destruct (Processed.match_confidence x <? Processed.match_confidence y).
  - apply perm_trans with (y :: x :: l); [now apply perm_skip|].
    apply perm_swap.
  - apply Permutation_refl.
Qed.

Lemma sort_permutation (l : list Processed.t) :
  Permutation (sort_by_confidence_desc l) l.
Proof.
  induction l as [|x l IH]; cbn; [apply perm_nil|].
  apply perm_trans with (x :: sort_by_confidence_desc l).
  - apply insert_desc_permutation.
  - now apply perm_skip.
Qed.

Lemma insert_desc_sorted (x : Processed.t) (l : list Processed.t) :
  scored (x :: l) ->
  StronglySorted not_below l -> StronglySorted not_below (insert_desc x l).
Proof.
  intros S H. induction H as [|y l H IH F]; cbn.
  - constructor; constructor.
  - assert (Sx : In (Processed.match_confidence x) score_values)
      by (apply S; cbn; auto).
    assert (Sy : In (Processed.match_confidence y) score_values)
      by (apply S; cbn; auto).
    destruct (Processed.match_confidence x <? Processed.match_confidence y)
      eqn:E.
    + constructor.
      * apply IH. intros c [<-|Hc]; apply S; cbn; auto.
      * apply Forall_forall. intros c Hc.
        apply MatcherFacts.in_insert_desc in Hc. destruct Hc as [->|Hc].
        -- now apply MatcherFacts.value_lt_leq.
        -- rewrite Forall_forall in F. now apply F.
    + constructor; [now constructor|].
      constructor; [now apply MatcherFacts.value_not_lt_leq|].
      apply Forall_forall. intros c Hc. unfold not_below.
      apply MatcherFacts.value_leq_trans
        with (y := Processed.match_confidence y); try assumption.
      * apply S; cbn; auto.
      * rewrite Forall_forall in F. now apply F.
      * now apply MatcherFacts.value_not_lt_leq.
Qed.

Lemma sort_sorted (l : list Processed.t) :
  scored l -> StronglySorted not_below (sort_by_confidence_desc l).
Proof.
  induction l as [|x l IH]; intros S; cbn; [constructor|].
  apply insert_desc_sorted.
  - intros c [<-|Hc]; [apply S; cbn; auto|].
    apply S. right. now apply MatcherFacts.in_sort_by_confidence_desc.
  - apply IH. intros c Hc. apply S. now right.
Qed.

Lemma score_values_separated : lt_separates_on score_values = true.
Proof. vm_compute. reflexivity. Qed.

Lemma lt_not_both_equal (x y v : float) :
  In x score_values -> In y score_values -> In v score_values ->
  (x <? y) = true -> (x =? v) = true -> (y =? v) = false.
Proof.
  intros Hx Hy Hv L E.
  pose proof score_values_separated as T. unfold lt_separates_on in T.
  rewrite forallb_forall in T. specialize (T x Hx).
  rewrite forallb_forall in T. specialize (T y Hy).
  rewrite forallb_forall in T. specialize (T v Hv).
  rewrite L, E in T. cbn in T. now destruct (y =? v).
Qed.

(** Inserting [x] puts it before every element of its own confidence. *)
Lemma filter_insert_desc (c x : Processed.t) (l : list Processed.t) :
  scored (c :: x :: l) ->
  List.filter (same_confidence c) (insert_desc x l)
  = List.filter (same_confidence c) (x :: l).
Proof.
  intros S. induction l as [|y l IH]; [reflexivity|].
  cbn [insert_desc].
  destruct (Processed.match_confidence x <? Processed.match_confidence y)
    eqn:E; [|reflexivity].
  cbn [List.filter]. rewrite IH.
  2:{ intros d [<-|[<-|Hd]]; apply S; cbn; auto. }
  cbn [List.filter].
  destruct (same_confidence c x) eqn:Ex; [|reflexivity].
  unfold same_confidence in *.
  rewrite (lt_not_both_equal (Processed.match_confidence x)
             (Processed.match_confidence y) (Processed.match_confidence c));
    try assumption; try (apply S; cbn; auto).
  reflexivity.
Qed.

Lemma filter_sort (c : Processed.t) (l : list Processed.t) :
  scored (c :: l) ->
  List.filter (same_confidence c) (sort_by_confidence_desc l)
  = List.filter (same_confidence c) l.
Proof.
  intros S. induction l as [|x l IH]; [reflexivity|].
  cbn [sort_by_confidence_desc fold_right].
  fold (sort_by_confidence_desc l).
  rewrite filter_insert_desc.
  - cbn [List.filter]. rewrite IH; [reflexivity|].
    intros d [<-|Hd]; apply S; cbn; auto.
  - intros d [<-|[<-|Hd]]; apply S; cbn; auto.
    right. right.
    exact (proj1 (MatcherFacts.in_sort_by_confidence_desc d l) Hd).
Qed.

(** X12. When the search API answers, [search_track] returns every song
    of the answer, processed (the list is a permutation of the processed
    answer: nothing is dropped or cut to [limit]), by descending
    confidence, the songs of equal confidence in the order of the
    answer. *)
Theorem search_track_ranks_the_answer
        (ytmusic : YTMusic) (artist track_name : string) (limit : nat)
        (w : World) (results : list yt_result) :
  search ytmusic (List.length (queries w))
         (artist ++ " " ++ track_name)%string limit = Some results ->
  exists l,
    fst (search_track ytmusic artist track_name limit w) = Returns l
    /\ Permutation l (List.map (process_result artist track_name) results)
    /\ StronglySorted not_below l
    /\ forall c, In c l ->
                 List.filter (same_confidence c) l
                 = List.filter (same_confidence c)
                     (List.map (process_result artist track_name) results).
Proof.
  intros A.
  unfold search_track, try_except, bind, ytmusic_search, ret, is_Exception.
  rewrite A. cbn [fst]. eexists. split; [reflexivity|].
  pose proof (MatcherFacts.processed_scored artist track_name results) as S.
  split; [apply sort_permutation|]. split; [now apply sort_sorted|].
  intros c Hc. apply filter_sort.
  intros d [<-|Hd]; [|now apply S].
  apply S. now apply MatcherFacts.in_sort_by_confidence_desc.
Qed.

Lemma search_track_ranks_the_answer_witness :
  exists l,
    fst (search_track ytmusic_versions "Daft Punk" "One More Time" 3
                      fresh_world) = Returns l
    /\ List.map Processed.youtube_video_id l = ["v2"; "v1"; "v3"; "v0"]%string
    /\ StronglySorted not_below l.
Proof.
  destruct (search_track_ranks_the_answer ytmusic_versions "Daft Punk"
              "One More Time" 3 fresh_world _ eq_refl)
    as (l & E & _ & S & _).
  exists l. split; [exact E|]. split; [|exact S].
  vm_compute in E. injection E as <-. reflexivity.
Defined.

(** *** Rows and their thumbnails *)

Lemma search_playlist_row_thumbnail (ytmusic : YTMusic)
      (env : ImageCache.Env) (top_results : nat) (row : Spotify.Row)
      (w w' : World) (m : Combined.t) :
  search_playlist_row ytmusic env top_results row w = (Returns m, w') ->
  (forall q, ImageCache.path_exists (store_of w) q = true ->
             ImageCache.path_exists (store_of w') q = true)
  /\ thumbnail_localised (store_of w') m
  /\ exists l,
      ImageCache.requests (store_of w')
      = ImageCache.requests (store_of w) ++ l
      /\ (l = []
          \/ (l = [Combined.youtube_thumbnail m]
              /\ Combined.youtube_thumbnail m <> ""%string)).
Proof.
  unfold search_playlist_row, bind.
  rewrite MatcherFacts.search_track_returns.
  destruct (match search ytmusic _ _ top_results with
            | Some results => _
            | None => []
            end) as [|best rest].
  - unfold ret. intros [= <- <-]. unfold store_of. cbn [image_cache].
    split; [auto|]. split; [split; [reflexivity|discriminate]|].
    exists []. rewrite app_nil_r. auto.
  - destruct (truthy (Some (Processed.youtube_thumbnail best))) eqn:T.
    + unfold cache_image. cbn [image_cache queries].
      destruct (ImageCache.cache_image env
                  (Some (Processed.youtube_thumbnail best))
                  (image_cache w)) as [[path|e] g'] eqn:C; [|discriminate].
      unfold ret. intros [= <- <-]. unfold store_of. cbn [image_cache].
      destruct (ImageCacheExtras.cache_image_effect _ _ _ _ _ C)
        as (Mono & Post & Req).
      assert (N : Processed.youtube_thumbnail best <> ""%string)
        by (intros Z; rewrite Z in T; discriminate).
      split; [exact Mono|]. split.
      * split; cbn; [intros Z; now elim N|exact Post].
      * destruct Req as [Req|(u & [= <-] & Req)].
        -- exists []. rewrite app_nil_r. auto.
        -- exists [Processed.youtube_thumbnail best]. cbn. auto.
    + unfold ret. intros [= <- <-]. unfold store_of. cbn [image_cache].
      split; [auto|]. split; [split; [reflexivity|discriminate]|].
      exists []. rewrite app_nil_r. auto.
Qed.

Lemma thumbnail_localised_mono (st st' : ImageCache.Store)
      (l : list Combined.t) :
  (forall q, ImageCache.path_exists st q = true ->
             ImageCache.path_exists st' q = true) ->
  Forall (thumbnail_localised st) l -> Forall (thumbnail_localised st') l.
Proof.
  intros Mono. apply Forall_impl. intros a (Z & P).
  split; [exact Z|]. intros p Hp. apply Mono. now apply P.
Qed.

Lemma search_playlist_loop_thumbnails (ytmusic : YTMusic)
      (env : ImageCache.Env) (top_results : nat) (rows : list Spotify.Row) :
  forall (acc res : list Combined.t) (w w' : World),
    search_playlist_loop ytmusic env top_results rows acc w
    = (Returns res, w') ->
    (forall q, ImageCache.path_exists (store_of w) q = true ->
               ImageCache.path_exists (store_of w') q = true)
    /\ exists out sent,
        res = acc ++ out
        /\ Forall (thumbnail_localised (store_of w')) out
        /\ one_request_per_row out sent
        /\ ImageCache.requests (store_of w')
           = ImageCache.requests (store_of w) ++ List.concat sent.
Proof.
  induction rows as [|row rows IH]; intros acc res w w';
    cbn [search_playlist_loop].
  - unfold ret. intros [= <- <-]. split; [auto|].
    exists [], []. cbn. rewrite !app_nil_r.
    repeat split; constructor.
  - unfold bind.
    destruct (search_playlist_row ytmusic env top_results row w)
      as [[m|e] w1] eqn:E; [|discriminate].
    destruct (search_playlist_row_thumbnail _ _ _ _ _ _ _ E)
      as (Mono & T & l & Req & Hl).
    intros L.
    destruct (IH _ _ _ _ L) as (Mono' & out & sent & -> & F & O & Req').
    split; [auto|].
    exists (m :: out), (l :: sent).
    split; [now rewrite <- app_assoc|]. split.
    { constructor; [|exact F].
      destruct T as (Z & P). split; [exact Z|].
      intros p Hp. apply Mono'. now apply P. }
    split; [now constructor|].
    cbn [List.concat]. now rewrite Req', Req, <- app_assoc.
Qed.

(** X13. The thumbnails of a run of [search_playlist_tracks] that
    returns: for each row no image request is sent, or one, for the
    thumbnail of that row, and none when the row has no thumbnail URL;
    such a row has no local copy; and the local copy recorded in a row
    is a file that exists when the run ends. *)
Theorem search_playlist_tracks_localises_thumbnails
        (ytmusic : YTMusic) (env : ImageCache.Env)
        (spotify_df : list Spotify.Row) (top_results : nat) (w w' : World)
        (out : list Combined.t) :
  search_playlist_tracks ytmusic env spotify_df top_results w
  = (Returns out, w') ->
  Forall (thumbnail_localised (store_of w')) out
  /\ exists sent,
      one_request_per_row out sent
      /\ ImageCache.requests (store_of w')
         = ImageCache.requests (store_of w) ++ List.concat sent.
Proof.
  unfold search_playlist_tracks. intros E.
  destruct (search_playlist_loop_thumbnails _ _ _ _ _ _ _ _ E)
    as (_ & out' & sent & -> & F & O & Req).
  cbn [app]. split; [exact F|]. now exists sent.
Qed.

Lemma search_playlist_tracks_localises_thumbnails_witness :
  exists out w',
    search_playlist_tracks ytmusic_hit Samples.online [one_more_time] 3
                           fresh_world
    = (Returns out, w')
    /\ Forall (thumbnail_localised (store_of w')) out
    /\ exists sent,
        one_request_per_row out sent
        /\ ImageCache.requests (store_of w')
           = ImageCache.requests (store_of fresh_world) ++ List.concat sent.
Proof.
  eexists _, _. split; [vm_compute; reflexivity|].
  match goal with
  | |- Forall (thumbnail_localised (store_of ?w')) ?out /\ _ =>
      exact (search_playlist_tracks_localises_thumbnails
               ytmusic_hit Samples.online [one_more_time] 3 fresh_world
               w' out ltac:(vm_compute; reflexivity))
  end.
Defined.

(** *** [get_best_matches] *)

Lemma merges_best_not_negative (ytmusic : YTMusic) (top_results n : nat)
      (row : Spotify.Row) (m : Combined.t) :
  merges_best ytmusic top_results n row m ->
  (0 <=? Combined.match_confidence m) = true.
Proof.
  unfold merges_best.
  destruct (search ytmusic n (query_of row) top_results) as [[|r rs]|].
  - now intros (-> & _).
  - now intros (best & path & _ & -> & L & _).
  - now intros (-> & _).
Qed.

Lemma rows_made_not_negative (ytmusic : YTMusic) (top_results : nat)
      (rows : list Spotify.Row) :
  forall (n : nat) (out : list Combined.t),
    rows_made ytmusic top_results n rows out ->
    Forall (fun m => (0 <=? Combined.match_confidence m) = true) out.
Proof.
  induction rows as [|row rows IH]; intros n [|m out] H;
    cbn [rows_made] in H; try contradiction; constructor.
  - destruct H as (_ & B & _).
    exact (merges_best_not_negative _ _ _ _ _ B).
  - destruct H as (_ & _ & F). exact (IH _ _ F).
Qed.

Lemma filter_all_true {A} (f : A -> bool) (l : list A) :
  Forall (fun x => f x = true) l -> List.filter f l = l.
Proof.
  induction 1 as [|x l H _ IH]; cbn; [reflexivity|].
  now rewrite H, IH.
Qed.

Lemma sublist_filter {A} (f : A -> bool) (l : list A) :
  sublist (List.filter f l) l.
Proof.
  induction l as [|x l IH]; cbn; [constructor|].
  destruct (f x); now constructor.
Qed.

Lemma sublist_map {A B} (f : A -> B) (l l' : list A) :
  sublist l l' -> sublist (List.map f l) (List.map f l').
Proof. induction 1; cbn; now constructor. Qed.

Lemma get_best_matches_returns (ytmusic : YTMusic) (env : ImageCache.Env)
      (spotify_df : list Spotify.Row) (confidence_threshold : float)
      (w w' : World) (out : list Combined.t) :
  get_best_matches ytmusic env spotify_df confidence_threshold w
  = (Returns out, w') ->
  exists full,
    search_playlist_tracks ytmusic env spotify_df 3 w = (Returns full, w')
    /\ full <> []
    /\ out = List.filter
               (fun m => confidence_threshold
                         <=? Combined.match_confidence m) full.
Proof.
  unfold get_best_matches, bind.
  destruct (search_playlist_tracks ytmusic env spotify_df 3 w)
    as [[full|e] w1]; [|discriminate].
  destruct full as [|m0 full]; [discriminate|].
  unfold ret. intros [= <- <-].
  exists (m0 :: full). repeat split. discriminate.
Qed.

(** X14. When [get_best_matches] returns, the playlist had at least one
    track (on an empty playlist the confidence column is missing and the
    filter raises), the search of the whole playlist with three results
    per track has returned, and the result is its rows of confidence at
    least the threshold: rows of input tracks, at most one for each, in
    the order of the input; with the threshold 0.0 no row is left
    out. *)
Theorem get_best_matches_filters_rows
        (ytmusic : YTMusic) (env : ImageCache.Env)
        (spotify_df : list Spotify.Row) (confidence_threshold : float)
        (w w' : World) (out : list Combined.t) :
  get_best_matches ytmusic env spotify_df confidence_threshold w
  = (Returns out, w') ->
  spotify_df <> []
  /\ exists full,
      search_playlist_tracks ytmusic env spotify_df 3 w
      = (Returns full, w')
      /\ List.map spotify_part full = spotify_df
      /\ out = List.filter
                 (fun m => confidence_threshold
                           <=? Combined.match_confidence m) full
      /\ Forall (fun m => (confidence_threshold
                           <=? Combined.match_confidence m) = true) out
      /\ sublist (List.map spotify_part out) spotify_df
      /\ (confidence_threshold = 0 -> out = full).
Proof.
  intros H.
  destruct (get_best_matches_returns _ _ _ _ _ _ _ H)
    as (full & E & NE & ->).
  pose proof E as E0. unfold search_playlist_tracks in E0.
  destruct (MatcherFacts.search_playlist_loop_returns _ _ _ _ _ _ _ _ E0)
    as (full' & F0 & _ & F).
  cbn [app] in F0. subst full'.
  destruct (MatcherFacts.rows_made_nth _ _ _ _ _ F) as (L & M & _).
  pose proof (rows_made_not_negative _ _ _ _ _ F) as NN.
  split.
  { intros Z. rewrite Z in L. destruct full; [now elim NE|discriminate L]. }
  exists full. split; [exact E|]. split; [exact M|].
  split; [reflexivity|]. split.
  { apply Forall_forall. intros m Hm. apply filter_In in Hm. apply Hm. }
  split.
  { rewrite <- M. apply sublist_map, sublist_filter. }
  intros ->. now apply filter_all_true.
Qed.

Lemma get_best_matches_filters_rows_witness :
  exists out w',
    get_best_matches ytmusic_hit Samples.online [one_more_time] 0.7
                     fresh_world
    = (Returns out, w')
    /\ List.map spotify_part out = [one_more_time]
    /\ Forall (fun m => (0.7 <=? Combined.match_confidence m) = true) out.
Proof.
  eexists _, _. split; [vm_compute; reflexivity|].
  match goal with
  | |- List.map spotify_part ?out = _ /\ _ =>
      destruct (get_best_matches_filters_rows
                  ytmusic_hit Samples.online [one_more_time] 0.7
                  fresh_world _ out ltac:(vm_compute; reflexivity))
        as (_ & full & _ & _ & _ & T & _)
  end.
  split; [reflexivity|exact T].
Defined.

End MatcherExtras.

(** ** More on the playlist service *)

Module PlaylistExtras.
Import YouTubePlaylist Syncing SyncTrace.


Lemma firstn_insert_calls_cons (playlist_id : string) (track : TrackRow)
      (rest : list TrackRow) (k : nat) :
  PlaylistItemsInsert playlist_id (video_id_of track)
  :: firstn k (insert_calls playlist_id rest)
  = firstn (S k) (insert_calls playlist_id (track :: rest)).
Proof. reflexivity. Qed.





(** A first part of the loop that goes through: the loop goes on with
    the rest, from the world the insertions of that part leave. *)
Lemma add_tracks_loop_prefix (env : Env) (playlist_id : string)
      (pre rest : list TrackRow) :
  forall (w : World) (tracks_added : nat) (tracks_failed : list Failed.t),
    session_holds env w (List.length pre) ->
    client_built w ->
    (forall i video_id,
        i < List.length pre ->
        playlist_items_insert env (List.length (api_calls w) + i)
                              playlist_id video_id <> ApiOtherError) ->
    add_tracks_loop env playlist_id (pre ++ rest) tracks_added
                    tracks_failed w
    = add_tracks_loop env playlist_id rest
        (tracks_added
         + count_true (inserted env playlist_id (List.length (api_calls w))
                                pre))
        (tracks_failed
           ++ not_inserted pre
                (inserted env playlist_id (List.length (api_calls w)) pre))
        (after_calls env w (insert_calls playlist_id pre)).
Proof.
  induction pre as [|track pre IH]; intros w added failed S B N.
  - cbn. unfold count_true. cbn.
    now rewrite Nat.add_0_r, app_nil_r, PlaylistFacts.after_calls_nil.
  - cbn [app add_tracks_loop]. unfold bind.
    assert (N0 : playlist_items_insert env (List.length (api_calls w))
                   playlist_id (video_id_of track) <> ApiOtherError).
    { specialize (N 0 (video_id_of track)). rewrite Nat.add_0_r in N.
      apply N. cbn. lia. }
    rewrite (PlaylistFacts.add_video_to_playlist_answers env playlist_id
               (video_id_of track) w _ S B N0).
    cbn [List.length] in S.
    pose proof (PlaylistFacts.session_holds_after env w
                  (PlaylistItemsInsert playlist_id (video_id_of track))
                  _ S) as S1.
    cbn [inserted insert_calls List.map].
    rewrite PlaylistFacts.count_true_cons.
    assert (L : List.length
                  (api_calls
                     (after_calls env w
                        [PlaylistItemsInsert playlist_id
                                             (video_id_of track)]))
                = Datatypes.S (List.length (api_calls w))).
    { cbn. rewrite length_app. cbn. lia. }
    assert (N1 : forall i video_id,
               i < List.length pre ->
               playlist_items_insert env
                 (List.length
                    (api_calls
                       (after_calls env w
                          [PlaylistItemsInsert playlist_id
                                               (video_id_of track)])) + i)
                 playlist_id video_id <> ApiOtherError).
    { intros i v Hi. rewrite L.
      replace (Datatypes.S (List.length (api_calls w)) + i)
        with (List.length (api_calls w) + Datatypes.S i) by lia.
      apply N. cbn. lia. }
    destruct (playlist_items_insert env _ playlist_id (video_id_of track));
      rewrite (IH _ _ _ S1 B N1), L, PlaylistFacts.after_calls_cons;
      cbn [not_inserted].
    + now rewrite Nat.add_assoc.
    + now rewrite <- app_assoc.
    + now rewrite <- app_assoc.
Qed.

(** X16. A run of a service whose client is built is cut short when an
    insertion raises something that is not an HTTP error: the playlist
    has been created and the tracks before the failing one have been
    tried, the failing call has been made, the tracks after it are never
    tried, and the sync raises instead of returning a result. *)
Theorem create_playlist_from_tracks_aborts_on_other_error
        (env : Env) (playlist_name : string) (tracks_df : list TrackRow)
        (confidence_threshold : float) (description : string) (w : World)
        (playlist : PlaylistResource) (pre post : list TrackRow)
        (track : TrackRow) :
  List.filter (is_valid_track confidence_threshold) tracks_df
  = pre ++ track :: post ->
  session_holds env w (S (List.length pre)) ->
  client_built w ->
  playlists_insert env (List.length (api_calls w)) playlist_name
    (playlist_desc description (pre ++ track :: post)) "private"
  = ApiOk playlist ->
  (forall i video_id,
      i < List.length pre ->
      playlist_items_insert env (S (List.length (api_calls w)) + i)
                            (id playlist) video_id <> ApiOtherError) ->
  playlist_items_insert env
    (S (List.length (api_calls w)) + List.length pre) (id playlist)
    (video_id_of track) = ApiOtherError ->
  create_playlist_from_tracks env playlist_name tracks_df
                              confidence_threshold description w
  = (Raises OtherException,
     after_calls env w
       (PlaylistsInsert playlist_name
          (playlist_desc description (pre ++ track :: post)) "private"
        :: insert_calls (id playlist) (pre ++ [track]))).
Proof.
  intros V S Y C N B.
  unfold create_playlist_from_tracks, bind.
  rewrite (PlaylistFacts.session_holds_now env w _ S). cbn [negb].
  rewrite V. rewrite PlaylistFacts.length_zero_eqb.
  destruct (pre ++ track :: post) as [|t0 l0] eqn:Z;
    [now destruct pre|].
  rewrite <- Z in *.
  fold (playlist_desc description (pre ++ track :: post)).
  rewrite (PlaylistFacts.create_playlist_answers env _ _ _ w _ S Y), C.
  set (w1 := after_calls env w
               [PlaylistsInsert playlist_name
                  (playlist_desc description (pre ++ track :: post))
                  "private"]).
  assert (L1 : List.length (api_calls w1)
               = Datatypes.S (List.length (api_calls w))).
  { subst w1. cbn. rewrite length_app. cbn. lia. }
  pose proof (PlaylistFacts.session_holds_after env w
                (PlaylistsInsert playlist_name
                   (playlist_desc description (pre ++ track :: post))
                   "private") _ S) as S1.
  fold w1 in S1.
  rewrite (add_tracks_loop_prefix env (id playlist) pre (track :: post)
             w1 0 [] S1 Y).
  2:{ intros i v Hi. rewrite L1. now apply N. }
  set (w2 := after_calls env w1 (insert_calls (id playlist) pre)).
  assert (A2 : is_authenticated w2 = (Returns true, w2)).
  { destruct S as (c & Cr & Va).
    unfold is_authenticated, gets. subst w2 w1.
    cbn [self after_calls now api_calls]. rewrite Cr.
    specialize (Va (Datatypes.S (List.length pre)) (le_n _)).
    cbn [elapsed_sum] in Va.
    rewrite length_app. cbn [List.length].
    unfold insert_calls. rewrite length_map.
    replace (List.length (api_calls w) + 1)
      with (Datatypes.S (List.length (api_calls w))) by lia.
    cbn [elapsed_sum]. rewrite Nat.add_0_r, <- Nat.add_assoc.
    now rewrite Va. }
  assert (L2 : List.length (api_calls w2)
               = Datatypes.S (List.length (api_calls w)) + List.length pre).
  { subst w2. cbn [after_calls api_calls]. rewrite length_app, L1.
    unfold insert_calls. now rewrite length_map. }
  cbn [add_tracks_loop]. unfold bind, add_video_to_playlist, bind.
  rewrite A2. cbn [negb].
  unfold try_except, bind.
  rewrite (PlaylistFacts.youtube_resource_built w2 Y).
  unfold execute. rewrite L2, B. cbn [is_HttpError].
  f_equal. subst w2 w1.
  rewrite <- (PlaylistFacts.after_calls_cons env w _
                (insert_calls (id playlist) (pre ++ [track]))).
  unfold insert_calls. rewrite map_app. cbn [List.map].
  unfold after_calls. cbn [self now api_calls token_file].
  rewrite !length_app, !length_map. cbn [List.length].
  rewrite <- !app_assoc. f_equal.
  rewrite PlaylistFacts.elapsed_sum_add. cbn [elapsed_sum].
  rewrite !Nat.add_0_r, !Nat.add_1_r. lia.
Qed.

Lemma create_playlist_from_tracks_aborts_on_other_error_witness :
  create_playlist_from_tracks breaking_down "Road trip"
    [good_track; weak_track; second_track; third_track] 0.7%float ""
    signed_in
  = (Raises OtherException,
     {| self := self signed_in;
        now := 3;
        api_calls :=
          [PlaylistsInsert "Road trip"
             "Created from Spotify playlist with 3 tracks" "private";
           PlaylistItemsInsert "PL123" "FGBhQbmPwH8";
           PlaylistItemsInsert "PL123" "QOngRDVtEQI"];
        token_file := token_file signed_in |}).
Proof.
  assert (H2 : session_holds breaking_down signed_in 2).
  { apply PlaylistFacts.session_holds_until
      with (c := session) (tok := "ya29.a0AfH6SM"%string) (e := 3600);
      try reflexivity.
    vm_compute. lia. }
  assert (H4 : forall i video_id,
             i < List.length [good_track] ->
             playlist_items_insert breaking_down
               (S (List.length (api_calls signed_in)) + i)
               (id {| id := "PL123" |}) video_id <> ApiOtherError).
  { intros i v Hi. cbn in Hi. replace i with 0 by lia. discriminate. }
  exact (create_playlist_from_tracks_aborts_on_other_error
           breaking_down "Road trip"
           [good_track; weak_track; second_track; third_track] 0.7%float ""
           signed_in {| id := "PL123" |} [good_track] [third_track]
           second_track eq_refl H2 eq_refl eq_refl H4 eq_refl).
Defined.

(** X17. [authenticate_with_code] returns [True] exactly when a flow is
    pending, the provider grants the code, the token file can be written
    and the API client can be built; the service then holds the granted
    credentials, the token file holds them too, the client is built, and
    no API call has been made. *)
Theorem authenticate_with_code_succeeds_iff
        (env : Env) (auth_code : string) (w : World) :
  (forall flow creds,
      _flow (self w) = Some flow ->
      fetch_token env auth_code = Some creds ->
      token_file_writable env = true ->
      build_ok env = true ->
      authenticate_with_code env auth_code w
      = (Returns true,
         {| self := {| credentials := Some creds; youtube := true;
                       _flow := Some flow |};
            now := now w;
            api_calls := api_calls w;
            token_file := Some creds |}))
  /\ (fst (authenticate_with_code env auth_code w) = Returns true ->
      exists flow creds,
        _flow (self w) = Some flow
        /\ fetch_token env auth_code = Some creds
        /\ token_file_writable env = true
        /\ build_ok env = true).
Proof.
  unfold authenticate_with_code, try_except, bind, Py.get, is_Exception,
    raise, ret, _save_credentials, set_self, modify.
  split.
  - intros flow creds F T W B. rewrite F, T, W, B. cbn. now rewrite F.
  - destruct (_flow (self w)) as [flow|]; [|discriminate].
    destruct (fetch_token env auth_code) as [creds|]; [|discriminate].
    destruct (token_file_writable env); [|discriminate].
    destruct (build_ok env); [|discriminate].
    intros _. exists flow, creds. repeat split.
Qed.



(** *** The constructor and the token file *)

Ltac run_init :=
  unfold init, _load_credentials, try_except, bind, Py.get, is_Exception,
    raise, ret, _save_credentials, set_self, modify, is_authenticated, gets.

(** What the constructor does when it returns, and when it raises for
    lack of client credentials. *)
Lemma init_effect
        (env : Env) (provider : Provider)
        (client_id client_secret : option string) (w : World) :
  (forall w',
      init env provider client_id client_secret w = (Returns tt, w') ->
      is_authenticated w' = (Returns (youtube (self w')), w')
      /\ _flow (self w') = None
      /\ api_calls w' = api_calls w
      /\ now w' = now w)
  /\ (truthy client_id && truthy client_secret = false ->
      init env provider client_id client_secret w
      = (Raises credentials_not_found, w)).
Proof.
  split.
  - intros w'. run_init.
    destruct (truthy client_id), (truthy client_secret); cbn [negb orb];
      try discriminate.
    cbn -[valid expired truthy].
    destruct (token_file w) as [c|]; cbn -[valid expired truthy].
    + destruct (expired c (now w) && truthy (refresh_token c));
        cbn -[valid expired truthy].
      * destruct (refresh provider c (now w)) as [c'|];
          cbn -[valid expired truthy].
        -- destruct (token_file_writable env); cbn -[valid expired truthy].
           ++ destruct (valid c' (now w)) eqn:V.
              ** destruct (build_ok env); [|discriminate].
                 intros [= <-]. cbn -[valid]. now rewrite V.
              ** intros [= <-]. cbn -[valid]. now rewrite V.
           ++ intros [= <-]. repeat split.
        -- intros [= <-]. repeat split.
      * destruct (valid c (now w)) eqn:V.
        -- destruct (build_ok env); [|discriminate].
           intros [= <-]. cbn -[valid]. now rewrite V.
        -- intros [= <-]. cbn -[valid]. now rewrite V.
    + intros [= <-]. repeat split.
  - intros T. unfold init.
    destruct (truthy client_id), (truthy client_secret);
      try discriminate T; reflexivity.
Qed.

(** X19. When the constructor returns, the API client is built exactly
    when the service is authenticated; no flow is pending, no API call
    has been made and the clock has not moved. Without a client id or a
    client secret the constructor raises [ValueError] and changes
    nothing. *)
Theorem init_builds_client_iff_authenticated
        (env : Env) (provider : Provider)
        (client_id client_secret : option string) (w : World) :
  (forall w',
      init env provider client_id client_secret w = (Returns tt, w') ->
      is_authenticated w' = (Returns (youtube (self w')), w')
      /\ _flow (self w') = None
      /\ api_calls w' = api_calls w
      /\ now w' = now w)
  /\ (truthy client_id && truthy client_secret = false ->
      init env provider client_id client_secret w
      = (Raises credentials_not_found, w)).
Proof. exact (init_effect env provider client_id client_secret w). Qed.

Lemma init_builds_client_iff_authenticated_witness :
  is_authenticated signed_in = (Returns (youtube (self signed_in)), signed_in)
  /\ _flow (self signed_in) = None
  /\ api_calls signed_in = api_calls signed_in
  /\ now signed_in = now signed_in.
Proof.
  apply (proj1 (init_builds_client_iff_authenticated granting no_refresh
                  (Some "client-id") (Some "client-secret") signed_in)).
  reflexivity.
Defined.



(** *** The Streamlit entry point *)

Lemma authenticate_with_code_keeps_calls (env : Env) (auth_code : string)
      (w : World) :
  exists b w',
    authenticate_with_code env auth_code w = (Returns b, w')
    /\ api_calls w' = api_calls w.
Proof.
  unfold authenticate_with_code, try_except, bind, Py.get, is_Exception,
    raise, ret, _save_credentials, set_self, modify.
  destruct (_flow (self w)); [|eexists _, _; split; reflexivity].
  destruct (fetch_token env auth_code); [|eexists _, _; split; reflexivity].
  destruct (token_file_writable env), (build_ok env);
    eexists _, _; split; reflexivity.
Qed.

(** X21. [create_youtube_playlist_streamlit] reports a missing session
    without raising. Without a client id or secret it returns a failure
    result that carries the constructor's message. When the constructed
    service is not authenticated it makes no API call and ends with a
    rerun (the code entered was accepted) or with a failure result,
    'Authentication required' when no code was entered; every such
    result has [success = False], nothing attempted, nothing added and
    all the tracks skipped. When the constructed service is
    authenticated, the outcome is that of [create_playlist_from_tracks]
    with an empty description. *)
Theorem streamlit_reports_missing_session
        (env : Env) (provider : Provider)
        (client_id client_secret : option string) (auth_code : string)
        (tracks_df : list TrackRow) (playlist_name : string)
        (confidence_threshold : float) (w : World) :
  (truthy client_id && truthy client_secret = false ->
   create_youtube_playlist_streamlit env provider client_id client_secret
     auth_code tracks_df playlist_name confidence_threshold w
   = (Returns (Result_of (failure (str_of_exn credentials_not_found)
                                  tracks_df)), w))
  /\ (forall w1,
         init env provider client_id client_secret w = (Returns tt, w1) ->
         is_authenticated w1 = (Returns false, w1) ->
         exists o w2,
           create_youtube_playlist_streamlit env provider client_id
             client_secret auth_code tracks_df playlist_name
             confidence_threshold w = (Returns o, w2)
           /\ api_calls w2 = api_calls w
           /\ (o = Rerun /\ truthy (Some auth_code) = true
               \/ o = Result_of (failure "Authentication failed" tracks_df)
                  /\ truthy (Some auth_code) = true
               \/ o = Result_of (failure "Authentication required"
                                         tracks_df)
                  /\ truthy (Some auth_code) = false))
  /\ (forall w1,
         init env provider client_id client_secret w = (Returns tt, w1) ->
         is_authenticated w1 = (Returns true, w1) ->
         create_youtube_playlist_streamlit env provider client_id
           client_secret auth_code tracks_df playlist_name
           confidence_threshold w
         = match create_playlist_from_tracks env playlist_name tracks_df
                   confidence_threshold "" w1 with
           | (Returns r, w2) => (Returns (Result_of r), w2)
           | (Raises e, w2) => (Raises e, w2)
           end).
Proof.
  unfold create_youtube_playlist_streamlit.
  split; [|split].
  - intros T.
    unfold try_except, bind.
    rewrite (proj2 (init_effect env provider client_id client_secret w) T).
    reflexivity.
  - intros w1 I A.
    destruct (proj1 (init_effect env provider client_id client_secret w)
                w1 I) as (_ & _ & C & _).
    unfold try_except at 1. unfold bind at 1. unfold bind at 1.
    rewrite I. unfold ret at 1. unfold bind at 1. rewrite A. cbn [negb].
    unfold get_auth_url, set_self, modify, bind, ret.
    destruct (truthy (Some auth_code)) eqn:T.
    + destruct (authenticate_with_code_keeps_calls env auth_code
                  {| self := {| credentials := credentials (self w1);
                                youtube := youtube (self w1);
                                _flow := Some {| flow_scopes := scopes;
                                                 flow_redirect_uri :=
                                                   redirect_uri |} |};
                     now := now w1; api_calls := api_calls w1;
                     token_file := token_file w1 |})
        as (b & w2 & E & K).
      rewrite E. cbn [api_calls] in K.
      destruct b; eexists _, w2; (split; [reflexivity|]);
        (split; [congruence|]); auto.
    + eexists _, _. split; [reflexivity|]. split; [exact C|]. auto.
  - intros w1 I A.
    unfold try_except at 1. unfold bind at 1. unfold bind at 1.
    rewrite I. unfold ret at 1. unfold bind at 1. rewrite A. cbn [negb].
    unfold bind, ret.
    destruct (create_playlist_from_tracks env playlist_name tracks_df
                confidence_threshold "" w1) as [[r|e] w2]; reflexivity.
Qed.

Lemma streamlit_reports_missing_session_witness :
  create_youtube_playlist_streamlit granting no_refresh None
    (Some "client-secret") "" sample_df "Road trip" 0.7%float signed_out
  = (Returns (Result_of (failure (str_of_exn credentials_not_found)
                                 sample_df)), signed_out)
  /\ exists o w2,
      create_youtube_playlist_streamlit granting no_refresh
        (Some "client-id") (Some "client-secret") "" sample_df "Road trip"
        0.7%float signed_out = (Returns o, w2)
      /\ api_calls w2 = api_calls signed_out
      /\ (o = Rerun /\ truthy (Some "") = true
          \/ o = Result_of (failure "Authentication failed" sample_df)
             /\ truthy (Some "") = true
          \/ o = Result_of (failure "Authentication required" sample_df)
             /\ truthy (Some "") = false).
Proof.
  split.
  - apply (proj1 (streamlit_reports_missing_session granting no_refresh
                    None (Some "client-secret") "" sample_df "Road trip"
                    0.7%float signed_out)).
    reflexivity.
  - apply (proj1 (proj2 (streamlit_reports_missing_session granting
                           no_refresh (Some "client-id")
                           (Some "client-secret") "" sample_df "Road trip"
                           0.7%float signed_out)) signed_out);
      reflexivity.
Defined.

End PlaylistExtras.

(** ** The Spotify service *)

Module SpotifyFacts.
Import SpotifyService Paging.

Lemma strip_prefix_app (p s : string) :
  strip_prefix p (p ++ s) = Some s.
Proof.
  induction p as [|a p IH]; cbn; [reflexivity|].
  now rewrite Ascii.eqb_refl.
Qed.

Lemma strip_prefix_some (p s r : string) :
  strip_prefix p s = Some r -> s = (p ++ r)%string.
Proof.
  revert s. induction p as [|a p IH]; intros s; cbn.
  - now intros [= ->].
  - destruct s as [|b s]; [discriminate|].
    destruct (Ascii.eqb a b) eqn:E; [|discriminate].
    apply Ascii.eqb_eq in E. subst b. intros H. now rewrite (IH s H).
Qed.

Lemma take_alnum_app (g rest : string) :
  all_alnum g = true -> starts_alnum rest = false ->
  take_alnum (g ++ rest) = g.
Proof.
  intros A R. induction g as [|c g IH].
  - destruct rest as [|c rest]; [reflexivity|].
    cbn [starts_alnum] in R. cbn [append take_alnum]. now rewrite R.
  - cbn [all_alnum] in A. apply andb_true_iff in A. destruct A as (C & A).
    cbn [append take_alnum]. now rewrite C, IH.
Qed.

Lemma take_alnum_all_alnum (s : string) : all_alnum (take_alnum s) = true.
Proof.
  induction s as [|c s IH]; [reflexivity|].
  cbn [take_alnum]. destruct (isalnum c) eqn:C; [|reflexivity].
  cbn [all_alnum]. now rewrite C, IH.
Qed.

Lemma take_alnum_is_head (s : string) :
  exists rest, s = (take_alnum s ++ rest)%string.
Proof.
  induction s as [|c s (rest & IH)]; [now exists ""%string|].
  cbn [take_alnum]. destruct (isalnum c).
  - exists rest. cbn [append]. now rewrite <- IH.
  - now exists (String c s).
Qed.

Lemma prefix_app (a b : string) : String.prefix a (a ++ b) = true.
Proof.
  induction a as [|c a IH]; cbn; [now destruct b|].
  destruct (ascii_dec c c) as [_|N]; [exact IH|now elim N].
Qed.

Lemma app_assoc_string (a b c : string) :
  ((a ++ b) ++ c = a ++ b ++ c)%string.
Proof. induction a as [|x a IH]; cbn; [reflexivity|now rewrite IH]. Qed.

Lemma match_here_some (s g : string) :
  match_here s = Some g ->
  g <> ""%string /\ all_alnum g = true
  /\ String.prefix (playlist_prefix ++ g) s = true.
Proof.
  unfold match_here.
  destruct (strip_prefix playlist_prefix s) as [rest|] eqn:P;
    [|discriminate].
  destruct (String.length (take_alnum rest) =? 0) eqn:L; [discriminate|].
  intros [= <-]. split; [|split].
  - intros Z. rewrite Z in L. discriminate.
  - apply take_alnum_all_alnum.
  - apply strip_prefix_some in P. subst s.
    destruct (take_alnum_is_head rest) as (tail & T).
    remember (take_alnum rest) as g eqn:G. clear G L.
    rewrite T, <- app_assoc_string. apply prefix_app.
Qed.

Lemma prefix_app_l (a b s : string) :
  String.prefix (a ++ b) s = true -> String.prefix a s = true.
Proof.
  revert s. induction a as [|c a IH]; intros s H; [now destruct s|].
  destruct s as [|d s]; [discriminate H|].
  cbn [append String.prefix] in *.
  destruct (ascii_dec c d); [now apply IH|discriminate H].
Qed.

Lemma re_search_some (s g : string) :
  re_search s = Some g ->
  g <> ""%string /\ all_alnum g = true
  /\ contains s (playlist_prefix ++ g) = true.
Proof.
  induction s as [|c s IH].
  - cbn. discriminate.
  - cbn [re_search]. destruct (match_here (String c s)) as [g'|] eqn:M.
    + intros [= <-]. destruct (match_here_some _ _ M) as (N & A & P).
      split; [exact N|]. split; [exact A|].
      cbn [contains]. now rewrite P.
    + intros H. destruct (IH H) as (N & A & C).
      split; [exact N|]. split; [exact A|].
      cbn [contains]. rewrite C. apply orb_true_r.
Qed.

(** X22. [extract_playlist_id] gives back the identifier of a playlist
    URL: for a non-empty identifier of letters and digits, followed by
    nothing or by something that starts with another character (a query
    string, say), the URL made of the Spotify playlist address and the
    identifier yields that identifier. *)
Theorem extract_playlist_id_round_trip (playlist_id rest : string) :
  playlist_id <> ""%string ->
  all_alnum playlist_id = true ->
  starts_alnum rest = false ->
  extract_playlist_id (playlist_prefix ++ playlist_id ++ rest)
  = Returns playlist_id.
Proof.
  intros N A R. unfold extract_playlist_id.
  assert (M : match_here (playlist_prefix ++ playlist_id ++ rest)
              = Some playlist_id).
  { unfold match_here. rewrite strip_prefix_app, take_alnum_app by assumption.
    destruct playlist_id; [now elim N|reflexivity]. }
  assert (S : re_search (playlist_prefix ++ playlist_id ++ rest)
              = Some playlist_id).
  { destruct (playlist_prefix ++ playlist_id ++ rest)%string;
      cbn [re_search]; now rewrite M. }
  now rewrite S.
Qed.

Lemma extract_playlist_id_round_trip_witness :
  extract_playlist_id sample_url = Returns "21VEt90ZQIRa95rmeFi5Um"%string.
Proof.
  apply (extract_playlist_id_round_trip "21VEt90ZQIRa95rmeFi5Um"
           "?pi=PmIzTgsdTOCAX").
  - discriminate.
  - reflexivity.
  - reflexivity.
Defined.

(** X23. What [extract_playlist_id] returns is never empty, is made of
    letters and digits only, and stands in the URL right after the
    Spotify playlist address; a URL that does not contain that address
    is refused with [ValueError]. *)
Theorem extract_playlist_id_result (playlist_url : string) :
  (forall playlist_id,
      extract_playlist_id playlist_url = Returns playlist_id ->
      playlist_id <> ""%string
      /\ all_alnum playlist_id = true
      /\ contains playlist_url (playlist_prefix ++ playlist_id) = true)
  /\ (contains playlist_url playlist_prefix = false ->
      extract_playlist_id playlist_url
      = Raises (ValueError ("Invalid Spotify playlist URL: "
                              ++ playlist_url))).
Proof.
  unfold extract_playlist_id. split.
  - intros g. destruct (re_search playlist_url) as [g'|] eqn:S;
      [|discriminate].
    intros [= <-]. now apply re_search_some.
  - intros C. destruct (re_search playlist_url) as [g|] eqn:S;
      [|reflexivity].
    destruct (re_search_some _ _ S) as (_ & _ & K).
    assert (K' : contains playlist_url playlist_prefix = true).
    { clear - K. induction playlist_url as [|c u IH]; cbn [contains] in *.
      - apply orb_true_iff in K. destruct K as [K|K]; [|discriminate].
        now rewrite (prefix_app_l _ _ _ K).
      - apply orb_true_iff in K. destruct K as [K|K].
        + now rewrite (prefix_app_l _ _ _ K).
        + rewrite (IH K). apply orb_true_r. }
    rewrite K' in C. discriminate.
Qed.

(** *** Pages *)

Lemma append_items_acc (its : list (option Track))
      (acc : list YouTubeMusic.Spotify.Row) :
  append_items its acc = acc ++ append_items its [].
Proof.
  revert acc. induction its as [|[t|] its IH]; intros acc; cbn.
  - now rewrite app_nil_r.
  - rewrite (IH (acc ++ [row_of_track t])), (IH [row_of_track t]).
    now rewrite <- app_assoc.
  - apply IH.
Qed.

Lemma rows_of_page_length (page : Page) :
  List.length (rows_of_page page) = count_tracks (items page).
Proof.
  unfold rows_of_page, count_tracks.
  induction (items page) as [|[t|] its IH]; cbn; [reflexivity| |exact IH].
  rewrite append_items_acc, length_app, IH. cbn. lia.
Qed.

(** Pages that link on: the loop reads them all and goes on after
    them. *)
Lemma pages_loop_linked (sp : Spotipy) (playlist_id : string)
      (pre : list Page) :
  forall (fuel offset : nat) (acc : list YouTubeMusic.Spotify.Row)
         (log : Requests),
    serves_linked sp playlist_id offset pre ->
    pages_loop (List.length pre + fuel) sp playlist_id offset 100 acc log
    = pages_loop fuel sp playlist_id (offset + 100 * List.length pre) 100
                 (acc ++ List.flat_map rows_of_page pre)
                 (log ++ offsets playlist_id offset (List.length pre)).
Proof.
  induction pre as [|page pre IH]; intros fuel offset acc log S.
  - cbn. now rewrite Nat.add_0_r, !app_nil_r.
  - destruct S as (P & N & S).
    cbn [List.length Nat.add pages_loop]. unfold bind, request_page.
    rewrite P. destruct (next page) as [link|]; [|now elim N].
    rewrite (IH fuel (offset + 100) _ _ S).
    cbn [List.flat_map offsets].
    rewrite (append_items_acc (items page) acc).
    fold (rows_of_page page).
    rewrite <- !app_assoc. cbn [app].
    f_equal. lia.
Qed.

Lemma serves_split (sp : Spotipy) (playlist_id : string)
      (pages : list Page) :
  forall offset,
    serves sp playlist_id offset pages ->
    exists pre last,
      pages = pre ++ [last]
      /\ serves_linked sp playlist_id offset pre
      /\ (forall n, playlist_tracks sp n playlist_id
                      (offset + 100 * List.length pre) 100 = Some last)
      /\ next last = None.
Proof.
  induction pages as [|page rest IH]; intros offset Sv; [contradiction|].
  destruct Sv as (P & Sv). destruct rest as [|page' rest].
  - exists [], page. cbn. rewrite Nat.add_0_r. repeat split; assumption.
  - destruct Sv as (N & Sv).
    destruct (IH (offset + 100) Sv) as (pre & last & E & L & Q & Z).
    exists (page :: pre), last. rewrite E. split; [reflexivity|].
    split; [cbn; repeat split; assumption|]. split; [|exact Z].
    intros n. cbn [List.length].
    replace (offset + 100 * S (List.length pre))
      with (offset + 100 + 100 * List.length pre) by lia.
    apply Q.
Qed.

Lemma offsets_app (playlist_id : string) (k : nat) :
  forall offset,
    offsets playlist_id offset k ++ [(playlist_id, offset + 100 * k)]
    = offsets playlist_id offset (S k).
Proof.
  induction k as [|k IH]; intros offset.
  - cbn. now rewrite Nat.add_0_r.
  - change (offsets playlist_id offset (S (S k)))
      with ((playlist_id, offset)
              :: offsets playlist_id (offset + 100) (S k)).
    change (offsets playlist_id offset (S k))
      with ((playlist_id, offset) :: offsets playlist_id (offset + 100) k).
    cbn [app]. f_equal.
    replace (offset + 100 * S k) with (offset + 100 + 100 * k) by lia.
    apply IH.
Qed.

(** X24. When the API serves the playlist as a list of pages 100 apart,
    of which only the last has no link to a next page, and the loop is
    given at least that many rounds, [get_playlist_tracks] asks for each
    page once, at offsets 0, 100, 200 and so on, and returns the rows of
    the tracks of all the pages in playlist order, the null tracks left
    out: as many rows as there are tracks that are not null. *)
Theorem get_playlist_tracks_reads_every_page
        (fuel : nat) (sp : Spotipy) (playlist_url playlist_id : string)
        (pages : list Page) (log : Requests) :
  extract_playlist_id playlist_url = Returns playlist_id ->
  serves sp playlist_id 0 pages ->
  List.length pages <= fuel ->
  get_playlist_tracks fuel sp playlist_url log
  = (Returns (Some (List.flat_map rows_of_page pages)),
     log ++ offsets playlist_id 0 (List.length pages))
  /\ List.length (List.flat_map rows_of_page pages)
     = list_sum (List.map (fun page => count_tracks (items page)) pages).
Proof.
  intros X Sv F. split.
  - unfold get_playlist_tracks. rewrite X.
    destruct (serves_split sp playlist_id pages 0 Sv)
      as (pre & last & E & L & Q & Z).
    subst pages. rewrite length_app in *. cbn [List.length] in *.
    replace fuel with (List.length pre + S (fuel - List.length pre - 1))
      by lia.
    rewrite (pages_loop_linked sp playlist_id pre _ 0 [] log L).
    cbn [pages_loop app]. unfold bind, request_page.
    rewrite Q, Z. unfold ret.
    rewrite flat_map_app. cbn [List.flat_map]. rewrite app_nil_r.
    rewrite (append_items_acc (items last)). fold (rows_of_page last).
    rewrite <- app_assoc.
    rewrite (offsets_app playlist_id (List.length pre) 0).
    now rewrite Nat.add_1_r.
  - clear. induction pages as [|page pages IH]; [reflexivity|].
    cbn [List.flat_map List.map list_sum].
    now rewrite length_app, rows_of_page_length, IH.
Qed.

Lemma get_playlist_tracks_reads_every_page_witness :
  get_playlist_tracks 5 two_pages sample_url []
  = (Returns
       (Some [row_of_track one_more_time_track; row_of_track duet_track]),
     [("21VEt90ZQIRa95rmeFi5Um"%string, 0);
      ("21VEt90ZQIRa95rmeFi5Um"%string, 100)])
  /\ 2 = 2.
Proof.
  apply (get_playlist_tracks_reads_every_page 5 two_pages sample_url
           "21VEt90ZQIRa95rmeFi5Um" [first_page; last_page] []).
  - reflexivity.
  - cbn. repeat split; discriminate.
  - cbn. lia.
Defined.

(** X25. The loop stops on the link to the next page and on nothing
    else. With an API that always links to a next page the requests go
    on, whatever the pages hold (empty pages included): after any number
    of rounds the loop has sent that many requests and has not
    returned. *)
Theorem get_playlist_tracks_follows_next_only
        (sp : Spotipy) (playlist_id : string) :
  (forall n offset,
      exists page,
        playlist_tracks sp n playlist_id offset 100 = Some page
        /\ next page <> None) ->
  forall (fuel offset : nat) (acc : list YouTubeMusic.Spotify.Row)
         (log : Requests),
    pages_loop fuel sp playlist_id offset 100 acc log
    = (Returns None, log ++ offsets playlist_id offset fuel).
Proof.
  intros A fuel. induction fuel as [|fuel IH]; intros offset acc log.
  - cbn. now rewrite app_nil_r.
  - cbn [pages_loop]. unfold bind, request_page.
    destruct (A (List.length log) offset) as (page & P & N).
    rewrite P. destruct (next page) as [link|]; [|now elim N].
    rewrite IH. cbn [offsets]. now rewrite <- app_assoc.
Qed.

Lemma get_playlist_tracks_follows_next_only_witness :
  pages_loop 3 endless "21VEt90ZQIRa95rmeFi5Um" 0 100 [] []
  = (Returns None,
     [("21VEt90ZQIRa95rmeFi5Um"%string, 0);
      ("21VEt90ZQIRa95rmeFi5Um"%string, 100);
      ("21VEt90ZQIRa95rmeFi5Um"%string, 200)]).
Proof.
  apply (get_playlist_tracks_follows_next_only endless
           "21VEt90ZQIRa95rmeFi5Um").
  intros n offset. eexists. split; [reflexivity|discriminate].
Defined.

(** X26. A page that cannot be fetched loses the whole playlist: when
    the API serves some pages that link on and raises on the next
    request, [get_playlist_tracks] raises after that request and returns
    none of the rows already read. A URL without a playlist identifier
    is refused before any request is sent. *)
Theorem get_playlist_tracks_raises
        (fuel : nat) (sp : Spotipy) (playlist_url : string)
        (log : Requests) :
  (forall playlist_id pre,
      extract_playlist_id playlist_url = Returns playlist_id ->
      serves_linked sp playlist_id 0 pre ->
      (forall n, playlist_tracks sp n playlist_id
                   (100 * List.length pre) 100 = None) ->
      List.length pre < fuel ->
      get_playlist_tracks fuel sp playlist_url log
      = (Raises OtherException,
         log ++ offsets playlist_id 0 (S (List.length pre))))
  /\ (forall e,
         extract_playlist_id playlist_url = Raises e ->
         get_playlist_tracks fuel sp playlist_url log = (Raises e, log)).
Proof.
  split.
  - intros playlist_id pre X L Q F.
    unfold get_playlist_tracks. rewrite X.
    replace fuel with (List.length pre + S (fuel - List.length pre - 1))
      by lia.
    rewrite (pages_loop_linked sp playlist_id pre _ 0 [] log L).
    assert (Q' : forall n, playlist_tracks sp n playlist_id
                             (0 + 100 * List.length pre) 100 = None)
      by exact Q.
    cbn [pages_loop app]. unfold bind, request_page.
    rewrite Q'. rewrite <- app_assoc.
    now rewrite (offsets_app playlist_id (List.length pre) 0).
  - intros e X. unfold get_playlist_tracks. now rewrite X.
Qed.

Lemma get_playlist_tracks_raises_witness :
  get_playlist_tracks 5 second_page_fails sample_url []
  = (Raises OtherException,
     [("21VEt90ZQIRa95rmeFi5Um"%string, 0);
      ("21VEt90ZQIRa95rmeFi5Um"%string, 100)])
  /\ get_playlist_tracks 5 two_pages
       "spotify:playlist:21VEt90ZQIRa95rmeFi5Um" []
     = (Raises (ValueError
                  ("Invalid Spotify playlist URL: "
                     ++ "spotify:playlist:21VEt90ZQIRa95rmeFi5Um")), []).
Proof.
  split.
  - apply (proj1 (get_playlist_tracks_raises 5 second_page_fails
                    sample_url [])
             "21VEt90ZQIRa95rmeFi5Um"%string [first_page]).
    + reflexivity.
    + cbn. repeat split; discriminate.
    + reflexivity.
    + cbn. lia.
  - apply (proj2 (get_playlist_tracks_raises 5 two_pages
                    "spotify:playlist:21VEt90ZQIRa95rmeFi5Um" [])).
    reflexivity.
Defined.

End SpotifyFacts.
